(** * Verification of the evidence-correlation core of video-analyzer

    Shallow embedding of the Python services under
    [src/backend/app/services]:
    - [violation_analysis_service.py]: audio trigger extraction and the
      combine-and-deduplicate pass;
    - [audio_analysis_service.py]: hallucination detection and the
      per-segment transcription loop;
    - [enhanced_video_analysis.py]: blackout detection, usable segments,
      the frame samplers, the per-frame analysis loop and violation priority.

    Python floats are modelled as exact rationals [Q], except in the frame
    samplers of [enhanced_video_analysis.py], whose rounding matters and
    which module [Float64] models on IEEE binary64 floats; Python [int()]
    on a non-negative rational is [Qfloor]; dicts are records whose fields are the
    keys the code reads; external effects (the video decoder, the inference
    providers, the speech-to-text model, the regex engine) are parameters. *)

From Stdlib Require Import QArith Qabs Qround List String Ascii Bool ZArith Lia.
From Stdlib Require Import Sorting.Sorted Sorting.Permutation Lqa DecimalString DecimalN.
From Stdlib Require Floats.
Import ListNotations.
Open Scope string_scope.
Open Scope list_scope.
Open Scope Q_scope.

(** ** Python's [list.sort(key=...)]: a stable sort *)

Section StableSort.
Context {A : Type} (before : A -> A -> bool).

(** [insert_sorted x l] puts [x] in front of the first element it may
    precede; as [x] came before every element of [l], ties keep the
    original order. *)
Fixpoint insert_sorted (x : A) (l : list A) : list A :=
  match l with
  | [] => [x]
  | y :: ys => if before x y then x :: y :: ys else y :: insert_sorted x ys
  end.

Fixpoint stable_sort (l : list A) : list A :=
  match l with
  | [] => []
  | x :: xs => insert_sorted x (stable_sort xs)
  end.
End StableSort.

(** [sorted(key=k)] and [sorted(key=k, reverse=True)]; Python keeps equal
    keys in their original order in both directions. *)
Definition sort_by_key {A} (key : A -> Q) : list A -> list A :=
  stable_sort (fun x y => Qle_bool (key x) (key y)).
Definition sort_by_key_desc {A} (key : A -> Q) : list A -> list A :=
  stable_sort (fun x y => Qle_bool (key y) (key x)).

Definition Qltb (x y : Q) : bool := negb (Qle_bool y x).

(** ** violation_analysis_service.py: violations and deduplication *)

(** A violation dict.  [v_context] holds the remaining keys of the dict
    ([context] for video violations, [audio_context] for audio ones). *)
Record Violation := mkViolation {
  v_timestamp : Q;
  v_type : string;
  v_description : string;
  v_severity : string;
  v_confidence : Q;
  v_source : string;
  v_context : list (string * string)
}.

Definition set_confidence (v : Violation) (c : Q) : Violation :=
  {| v_timestamp := v_timestamp v; v_type := v_type v;
     v_description := v_description v; v_severity := v_severity v;
     v_confidence := c; v_source := v_source v; v_context := v_context v |}.

(** [current['type'] == last['type'] and abs(current['timestamp'] -
    last['timestamp']) < 5] *)
Definition is_duplicate (current last : Violation) : bool :=
  String.eqb (v_type current) (v_type last)
  && Qltb (Qabs (v_timestamp current - v_timestamp last)) 5.

(** [if current['confidence'] > last['confidence']:
       last['confidence'] = current['confidence']] *)
Definition merge_into (last current : Violation) : Violation :=
  if Qltb (v_confidence last) (v_confidence current)
  then set_confidence last (v_confidence current) else last.

(** The loop of [_combine_and_deduplicate].  [acc] is [deduplicated]
    reversed: its head is [last_violation], the very object the loop
    mutates, so the update is seen in the returned list. *)
Fixpoint dedup_scan (acc : list Violation) (l : list Violation) : list Violation :=
  match l with
  | [] => rev acc
  | current :: rest =>
      match acc with
      | last :: kept =>
          if is_duplicate current last
          then dedup_scan (merge_into last current :: kept) rest
          else dedup_scan (current :: acc) rest
      | [] => dedup_scan [current] rest
      end
  end.

Definition combine_and_deduplicate (frame_violations audio_violations : list Violation)
  : list Violation :=
  let combined := frame_violations ++ audio_violations in
  match combined with
  | [] => []
  | _ => dedup_scan [] (sort_by_key v_timestamp combined)
  end.

(** A group: a kept violation and the later violations merged into it, and
    the violation the group leaves in the output. *)
Definition group := (Violation * list Violation)%type.

Definition summarize (g : group) : Violation := fold_left merge_into (snd g) (fst g).

Definition flatten_groups (gs : list group) : list Violation :=
  flat_map (fun g => fst g :: snd g) gs.

(** The grouping the scan performs, written as a separate function. *)
Fixpoint group_scan (h : Violation) (ms : list Violation) (l : list Violation)
  : list group :=
  match l with
  | [] => [(h, rev ms)]
  | x :: rest =>
      if is_duplicate x h then group_scan h (x :: ms) rest
      else (h, rev ms) :: group_scan x [] rest
  end.

Definition groups_of (l : list Violation) : list group :=
  match l with [] => [] | x :: rest => group_scan x [] rest end.

(** [adjacent P l]: [P x y] for every two neighbours [x], [y] of [l]. *)
Fixpoint adjacent {A} (P : A -> A -> Prop) (l : list A) : Prop :=
  match l with
  | x :: ((y :: _) as rest) => P x y /\ adjacent P rest
  | _ => True
  end.

(** [next] is not a duplicate of [kept] in the sense of the spec: not the
    same type within 5 seconds. *)
Definition not_mergeable (kept next : Violation) : Prop :=
  ~ (v_type next = v_type kept /\ Qabs (v_timestamp next - v_timestamp kept) < 5).

(** The scenario of the spec: two video violations of the same type, at
    10.0 s with confidence 0.6 and at 12.0 s with confidence 0.8. *)
Definition force_at_10 : Violation :=
  mkViolation 10 "excessive_force" "Visually detected concern: excessive_force" "high"
    (6 # 10) "video" [].
Definition force_at_12 : Violation :=
  mkViolation 12 "excessive_force" "Visually detected concern: excessive_force" "high"
    (8 # 10) "video" [].

(** ** Python string helpers *)

(** [str.lower()] on ASCII text. *)
Definition ascii_lower (c : ascii) : ascii :=
  let n := nat_of_ascii c in
  if (65 <=? n)%nat && (n <=? 90)%nat then ascii_of_nat (n + 32) else c.

Fixpoint lower (s : string) : string :=
  match s with
  | EmptyString => EmptyString
  | String c s' => String (ascii_lower c) (lower s')
  end.

(** [p in s] on strings. *)
Fixpoint contains (p s : string) : bool :=
  prefix p s || match s with EmptyString => false | String _ s' => contains p s' end.

(** The characters [str.split()] splits on (ASCII range of [str.isspace]):
    tab, newline, vertical tab, form feed, carriage return, the separators
    0x1c-0x1f and space. *)
Definition is_py_space (c : ascii) : bool :=
  let n := nat_of_ascii c in ((9 <=? n)%nat && (n <=? 13)%nat) || ((28 <=? n)%nat && (n <=? 32)%nat).

Fixpoint py_split_aux (s : string) (cur : list ascii) : list string :=
  match s with
  | EmptyString =>
      match cur with [] => [] | _ => [string_of_list_ascii (rev cur)] end
  | String c s' =>
      if is_py_space c then
        match cur with
        | [] => py_split_aux s' []
        | _ => string_of_list_ascii (rev cur) :: py_split_aux s' []
        end
      else py_split_aux s' (c :: cur)
  end.

(** [str.split()] with no argument. *)
Definition py_split (s : string) : list string := py_split_aux s [].

(** [min(a, b)] *)
Definition py_min (a b : Q) : Q := if Qltb b a then b else a.

(** ** enhanced_video_analysis.py: [_calculate_violation_priority] *)

Definition severity_multiplier (severity : string) : Q :=
  if String.eqb severity "low" then 7 # 10
  else if String.eqb severity "medium" then 1
  else if String.eqb severity "high" then 13 # 10
  else if String.eqb severity "critical" then 15 # 10
  else 1.

Definition severity_levels : list string := ["low"; "medium"; "high"; "critical"].

(** [audio_context['closest_segment']]: the fields the priority reads. *)
Record ClosestSegment := mkClosestSegment {
  cs_confidence : Q;
  cs_time_offset : Q;
  cs_text : string
}.

Definition priority_keywords : list string :=
  ["stop"; "help"; "please"; "no"; "don't"; "officer"; "sir"; "ma'am"].

(** The audio-context bonus; [None] is an [audio_context] that is [None]
    or has no [closest_segment]. *)
Definition audio_context_bonus (audio_context : option ClosestSegment) (base_score : Q) : Q :=
  match audio_context with
  | Some closest =>
      let base_score :=
        if Qltb (7 # 10) (cs_confidence closest) && Qltb (Qabs (cs_time_offset closest)) 10
        then base_score * (12 # 10) else base_score in
      let text := lower (cs_text closest) in
      if existsb (fun keyword => contains keyword text) priority_keywords
      then base_score * (11 # 10) else base_score
  | None => base_score
  end.

(** [confidence] and [severity_level] are the frame-analysis keys, [None]
    when absent ([.get] defaults 0.5 and 'medium'). *)
Definition calculate_violation_priority (confidence : option Q) (severity_level : option string)
    (audio_context : option ClosestSegment) : Q :=
  let base_score := match confidence with Some c => c | None => 1 # 2 end in
  let severity := match severity_level with Some s => s | None => "medium" end in
  let base_score := base_score * severity_multiplier severity in
  let base_score := audio_context_bonus audio_context base_score in
  py_min base_score 1.

(** ** audio_analysis_service.py: hallucination detection and transcription *)

(** [AudioSegment]; the spectral features are not read by the code
    modelled here. *)
Record AudioSegment := mkAudioSegment {
  as_start_time : Q;
  as_end_time : Q;
  as_duration : Q;
  as_audio_data : list Q;
  as_confidence : Q
}.

(** [TranscriptionSegment] *)
Record TranscriptionSegment := mkTranscriptionSegment {
  ts_start_time : Q;
  ts_end_time : Q;
  ts_text : string;
  ts_confidence : Q;
  ts_language : string;
  ts_is_hallucination : bool;
  ts_hallucination_indicators : list string
}.

(** The keys of the dict returned by Whisper's [transcribe] that the code
    reads: [text], [language] and the [avg_logprob] of each entry of
    [segments] ([None] when a key is absent). *)
Record WhisperResult := mkWhisperResult {
  wr_text : option string;
  wr_language : option string;
  wr_segments : option (list (option Q))
}.

Definition qnat (n : nat) : Q := inject_Z (Z.of_nat n).

(** [str.strip()] *)
Fixpoint drop_spaces (l : list ascii) : list ascii :=
  match l with
  | c :: l' => if is_py_space c then drop_spaces l' else l
  | [] => []
  end.
Definition py_strip (s : string) : string :=
  string_of_list_ascii (rev (drop_spaces (rev (drop_spaces (list_ascii_of_string s))))).

Definition hallucination_patterns : list string :=
  [ "\b(thank you|thanks)\b.*\b(watching|listening)\b";
    "\bsubscribe\b.*\bchannel\b";
    "\blike\b.*\bcomment\b";
    "\b(background|ambient)\s+music\b.*\b(playing|in the background)\b";
    "^\s*[" ++ "♪♫🎵🎶" ++ "]+\s*$";
    "^\s*\[.*music.*\]\s*$";
    "^\s*\(.*static.*\)\s*$";
    "^\s*\[.*static.*\]\s*$";
    "^\s*\(.*silence.*\)\s*$";
    "^\s*\[.*silence.*\]\s*$" ]%string.

Definition confidence_threshold : Q := 4 # 10.

Definition generic_phrases : list string := ["um"; "uh"; "you know"; "like"; "so"; "well"].

(** [word_counts[word] = word_counts.get(word, 0) + 1] on a dict kept as an
    association list in insertion order. *)
Fixpoint bump_count (w : string) (counts : list (string * nat)) : list (string * nat) :=
  match counts with
  | [] => [(w, 1%nat)]
  | (k, n) :: rest => if String.eqb k w then (k, S n) :: rest else (k, n) :: bump_count w rest
  end.

Definition word_counts (words : list string) : list (string * nat) :=
  fold_left (fun acc w => bump_count w acc) words [].

(** [max(word_counts.values()) if word_counts else 0] *)
Definition max_repetition (counts : list (string * nat)) : nat :=
  fold_left Nat.max (map snd counts) 0%nat.

Section Transcription.
(** [re.search(pattern, text) is not None] *)
Variable re_search : string -> string -> bool.
(** [f"{x:.<d>f}"] *)
Variable format_fixed : nat -> Q -> string.
(** [np.exp] *)
Variable np_exp : Q -> Q.
(** Whisper on the segment written to a temporary file; [None] when the
    call raises. *)
Variable whisper_transcribe : AudioSegment -> option WhisperResult.

(** [flag st reason]: [indicators.append(reason); is_hallucination = True] *)
Definition flag (st : bool * list string) (reason : string) : bool * list string :=
  (true, snd st ++ [reason]).

Definition detect_hallucinations (text : string) (confidence segment_duration : Q)
  : bool * list string :=
  let st := fold_left
              (fun st pattern =>
                 if re_search pattern (lower text)
                 then flag st ("Suspicious pattern: " ++ pattern)%string else st)
              hallucination_patterns (false, []) in
  let st := if Qltb confidence confidence_threshold
            then flag st ("Low confidence: " ++ format_fixed 2 confidence)%string else st in
  let words := py_split text in
  let st := if (3 <? List.length words)%nat
            then if Qltb (qnat (List.length words) * (3 # 10)) (qnat (max_repetition (word_counts words)))
                 then flag st "Excessive word repetition" else st
            else st in
  let expected_words := segment_duration * (5 # 2) in
  let actual_words := qnat (List.length words) in
  let st := if Qltb (expected_words * 2) actual_words
            then flag st "Unrealistic speaking rate" else st in
  let generic_count := List.length (filter (fun phrase => contains phrase (lower text)) generic_phrases) in
  let st := if Qltb (qnat (List.length words) * (1 # 2)) (qnat generic_count)
            then flag st "Excessive filler words" else st in
  st.

(** [np.mean] of [min(np.exp(avg_logprob), 1.0)] over the entries that
    have an [avg_logprob]. *)
Definition logprob_confidence (logprobs : list (option Q)) : Q :=
  let confidences := flat_map (fun lp => match lp with
                                         | Some l => [py_min (np_exp l) 1]
                                         | None => []
                                         end) logprobs in
  match confidences with
  | [] => 0
  | _ => fold_left Qplus confidences 0 / qnat (List.length confidences)
  end.

(** One iteration of the loop of [transcribe_audio_segments]; [None] is a
    [continue]: the transcription raised, the stripped text is empty, or
    [len(text.split()) / segment.duration] raised [ZeroDivisionError]
    (caught by the outer [except]). *)
Definition transcribe_segment (segment : AudioSegment) : option TranscriptionSegment :=
  match whisper_transcribe segment with
  | None => None
  | Some result =>
      let text := py_strip (match wr_text result with Some t => t | None => "" end) in
      let language := match wr_language result with Some l => l | None => "en" end in
      if String.eqb text "" then None else
      let confidence :=
        match wr_segments result with
        | Some ((_ :: _) as segs) => logprob_confidence segs
        | _ => py_min (as_confidence segment) (8 # 10)
        end in
      let st := detect_hallucinations text confidence (as_duration segment) in
      let st := if negb (String.eqb language "en") && negb (String.eqb language "english")
                then flag st ("Non-English language detected: " ++ language)%string else st in
      if Qeq_bool (as_duration segment) 0 then None else
      let words_per_second := qnat (List.length (py_split text)) / as_duration segment in
      let st := if Qltb 4 words_per_second
                then flag st ("Unrealistic speech rate: " ++ format_fixed 1 words_per_second
                              ++ " words/sec")%string
                else st in
      Some {| ts_start_time := as_start_time segment; ts_end_time := as_end_time segment;
              ts_text := text; ts_confidence := confidence; ts_language := language;
              ts_is_hallucination := fst st; ts_hallucination_indicators := snd st |}
  end.

Definition transcribe_audio_segments (audio_segments : list AudioSegment)
  : list TranscriptionSegment :=
  flat_map (fun segment => match transcribe_segment segment with
                           | Some t => [t]
                           | None => []
                           end) audio_segments.
End Transcription.

(** The scenario text of the spec. *)
Definition stop_resisting_text : string := "stop resisting stop resisting stop resisting stop".

(** The stripped text of a speech-to-text result. *)
Definition whisper_text (r : WhisperResult) : string :=
  py_strip (match wr_text r with Some t => t | None => "" end).

(** A hallucination state [(is_hallucination, indicators)] is flagged
    exactly when it has a reason. *)
Definition flag_consistent (st : bool * list string) : Prop := fst st = true <-> snd st <> [].

(** An audio segment of 2 s for the transcription counterexample. *)
Definition two_second_segment : AudioSegment := mkAudioSegment 0 2 2 [] (9 # 10).

(** ** enhanced_video_analysis.py: [analyze_frame] and the frame loop of
    [analyze_video_comprehensive_with_audio] *)

(** The values the result dictionaries hold. *)
Inductive PyVal :=
| VStr (s : string)
| VNum (q : Q)
| VBool (b : bool)
| VNat (n : nat)
| VStrs (l : list string).

Definition PyDict := list (string * PyVal).

(** [d.get(key, default)]: the first binding of [key]. *)
Fixpoint py_get (d : PyDict) (key : string) (default : PyVal) : PyVal :=
  match d with
  | [] => default
  | (k, v) :: d' => if String.eqb k key then v else py_get d' key default
  end.

Definition py_has_key (d : PyDict) (key : string) : bool :=
  existsb (fun kv => String.eqb (fst kv) key) d.

Definition py_get_str (d : PyDict) (key default : string) : string :=
  match py_get d key (VStr default) with VStr s => s | _ => default end.

Definition high_severity_indicators : list string :=
  ["excessive force"; "weapon drawn"; "violence"; "injury";
   "constitutional violation"; "serious concern"; "immediate danger"].

Definition medium_severity_indicators : list string :=
  ["inappropriate"; "concerning"; "unprofessional"; "escalation";
   "potential violation"; "questionable"].

Definition assess_enhanced_severity (analysis_text : string) : string :=
  let text_lower := lower analysis_text in
  if existsb (fun indicator => contains indicator text_lower) high_severity_indicators then "high"
  else if existsb (fun indicator => contains indicator text_lower) medium_severity_indicators then "medium"
  else "low".

Record FrameData := mkFrameData {
  fd_frame_number : nat;
  fd_timestamp : Q;
  fd_timestamp_formatted : string;
  fd_frame_base64 : string
}.

(** The dictionary [analyze_frame] returns when every provider failed. *)
Definition all_providers_failed_result : PyDict :=
  [("description", VStr "Analysis failed: All inference providers unavailable");
   ("confidence", VNum 0); ("provider", VStr "none"); ("model", VStr "none");
   ("processing_time", VNum 0); ("estimated_cost", VNum 0);
   ("error", VStr "All providers failed")].

Section FrameAnalysis.
(** [self.provider_configs] and [_analyze_frame_with_provider], which
    catches its own exceptions and returns [None] on any failure. *)
Variable provider_configs : list string.
Variable analyze_frame_with_provider : string -> string -> string -> option PyDict.
(** The prompt builder and the text extractors of the loop body. *)
Variable create_enhanced_bodycam_prompt : FrameData -> string.
Variable extract_enhanced_violations : string -> list string.
Variable extract_key_objects extract_officer_actions extract_civilian_actions
         extract_scene_description assess_professionalism : string -> PyVal.

Fixpoint try_providers (configs : list string) (frame_base64 prompt : string) : option PyDict :=
  match configs with
  | [] => None
  | provider_config :: rest =>
      match analyze_frame_with_provider frame_base64 prompt provider_config with
      | Some result => Some result
      | None => try_providers rest frame_base64 prompt
      end
  end.

Definition analyze_frame (frame_base64 prompt : string) : PyDict :=
  match try_providers provider_configs frame_base64 prompt with
  | Some result => result
  | None => all_providers_failed_result
  end.

(** The [analysis] dictionary built from [result] in the loop body. *)
Definition frame_analysis (frame_data : FrameData) (result : PyDict) : PyDict :=
  let description := py_get_str result "description" "" in
  [("frame_number", VNat (fd_frame_number frame_data));
   ("timestamp", VNum (fd_timestamp frame_data));
   ("timestamp_formatted", VStr (fd_timestamp_formatted frame_data));
   ("analysis_text", VStr description);
   ("confidence", py_get result "confidence" (VNum 0));
   ("concerns_detected", VBool (contains "concern" (lower description)
                                || contains "violation" (lower description)));
   ("potential_violations", VStrs (extract_enhanced_violations description));
   ("severity_level", VStr (assess_enhanced_severity description));
   ("key_objects", extract_key_objects description);
   ("officer_actions", extract_officer_actions description);
   ("civilian_actions", extract_civilian_actions description);
   ("scene_description", extract_scene_description description);
   ("professionalism_assessment", assess_professionalism description);
   ("processing_time", py_get result "processing_time" (VNum 0));
   ("api_cost_estimate", py_get result "estimated_cost" (VNum 0));
   ("provider", py_get result "provider" (VStr "unknown"));
   ("model", py_get result "model" (VStr "unknown"));
   ("cached", VBool false)].

(** Step 6: [frame_analyses], one entry per extracted frame. *)
Definition analyze_frames (frames_data : list FrameData) : list PyDict :=
  map (fun frame_data =>
         frame_analysis frame_data
           (analyze_frame (fd_frame_base64 frame_data) (create_enhanced_bodycam_prompt frame_data)))
      frames_data.
End FrameAnalysis.

(** A frame for the degraded-analysis example. *)
Definition frame_at_5 : FrameData := mkFrameData 150 5 "00:05" "aGVsbG8=".

(** ** violation_analysis_service.py: [_extract_violations_from_audio] *)

Record TriggerDetails := mkTriggerDetails {
  td_severity : string;
  td_confidence : Q;
  td_description : string
}.

(** [self.audio_event_triggers], in insertion order. *)
Definition audio_event_triggers : list (string * list (string * TriggerDetails)) :=
  [("Use of Force",
     [("\btaser\b|\btaze\b",
        mkTriggerDetails "high" (9 # 10) "Taser deployment threatened or initiated");
      ("\b(dog|k-9).*(bite|fight|rip)\b",
        mkTriggerDetails "high" (85 # 100) "K-9 unit deployment threatened or initiated");
      ("\bstop moving\b|\b(help me.?){2,}\b",
        mkTriggerDetails "high" (75 # 100) "Physical struggle and restraint of suspect")]);
   ("Escalation",
     [("\bget out right now\b|\bget your hands up\b",
        mkTriggerDetails "medium" (8 # 10) "Officers issuing direct commands to suspect");
      ("\blast warning\b|\blast chance\b",
        mkTriggerDetails "medium" (88 # 100) "Final warning issued before action")])].

(** A transcription segment as the loop sees it: an object with [text] and
    [start_time] attributes, a dict (both keys optional), or anything else. *)
Inductive SegmentValue :=
| SegObject (text : string) (start_time : Q)
| SegDict (text : option string) (start_time : option Q)
| SegOther.

(** The [text] (lowercased) and [segment_start_time] of a segment, or
    [None] for the [continue] branch. *)
Definition segment_fields (segment : SegmentValue) : option (string * Q) :=
  match segment with
  | SegObject text start_time => Some (lower text, start_time)
  | SegDict text start_time =>
      Some (lower (match text with Some t => t | None => "" end),
            match start_time with Some t => t | None => 0 end)
  | SegOther => None
  end.

(** [s.split(':')[0]] *)
Fixpoint before_colon (s : string) : string :=
  match s with
  | EmptyString => EmptyString
  | String c s' => if Ascii.eqb c ":" then EmptyString else String c (before_colon s')
  end.

Definition estimate_time_offset (word_count : nat) : Q := qnat word_count / 3.

Record AudioViolation := mkAudioViolation {
  av_timestamp : Q;
  av_timestamp_formatted : string;
  av_type : string;
  av_description : string;
  av_severity : string;
  av_confidence : Q;
  av_source : string;
  av_audio_context : PyDict
}.

Section AudioViolations.
(** [re.finditer(pattern, text)], as the [(match.span()[0], match.group(0))]
    of each match, and the formatting and context helpers. *)
Variable finditer : string -> string -> list (nat * string).
Variable format_timestamp : Q -> string.
Variable get_audio_context : string -> string -> PyDict.

Definition audio_violation (text : string) (segment_start_time : Q)
    (details : TriggerDetails) (m : nat * string) : AudioViolation :=
  let start_char := fst m in
  let words_before := List.length (py_split (substring 0 start_char text)) in
  let estimated_time := segment_start_time + estimate_time_offset words_before in
  {| av_timestamp := estimated_time;
     av_timestamp_formatted := format_timestamp estimated_time;
     av_type := before_colon (td_description details);
     av_description := td_description details;
     av_severity := td_severity details;
     av_confidence := td_confidence details;
     av_source := "audio";
     av_audio_context := get_audio_context text (snd m) |}.

Definition segment_violations (segment : SegmentValue) : list AudioViolation :=
  match segment_fields segment with
  | None => []
  | Some (text, segment_start_time) =>
      flat_map (fun category =>
        flat_map (fun trigger =>
          map (audio_violation text segment_start_time (snd trigger))
              (finditer (fst trigger) text))
          (snd category))
        audio_event_triggers
  end.

(** [None] is an [audio_analysis] that is falsy or has no
    ['transcription_segments'] key. *)
Definition extract_violations_from_audio (transcription_segments : option (list SegmentValue))
  : list AudioViolation :=
  match transcription_segments with
  | None => []
  | Some segments => flat_map segment_violations segments
  end.

Definition match_count (segment : SegmentValue) : nat :=
  match segment_fields segment with
  | None => 0
  | Some (text, _) =>
      list_sum (map (fun category =>
        list_sum (map (fun trigger => List.length (finditer (fst trigger) text)) (snd category)))
        audio_event_triggers)
  end.
End AudioViolations.

(** A [finditer] that finds the taser pattern at character 8 of any text. *)
Definition taser_finditer (pattern text : string) : list (nat * string) :=
  if String.eqb pattern "\btaser\b|\btaze\b" then [(8%nat, "taser")] else [].

(** ** enhanced_video_analysis.py: blackout detection and usable segments *)

(** A segment dict: ['start_time'], ['end_time'], ['duration'] (the
    formatted-time keys of blackout dicts are left out). *)
Record TimeSegment := mkTimeSegment {
  seg_start : Q;
  seg_end : Q;
  seg_duration : Q
}.

(** [sum(...)] over floats, from [0], left to right. *)
Definition py_sum (l : list Q) : Q := fold_left Qplus l 0.

(** The [for] loop of [_create_useful_segments] from [current_time], with
    the final segment after the last blackout. *)
Fixpoint useful_loop (current_time : Q) (blackout_segments : list TimeSegment) (duration : Q)
  : list TimeSegment :=
  match blackout_segments with
  | [] =>
      if Qltb current_time duration
      then [mkTimeSegment current_time duration (duration - current_time)] else []
  | blackout :: rest =>
      (if Qltb current_time (seg_start blackout)
       then [mkTimeSegment current_time (seg_start blackout) (seg_start blackout - current_time)]
       else []) ++ useful_loop (seg_end blackout) rest duration
  end.

Definition create_useful_segments (duration : Q) (blackout_segments : list TimeSegment)
  : list TimeSegment :=
  match blackout_segments with
  | [] => [mkTimeSegment 0 duration duration]
  | _ => useful_loop 0 (sort_by_key seg_start blackout_segments) duration
  end.

(** [int(x)] of a non-negative float, as a frame number. *)
Definition py_int (x : Q) : nat := Z.to_nat (Qfloor x).

Section Video.
(** The decoder: [cap.set(cv2.CAP_PROP_POS_FRAMES, n); cap.read()] gives
    [Some frame] or [None] ([ret] false); [_is_frame_blackout]. *)
Variable Frame : Type.
Variable read_frame : nat -> option Frame.
Variable is_frame_blackout : Frame -> bool.

(** The [while] loop of [_detect_blackout_segments]; the state is
    [(blackout_segments, in_blackout, blackout_start)].  [frame_count]
    grows by [sample_interval >= 1] per iteration, so [total_frames]
    iterations of fuel are enough. *)
Fixpoint detect_loop (fuel : nat) (video_fps : Q) (total_frames sample_interval frame_count : nat)
    (in_blackout : bool) (blackout_start : option Q) (blackout_segments : list TimeSegment)
  : list TimeSegment * bool * option Q :=
  match fuel with
  | O => (blackout_segments, in_blackout, blackout_start)
  | S fuel' =>
      if (frame_count <? total_frames)%nat then
        match read_frame frame_count with
        | None => (blackout_segments, in_blackout, blackout_start)
        | Some frame =>
            let is_blackout := is_frame_blackout frame in
            let timestamp := qnat frame_count / video_fps in
            if is_blackout && negb in_blackout then
              detect_loop fuel' video_fps total_frames sample_interval
                (frame_count + sample_interval) true (Some timestamp) blackout_segments
            else if negb is_blackout && in_blackout then
              detect_loop fuel' video_fps total_frames sample_interval
                (frame_count + sample_interval) false blackout_start
                (match blackout_start with
                 | Some start => blackout_segments ++ [mkTimeSegment start timestamp (timestamp - start)]
                 | None => blackout_segments
                 end)
            else
              detect_loop fuel' video_fps total_frames sample_interval
                (frame_count + sample_interval) in_blackout blackout_start blackout_segments
        end
      else (blackout_segments, in_blackout, blackout_start)
  end.

Definition detect_blackout_segments (video_fps : Q) (total_frames : nat) : list TimeSegment :=
  let sample_interval := Nat.max 1 (py_int (video_fps * 5)) in
  match detect_loop total_frames video_fps total_frames sample_interval 0 false None [] with
  | (blackout_segments, true, Some start) =>
      let end_time := qnat total_frames / video_fps in
      blackout_segments ++ [mkTimeSegment start end_time (end_time - start)]
  | (blackout_segments, _, _) => blackout_segments
  end.

(** The fields of [_analyze_video_structure]'s result that the samplers use. *)
Record VideoInfo := mkVideoInfo {
  vi_duration : Q;
  vi_fps : Q;
  vi_total_frames : nat;
  vi_blackout_segments : list TimeSegment
}.

Definition analyze_video_structure (video_fps : Q) (total_frames : nat) : VideoInfo :=
  {| vi_duration := qnat total_frames / video_fps; vi_fps := video_fps;
     vi_total_frames := total_frames;
     vi_blackout_segments := detect_blackout_segments video_fps total_frames |}.

End Video.

(** The 60 s example: 1 fps, 60 frames, frames 20 to 29 black. *)
Definition blackout_20_30_read (n : nat) : option nat := Some n.
Definition blackout_20_30_is_black (n : nat) : bool := (20 <=? n)%nat && (n <? 30)%nat.

(** Timestamp order on violations, as the sort compares them. *)
Definition ts_le (x y : Violation) : Prop := Qle_bool (v_timestamp x) (v_timestamp y) = true.

(** The count recorded for [w] in a word-count table. *)
Fixpoint get_count (w : string) (counts : list (string * nat)) : nat :=
  match counts with
  | [] => 0%nat
  | (k, n) :: rest => if String.eqb k w then n else get_count w rest
  end.

(** Blackouts laid out in time order from [lo]: each starts no earlier
    than the previous end, is non-empty, has [duration = end - start], and
    the last ends no later than [hi]. *)
Fixpoint blackout_chain (lo : Q) (bs : list TimeSegment) (hi : Q) : Prop :=
  match bs with
  | [] => lo <= hi
  | b :: rest =>
      lo <= seg_start b /\ seg_start b < seg_end b /\
      seg_duration b == seg_end b - seg_start b /\ blackout_chain (seg_end b) rest hi
  end.

(** Total duration of a list of segments. *)
Definition segment_sum (l : list TimeSegment) : Q := py_sum (map seg_duration l).

(** A blackout whose start is the timestamp of a sampled black frame and
    whose end is a frame timestamp. *)
Definition frame_aligned (video_fps x : Q) : Prop := exists k, x == qnat k / video_fps.

Definition blackout_ok {Frame} (read_frame : nat -> option Frame) (is_frame_blackout : Frame -> bool)
    (video_fps : Q) (b : TimeSegment) : Prop :=
  (exists k frame, seg_start b = qnat k / video_fps /\ read_frame k = Some frame /\
                   is_frame_blackout frame = true) /\
  frame_aligned video_fps (seg_end b).

(** The state of the blackout scan before the sample at [frame_count]. *)
Definition detect_inv {Frame} (read_frame : nat -> option Frame) (is_frame_blackout : Frame -> bool)
    (video_fps : Q) (total_frames frame_count : nat)
    (blackout_segments : list TimeSegment) (in_blackout : bool) (blackout_start : option Q) : Prop :=
  Forall (blackout_ok read_frame is_frame_blackout video_fps) blackout_segments /\
  if in_blackout then
    exists s k frame h, blackout_start = Some s /\ s = qnat k / video_fps /\
      read_frame k = Some frame /\ is_frame_blackout frame = true /\
      (k < frame_count)%nat /\ (k < total_frames)%nat /\
      blackout_chain 0 blackout_segments h /\ h <= s
  else
    exists h, blackout_chain 0 blackout_segments h /\ h <= qnat frame_count / video_fps /\
      h <= qnat total_frames / video_fps.

(** [str(n)] of a non-negative integer. *)
Definition str_N (n : N) : string := NilEmpty.string_of_uint (N.to_uint n).

(** [str(n)] of an integer. *)
Definition py_str_Z (n : Z) : string :=
  ((if (n <? 0)%Z then "-" else "") ++ str_N (Z.abs_N n))%string.

Fixpoint zeros (k : nat) : string :=
  match k with O => EmptyString | S k' => String "0" (zeros k') end.

(** [f"{n:02d}"]: the sign, zeros up to a width of 2, the digits. *)
Definition format_02d (n : Z) : string :=
  let sign := if (n <? 0)%Z then "-" else "" in
  let digits := str_N (Z.abs_N n) in
  (sign ++ zeros (2 - String.length sign - String.length digits) ++ digits)%string.

(** [int(x)]: truncation toward zero. *)
Definition py_trunc (x : Q) : Z := if Qle_bool 0 x then Qfloor x else (- Qfloor (- x))%Z.

(** [x // y] and [x % y] on floats with [y > 0]. *)
Definition py_floordiv (x y : Q) : Q := inject_Z (Qfloor (x / y)).
Definition py_mod (x y : Q) : Q := x - y * py_floordiv x y.

Module ViolationAnalysis.
(** [_format_timestamp]: [f"{int(seconds // 60):02d}:{int(seconds % 60):02d}"] *)
Definition format_timestamp (seconds : Q) : string :=
  (format_02d (py_trunc (py_floordiv seconds 60)) ++ ":" ++
   format_02d (py_trunc (py_mod seconds 60)))%string.
End ViolationAnalysis.

Module EnhancedVideo.
(** [_format_timestamp]: [H:MM:SS] from one hour on, [MM:SS] below. *)
Definition format_timestamp (seconds : Q) : string :=
  let hours := py_trunc (py_floordiv seconds 3600) in
  let minutes := py_trunc (py_floordiv (py_mod seconds 3600) 60) in
  let secs := py_trunc (py_mod seconds 60) in
  if (0 <? hours)%Z then (py_str_Z hours ++ ":" ++ format_02d minutes ++ ":" ++ format_02d secs)%string
  else (format_02d minutes ++ ":" ++ format_02d secs)%string.
End EnhancedVideo.

(** Reading back a zero-padded decimal. *)
Definition N_of_digits (s : string) : N :=
  match NilEmpty.uint_of_string s with Some d => N.of_uint d | None => 0%N end.

Definition decode_02d (s : string) : Z :=
  match s with
  | String c r => if Ascii.eqb c "-" then (- Z.of_N (N_of_digits r))%Z else Z.of_N (N_of_digits s)
  | EmptyString => 0%Z
  end.

Fixpoint count_colons (s : string) : nat :=
  match s with
  | EmptyString => O
  | String c s' => if Ascii.eqb c ":" then S (count_colons s') else count_colons s'
  end.

(** [_calculate_optimal_frame_count] on [video_info['useful_duration']].
    [int(base_frames * multiplier)] is exact here: [base_frames *
    multiplier] is a multiple of [0.1], so the float product has the floor
    of the exact one. *)
Definition calculate_optimal_frame_count (useful_duration : Q) (requested_frames : Z) : Z :=
  let base_frames := Z.max 10 (py_trunc (useful_duration / 30)) in
  let multiplier :=
    if Qltb 3600 useful_duration then 3 # 2
    else if Qltb 1800 useful_duration then 13 # 10
    else if Qltb 600 useful_duration then 11 # 10
    else 1 in
  let optimal_frames := py_trunc (inject_Z base_frames * multiplier) in
  Z.min optimal_frames requested_frames.

(** The dict returned by [_analyze_video_structure] (without
    ['resolution']). *)
Record VideoStructure := mkVideoStructure {
  vs_info : VideoInfo;
  vs_blackout_duration : Q;
  vs_useful_duration : Q;
  vs_useful_percentage : Q
}.

Definition analyze_video_structure_dict (Frame : Type) (read_frame : nat -> option Frame)
    (is_frame_blackout : Frame -> bool) (video_fps : Q) (total_frames : nat) : VideoStructure :=
  let video_info := analyze_video_structure Frame read_frame is_frame_blackout video_fps total_frames in
  let duration := vi_duration video_info in
  let blackout_duration := py_sum (map seg_duration (vi_blackout_segments video_info)) in
  let useful_duration := duration - blackout_duration in
  mkVideoStructure video_info blackout_duration useful_duration
    (if Qltb 0 duration then (useful_duration / duration) * 100 else 0).

Definition professional_indicators : list string :=
  ["professional"; "appropriate"; "proper procedure"; "calm"; "controlled"].
Definition unprofessional_indicators : list string :=
  ["unprofessional"; "inappropriate"; "aggressive"; "excessive"].

(** [_assess_professionalism] *)
Definition assess_professionalism (analysis_text : string) : string :=
  let text_lower := lower analysis_text in
  let professional_score :=
    List.length (filter (fun indicator => contains indicator text_lower) professional_indicators) in
  let unprofessional_score :=
    List.length (filter (fun indicator => contains indicator text_lower) unprofessional_indicators) in
  if (professional_score <? unprofessional_score)%nat then "concerning"
  else if (0 <? professional_score)%nat then "professional"
  else "neutral".

(** [str.replace('_', ' ')] *)
Fixpoint replace_underscore (s : string) : string :=
  match s with
  | EmptyString => EmptyString
  | String c r => String (if Ascii.eqb c "_" then " " else c) (replace_underscore r)
  end.

(** [violation_patterns], in the insertion order the dict iterates in. *)
Definition violation_patterns : list (string * list string) :=
  [("excessive_force", ["excessive force"; "unnecessary force"; "brutal"; "excessive"]);
   ("improper_procedure", ["improper procedure"; "protocol violation"; "incorrect"]);
   ("rights_violation", ["rights violation"; "constitutional"; "miranda"]);
   ("weapon_misuse", ["weapon misuse"; "improper weapon"; "unnecessary weapon"]);
   ("verbal_abuse", ["verbal abuse"; "inappropriate language"; "threatening"]);
   ("search_seizure", ["illegal search"; "improper search"; "seizure"]);
   ("discrimination", ["discrimination"; "bias"; "profiling"])].

(** [_extract_enhanced_violations] *)
Definition extract_enhanced_violations (analysis_text : string) : list string :=
  let text_lower := lower analysis_text in
  map (fun p => replace_underscore (fst p))
    (filter (fun p => existsb (fun keyword => contains keyword text_lower) (snd p))
       violation_patterns).

(** Python truthiness of a dict value. *)
Definition py_truthy (v : PyVal) : bool :=
  match v with
  | VStr s => negb (String.eqb s "")
  | VNum q => negb (Qeq_bool q 0)
  | VBool b => b
  | VNat n => negb (Nat.eqb n 0)
  | VStrs l => negb (match l with [] => true | _ => false end)
  end.

(** A value used in arithmetic: [bool] and [int] are numbers in Python,
    a [str] or a [list] raises [TypeError]. *)
Definition num_of (v : PyVal) : option Q :=
  match v with
  | VNum q => Some q
  | VNat n => Some (qnat n)
  | VBool b => Some (if b then 1 else 0)
  | VStr _ | VStrs _ => None
  end.

(** [list.extend(v)]: a list adds its items, a string its characters;
    numbers are not iterable and raise [TypeError]. *)
Fixpoint chars_of (s : string) : list string :=
  match s with
  | EmptyString => []
  | String c r => String c EmptyString :: chars_of r
  end.

Definition iter_of (v : PyVal) : option (list string) :=
  match v with
  | VStrs l => Some l
  | VStr s => Some (chars_of s)
  | VNum _ | VNat _ | VBool _ => None
  end.

Fixpoint map_option {A B} (f : A -> option B) (l : list A) : option (list B) :=
  match l with
  | [] => Some []
  | x :: xs =>
      match f x with
      | Some y => match map_option f xs with Some ys => Some (y :: ys) | None => None end
      | None => None
      end
  end.

Definition concat_option {A} (l : option (list (list A))) : option (list A) :=
  option_map (@List.concat A) l.

(** [frame.get('severity_level', 'low')] used as a key of
    [severity_counts]: a list is unhashable and raises [TypeError]. *)
Definition severity_key (frame : PyDict) : option PyVal :=
  match py_get frame "severity_level" (VStr "low") with
  | VStrs _ => None
  | v => Some v
  end.

Definition count_severity (level : string) (keys : list PyVal) : nat :=
  List.length (filter (fun v => match v with VStr s => String.eqb s level | _ => false end) keys).

Definition critical_violations : list string := ["excessive force"; "rights violation"; "verbal abuse"].

(** The summary dict.  The audio entries are those of [audio_result=None];
    [violations_detected] is [list(set(...))], whose order Python leaves
    to the hash of the strings: it is modelled as the distinct violations
    in order of first occurrence, and only its members are used below. *)
Record Summary := mkSummary {
  sm_total_frames_analyzed : nat;
  sm_total_concerning_frames : nat;
  sm_concerns_found : bool;
  sm_average_confidence : Q;
  sm_confidence_distribution : nat * nat * nat;
  sm_violations_detected : list string;
  sm_severity_assessment : string;
  sm_severity_distribution : nat * nat * nat * nat;
  sm_key_findings : list PyDict;
  sm_video_duration : Q;
  sm_useful_duration : Q;
  sm_blackout_duration : Q;
  sm_has_timestamps : bool;
  sm_analysis_coverage : string;
  sm_audio_enabled : bool
}.

(** The value returned: [{}] or the summary dict. *)
Inductive SummaryResult :=
| SummaryEmpty
| SummaryDict (s : Summary).

Section Summary.
(** [f"{x:.1f}"] *)
Variable format_1f : Q -> string.

(** [_generate_comprehensive_summary_with_audio] with [audio_result=None];
    [None] is a raised exception. *)
Definition generate_comprehensive_summary (frame_analyses : list PyDict)
    (video_info : VideoStructure) (has_timestamps : bool) : option SummaryResult :=
  match frame_analyses with
  | [] => Some SummaryEmpty
  | _ =>
  let total_frames := List.length frame_analyses in
  let concerning_frames :=
    filter (fun f => py_truthy (py_get f "concerns_detected" (VBool false))) frame_analyses in
  match map_option (fun f => num_of (py_get f "confidence" (VNum 0))) frame_analyses with
  | None => None
  | Some confidences =>
  let avg_confidence := py_sum confidences / qnat (List.length confidences) in
  let confidence_dist :=
    (List.length (filter (fun c => Qltb (7 # 10) c) confidences),
     List.length (filter (fun c => Qle_bool (4 # 10) c && Qle_bool c (7 # 10)) confidences),
     List.length (filter (fun c => Qltb c (4 # 10)) confidences)) in
  match concat_option (map_option (fun f => iter_of (py_get f "potential_violations" (VStrs [])))
                         frame_analyses) with
  | None => None
  | Some all_violations =>
  let unique_violations := nodup string_dec all_violations in
  match map_option severity_key frame_analyses with
  | None => None
  | Some severities =>
  let high := count_severity "high" severities in
  let medium := count_severity "medium" severities in
  let severity_counts := (high, medium, count_severity "low" severities,
                          count_severity "unknown" severities) in
  let high_percentage := if (0 <? total_frames)%nat then qnat high / qnat total_frames else 0 in
  let medium_percentage := if (0 <? total_frames)%nat then qnat medium / qnat total_frames else 0 in
  let overall_severity :=
    if Qltb (1 # 10) high_percentage then "high"
    else if Qltb 0 high_percentage || Qltb (3 # 10) medium_percentage then "medium"
    else if Qltb (1 # 10) medium_percentage then "medium"
    else "low" in
  let overall_severity :=
    if existsb (fun violation => existsb (String.eqb violation) unique_violations) critical_violations
    then (if String.eqb overall_severity "low" then "medium" else overall_severity)
    else overall_severity in
  (* [x.get('confidence', 0) * (2 if ... else 1)]: numeric here, since
     every confidence passed the sum above. *)
  let finding_key f :=
    match num_of (py_get f "confidence" (VNum 0)) with
    | Some c => c * (if match py_get f "severity_level" (VStr "") with
                        | VStr s => String.eqb s "high" | _ => false end then 2 else 1)
    | None => 0
    end in
  let key_findings := firstn 5 (sort_by_key_desc finding_key concerning_frames) in
  let duration := vi_duration (vs_info video_info) in
  if Qeq_bool duration 0 then None
  else Some (SummaryDict (mkSummary
    total_frames (List.length concerning_frames) (0 <? List.length concerning_frames)%nat
    avg_confidence confidence_dist unique_violations overall_severity severity_counts
    key_findings duration (vs_useful_duration video_info) (vs_blackout_duration video_info)
    has_timestamps (format_1f ((vs_useful_duration video_info / duration) * 100) ++ "%")
    false))
  end end end
  end.
End Summary.

(** An entry of [nearby_segments]. *)
Record NearbySegment := mkNearbySegment {
  ns_start_time : Q;
  ns_end_time : Q;
  ns_text : string;
  ns_confidence : Q;
  ns_time_offset : Q
}.

(** [audio_context]: [closest_segment] and [all_nearby_segments]. *)
Record AudioContext := mkAudioContext {
  ac_closest_segment : NearbySegment;
  ac_all_nearby_segments : list NearbySegment
}.

(** The [enhanced_violation] dict; the keys copied from the frame
    analysis keep their Python values. *)
Record EnhancedViolation := mkEnhancedViolation {
  ev_timestamp : PyVal;
  ev_timestamp_formatted : PyVal;
  ev_frame_number : PyVal;
  ev_type : string;
  ev_description : PyVal;
  ev_severity : PyVal;
  ev_confidence : PyVal;
  ev_visual_evidence : PyVal;
  ev_audio_context : option AudioContext;
  ev_officer_actions : PyVal;
  ev_civilian_actions : PyVal;
  ev_professionalism : PyVal;
  ev_priority_score : Q
}.

(** [d[key]]: [KeyError] when absent. *)
Definition py_index (d : PyDict) (key : string) : option PyVal :=
  if py_has_key d key then Some (py_get d key (VStr "")) else None.

(** [v[:200]] *)
Definition py_slice_200 (v : PyVal) : option PyVal :=
  match v with
  | VStr s => Some (VStr (substring 0 200 s))
  | VStrs l => Some (VStrs (firstn 200 l))
  | VNum _ | VNat _ | VBool _ => None
  end.

(** The [confidence] and [severity_level] arguments of
    [_calculate_violation_priority]: [None] inside is an absent key.  A
    non-numeric confidence raises in the multiplication; a list is an
    unhashable key of [severity_multipliers]; any other non-string key
    matches no entry, as the empty string does not. *)
Definition priority_confidence (frame_analysis : PyDict) : option (option Q) :=
  if py_has_key frame_analysis "confidence"
  then option_map Some (num_of (py_get frame_analysis "confidence" (VNum 0)))
  else Some None.

Definition priority_severity (frame_analysis : PyDict) : option (option string) :=
  if py_has_key frame_analysis "severity_level" then
    match py_get frame_analysis "severity_level" (VStr "") with
    | VStr s => Some (Some s)
    | VStrs _ => None
    | _ => Some (Some "")
    end
  else Some None.

(** The segments within 30 seconds of [timestamp], closest first. *)
Definition nearby_segments (segments : list TranscriptionSegment) (timestamp : Q) : list NearbySegment :=
  sort_by_key (fun x => Qabs (ns_time_offset x))
    (map (fun seg => mkNearbySegment (ts_start_time seg) (ts_end_time seg) (ts_text seg)
                       (ts_confidence seg) (ts_start_time seg - timestamp))
       (filter (fun seg => negb (ts_is_hallucination seg)
                           && Qle_bool (Qabs (ts_start_time seg - timestamp)) 30) segments)).

(** [abs(seg.start_time - timestamp)] is evaluated, and a non-numeric
    timestamp raises, only for a segment that is not a hallucination. *)
Definition audio_context_at (audio_result : option (list TranscriptionSegment)) (timestamp : PyVal)
    : option (option AudioContext) :=
  match audio_result with
  | Some ((_ :: _) as segments) =>
      if existsb (fun seg => negb (ts_is_hallucination seg)) segments then
        match num_of timestamp with
        | None => None
        | Some t =>
            match nearby_segments segments t with
            | [] => Some None
            | closest :: rest => Some (Some (mkAudioContext closest (firstn 3 (closest :: rest))))
            end
        end
      else Some None
  | _ => Some None
  end.

Definition closest_of (audio_context : option AudioContext) : option ClosestSegment :=
  option_map (fun ac => let c := ac_closest_segment ac in
                        mkClosestSegment (ns_confidence c) (ns_time_offset c) (ns_text c))
    audio_context.

Definition enhanced_violation (frame_analysis : PyDict) (timestamp : PyVal)
    (audio_result : option (list TranscriptionSegment)) (violation : string)
    : option EnhancedViolation :=
  match audio_context_at audio_result timestamp with
  | None => None
  | Some audio_context =>
  match py_index frame_analysis "timestamp_formatted", py_index frame_analysis "frame_number",
        py_slice_200 (py_get frame_analysis "analysis_text" (VStr "")) with
  | Some timestamp_formatted, Some frame_number, Some text_200 =>
  match priority_confidence frame_analysis, priority_severity frame_analysis with
  | Some confidence, Some severity_level =>
      Some (mkEnhancedViolation timestamp timestamp_formatted frame_number violation
              (py_get frame_analysis "scene_description" text_200)
              (py_get frame_analysis "severity_level" (VStr "medium"))
              (py_get frame_analysis "confidence" (VNum (1 # 2)))
              (py_get frame_analysis "analysis_text" (VStr ""))
              audio_context
              (py_get frame_analysis "officer_actions" (VStrs []))
              (py_get frame_analysis "civilian_actions" (VStrs []))
              (py_get frame_analysis "professionalism_assessment" (VStr "neutral"))
              (calculate_violation_priority confidence severity_level (closest_of audio_context)))
  | _, _ => None
  end
  | _, _, _ => None
  end
  end.

(** The violations of one frame analysis. *)
Definition frame_violations (audio_result : option (list TranscriptionSegment)) (frame_analysis : PyDict)
    : option (list EnhancedViolation) :=
  if negb (py_truthy (py_get frame_analysis "concerns_detected" (VBool false))) then Some []
  else
    match py_index frame_analysis "timestamp" with
    | None => None
    | Some timestamp =>
        match iter_of (py_get frame_analysis "potential_violations" (VStrs [])) with
        | None => None
        | Some violations =>
            map_option (enhanced_violation frame_analysis timestamp audio_result) violations
        end
    end.

(** [_detect_violations_with_audio_context]; [audio_result] is given by
    its [transcription_segments], [None] when [audio_result] is [None];
    the result is [None] when the code raises. *)
Definition detect_violations_with_audio_context (frame_analyses : list PyDict)
    (audio_result : option (list TranscriptionSegment)) : option (list EnhancedViolation) :=
  match concat_option (map_option (frame_violations audio_result) frame_analyses) with
  | None => None
  | Some violations => Some (sort_by_key_desc ev_priority_score violations)
  end.

(** [_create_enhanced_timeline_with_audio]: one entry per violation, with
    the keys the violation already has. *)
Definition create_enhanced_timeline_with_audio (violations : list EnhancedViolation) : list EnhancedViolation :=
  map (fun violation =>
         mkEnhancedViolation (ev_timestamp violation) (ev_timestamp_formatted violation)
           (ev_frame_number violation) (ev_type violation) (ev_description violation)
           (ev_severity violation) (ev_confidence violation) (ev_visual_evidence violation)
           (ev_audio_context violation) (ev_officer_actions violation)
           (ev_civilian_actions violation) (ev_professionalism violation)
           (ev_priority_score violation))
    violations.



(** The keys [_update_summary] writes; [ss_average_confidence] is [None]
    when the key keeps the value it had ([frame_analyses] empty). *)
Record ServiceSummary := mkServiceSummary {
  ss_severity_assessment : string;
  ss_violations_detected : list string;
  ss_concerns_found : bool;
  ss_average_confidence : option Q
}.

(** [_update_summary]: [old_average] is the summary's [average_confidence]
    before the call, [frame_confidences] the [f.get('confidence', 0)] of
    the frame analyses; [list(set(...))] is modelled as in the enhanced
    summary.  [None] is a raised exception. *)
Definition update_summary (old_average : option Q) (violations : list Violation)
    (frame_confidences : list PyVal) : option ServiceSummary :=
  let severity_assessment :=
    if existsb (fun v => String.eqb (v_severity v) "high") violations then "high"
    else if existsb (fun v => String.eqb (v_severity v) "medium") violations then "medium"
    else "low" in
  let violations_detected := nodup string_dec (map v_type violations) in
  let concerns_found := (0 <? List.length violations)%nat in
  match frame_confidences with
  | [] => Some (mkServiceSummary severity_assessment violations_detected concerns_found old_average)
  | _ =>
      match map_option num_of frame_confidences with
      | None => None
      | Some confidences =>
          Some (mkServiceSummary severity_assessment violations_detected concerns_found
                  (Some (py_sum confidences / qnat (List.length confidences))))
      end
  end.

(** [ViolationAnalysisService.analyze] from the two extracted violation
    lists: the new [violations] and [violation_timeline] (one list) and the
    summary. *)
Definition analyze_violations (frame_violations audio_violations : list Violation)
    (old_average : option Q) (frame_confidences : list PyVal)
    : option (list Violation * ServiceSummary) :=
  let all_violations := combine_and_deduplicate frame_violations audio_violations in
  let violation_timeline := sort_by_key v_timestamp all_violations in
  match update_summary old_average violation_timeline frame_confidences with
  | None => None
  | Some summary => Some (violation_timeline, summary)
  end.



(** The gap loop of [_identify_noise_segments] over consecutive pairs of
    the sorted speech segments. *)
Fixpoint noise_gaps (sorted : list AudioSegment) : list TimeSegment :=
  match sorted with
  | a :: ((b :: _) as rest) =>
      let gap_start := as_end_time a in
      let gap_end := as_start_time b in
      let gap_duration := gap_end - gap_start in
      (if Qltb (1 # 2) gap_duration then [mkTimeSegment gap_start gap_end gap_duration] else [])
      ++ noise_gaps rest
  | _ => []
  end.

(** [_identify_noise_segments]; [total_duration] is [len(y) / sr], [None]
    when loading the audio or the division raises (the [except] returns
    [[]]).  Every segment returned has type ['silence_or_noise']. *)
Definition identify_noise_segments (total_duration : option Q) (speech_segments : list AudioSegment)
    : list TimeSegment :=
  match total_duration with
  | None => []
  | Some total_duration =>
      match speech_segments with
      | [] => [mkTimeSegment 0 total_duration total_duration]
      | first_segment :: _ =>
          let speech_segments_sorted := sort_by_key as_start_time speech_segments in
          let first := hd first_segment speech_segments_sorted in
          let last_speech := last speech_segments_sorted first_segment in
          let last_speech_end := as_end_time last_speech in
          (if Qltb (1 # 2) (as_start_time first)
           then [mkTimeSegment 0 (as_start_time first) (as_start_time first)] else [])
          ++ noise_gaps speech_segments_sorted
          ++ (if Qltb (1 # 2) (total_duration - last_speech_end)
              then [mkTimeSegment last_speech_end total_duration (total_duration - last_speech_end)]
              else [])
      end
  end.

Definition speech_before (a b : AudioSegment) : Prop :=
  as_end_time a <= as_start_time b /\ as_start_time a < as_end_time a /\ as_start_time b < as_end_time b.

(** [max(a, b)] on floats: [a] unless [b > a]. *)
Definition py_max (a b : Q) : Q := if Qltb a b then b else a.

(** The [snr] argument: a finite float or [float('inf')]. *)
Inductive Snr := SnrFinite (snr : Q) | SnrInf.

Section QualityScore.
(** [np.std] *)
Variable np_std : list Q -> Q.

(** [np.mean] of a non-empty array. *)
Definition np_mean (l : list Q) : Q := py_sum l / qnat (List.length l).

(** [_calculate_quality_score] *)
Definition calculate_quality_score (rms_energy : Q) (snr : Snr) (spectral_centroids : list Q) : Q :=
  let energy_score := py_min (py_max (rms_energy / (2 # 10)) (1 # 10)) 1 in
  let snr_score :=
    match snr with
    | SnrInf => 1
    | SnrFinite snr =>
        if Qltb 30 snr then 1
        else if Qltb snr 0 then 1 # 10
        else py_min (py_max (snr / 25) (1 # 10)) 1
    end in
  let consistency_score :=
    if Nat.ltb 1 (List.length spectral_centroids) then
      let spectral_mean := np_mean spectral_centroids in
      let spectral_std := np_std spectral_centroids in
      if Qltb 0 spectral_mean then
        let cv := spectral_std / spectral_mean in
        if Qltb cv (1 # 10) then 6 # 10
        else if Qltb (5 # 10) cv then 4 # 10
        else 1 - Qabs (cv - (2 # 10)) * 2
      else 1 # 10
    else 5 # 10 in
  let freq_score :=
    if Nat.ltb 0 (List.length spectral_centroids) then
      let mean_centroid := np_mean spectral_centroids in
      if Qle_bool 500 mean_centroid && Qle_bool mean_centroid 3000 then 1
      else if Qle_bool 200 mean_centroid && Qle_bool mean_centroid 5000 then 7 # 10
      else 3 # 10
    else 1 # 10 in
  let final_score :=
    energy_score * (25 # 100) + snr_score * (35 # 100) +
    consistency_score * (20 # 100) + freq_score * (20 # 100) in
  py_max (5 # 100) (py_min 1 final_score).
End QualityScore.

(** The newline character. *)
Definition newline : string := String (ascii_of_nat 10) EmptyString.

(** [s.count(c)] for one character. *)
Fixpoint count_char (c : ascii) (s : string) : nat :=
  match s with
  | EmptyString => O
  | String d s' => (if Ascii.eqb c d then 1 else 0) + count_char c s'
  end.

(** One line of [format_transcript_for_report]: the parts joined by spaces;
    [format_2f] is [f"{x:.2f}"]. *)
Definition transcript_line (format_2f : Q -> string) (include_timestamps include_confidence : bool)
    (segment : TranscriptionSegment) : string :=
  let line_parts :=
    (if include_timestamps then
       let start_min := py_trunc (py_floordiv (ts_start_time segment) 60) in
       let start_sec := py_trunc (py_mod (ts_start_time segment) 60) in
       let end_min := py_trunc (py_floordiv (ts_end_time segment) 60) in
       let end_sec := py_trunc (py_mod (ts_end_time segment) 60) in
       [("[" ++ format_02d start_min ++ ":" ++ format_02d start_sec ++ "-" ++
         format_02d end_min ++ ":" ++ format_02d end_sec ++ "]")%string]
     else [])
    ++ [ts_text segment]
    ++ (if include_confidence then [("(confidence: " ++ format_2f (ts_confidence segment) ++ ")")%string] else []) in
  String.concat " " line_parts.

(** [format_transcript_for_report] *)
Definition format_transcript_for_report (format_2f : Q -> string)
    (transcription_segments : list TranscriptionSegment)
    (include_timestamps include_confidence : bool) : string :=
  match transcription_segments with
  | [] => "No speech detected in audio."
  | _ =>
      let valid_segments := filter (fun seg => negb (ts_is_hallucination seg)) transcription_segments in
      match valid_segments with
      | [] => "No reliable speech transcription available (potential hallucinations filtered out)."
      | _ => String.concat newline
               (map (transcript_line format_2f include_timestamps include_confidence) valid_segments)
      end
  end.

Definition sample_concerning_frame : PyDict :=
  [("frame_number", VNat 360); ("timestamp", VNum 12); ("timestamp_formatted", VStr "00:12");
   ("concerns_detected", VBool true); ("confidence", VNum (8 # 10));
   ("severity_level", VStr "high"); ("potential_violations", VStrs ["excessive force"])].

Definition sample_video_structure : VideoStructure :=
  mkVideoStructure (mkVideoInfo 60 30 1800 []) 0 60 100.

Definition sample_transcript : TranscriptionSegment :=
  mkTranscriptionSegment 10 14 "stop resisting" (9 # 10) "en" false [].

Definition sample_violation : Violation :=
  mkViolation 12 "Excessive Force" "Visually detected concern: excessive_force" "high" (8 # 10) "video" [].

Definition sample_speech : list AudioSegment :=
  [mkAudioSegment 1 3 2 [] 1; mkAudioSegment 5 6 1 [] 1].

(** ** enhanced_video_analysis.py on IEEE binary64 floats

    The frame samplers compute frame numbers and timestamps with Python
    floats: [int(segment['start_time'] * video_fps)] and
    [frame_num / video_fps] round, so they are modelled here on Rocq's
    primitive binary64 floats, which are Python's floats.  Python's
    exceptions ([ZeroDivisionError] of [/], the [ValueError] and
    [OverflowError] of [int()] on nan and inf) make a function return [None]. *)
Module Float64.
Import SpecFloat PrimFloat FloatOps.
Local Open Scope float_scope.

Notation "'let*' x ':=' c 'in' k" := (match c with Some x => k | None => None end)
  (at level 200, x pattern, c at level 100, k at level 200).

(** [float(n)] of a Python int: the nearest double, with ties to even;
    [OverflowError] when it rounds beyond the largest double. *)
Definition py_float (n : Z) : option float :=
  match SpecFloat.binary_normalize prec emax n 0 false with
  | S754_infinity _ => None
  | f => Some (SF2Prim f)
  end.

(** [int(x)]: truncation toward zero; it raises on nan and inf. *)
Definition py_int (x : float) : option Z :=
  match Prim2SF x with
  | S754_zero _ => Some 0%Z
  | S754_finite s m e =>
      let n := if (0 <=? e)%Z then Z.shiftl (Zpos m) e else Z.shiftr (Zpos m) (- e) in
      Some (if s then Z.opp n else n)
  | _ => None
  end.

(** [x / y]: [ZeroDivisionError] on [0.0] and [-0.0]. *)
Definition py_div (x y : float) : option float := if y =? 0 then None else Some (x / y).

(** [n / y] for an int [n]: [n] is converted first. *)
Definition py_div_int (n : Z) (y : float) : option float :=
  let* x := py_float n in py_div x y.

(** [sum(...)], from the int [0]. *)
Definition py_sum (l : list float) : float := List.fold_left PrimFloat.add l 0.

(** [list.sort(key=...)] and [list.sort(key=..., reverse=True)] with
    Python's [<] on the keys (never nan here). *)
Definition sort_by_key {A} (key : A -> float) : list A -> list A :=
  stable_sort (fun x y => negb (key y <? key x)).
Definition sort_by_key_desc {A} (key : A -> float) : list A -> list A :=
  stable_sort (fun x y => negb (key x <? key y)).

Record TimeSegment := mkTimeSegment {
  seg_start : float;
  seg_end : float;
  seg_duration : float
}.

Record SampledFrame := mkSampledFrame {
  sf_frame_number : Z;
  sf_timestamp : float;
  sf_timestamp_formatted : string;
  sf_frame_base64 : string;
  sf_size : nat * nat
}.

Record VideoInfo := mkVideoInfo {
  vi_duration : float;
  vi_fps : float;
  vi_total_frames : nat;
  vi_blackout_segments : list TimeSegment
}.

Record MotionCandidate {Frame : Type} := mkMotionCandidate {
  mc_frame_number : Z;
  mc_timestamp : float;
  mc_motion_score : float;
  mc_frame : Frame
}.
Arguments MotionCandidate : clear implicits.

(** [range(start, stop, step)] for [step >= 1]. *)
Fixpoint range_from (fuel : nat) (start stop step : Z) : list Z :=
  match fuel with
  | O => []
  | S fuel' => if (start <? stop)%Z then start :: range_from fuel' (start + step)%Z stop step else []
  end.

Definition py_range (start stop step : Z) : list Z := range_from (Z.to_nat (stop - start)) start stop step.

(** [_create_useful_segments]. *)
Fixpoint useful_loop (current_time : float) (blackout_segments : list TimeSegment) (duration : float)
  : list TimeSegment :=
  match blackout_segments with
  | [] =>
      if current_time <? duration
      then [mkTimeSegment current_time duration (duration - current_time)] else []
  | blackout :: rest =>
      (if current_time <? seg_start blackout
       then [mkTimeSegment current_time (seg_start blackout) (seg_start blackout - current_time)]
       else []) ++ useful_loop (seg_end blackout) rest duration
  end.

Definition create_useful_segments (duration : float) (blackout_segments : list TimeSegment)
  : list TimeSegment :=
  match blackout_segments with
  | [] => [mkTimeSegment 0 duration duration]
  | _ => useful_loop 0 (sort_by_key seg_start blackout_segments) duration
  end.

(** [_select_best_frames]: the score is [0] plus [0.1] (the double
    [0x1.999999999999ap-4]) for the first frame. *)
Definition select_best_frames (frames_data : list SampledFrame) (target_count : nat) : list SampledFrame :=
  if (List.length frames_data <=? target_count)%nat then frames_data else
  let frames_with_scores :=
    match frames_data with
    | [] => []
    | frame :: rest => (0 + 0x1.999999999999ap-4, frame) :: List.map (fun frame => (0, frame)) rest
    end in
  let sorted := sort_by_key_desc fst frames_with_scores in
  sort_by_key sf_timestamp (List.map snd (firstn target_count sorted)).

Section Video.
(** The decoder: [cap.set(cv2.CAP_PROP_POS_FRAMES, n); cap.read()] gives
    [Some frame] or [None]; the frame operations;
    [cv2.sumElems(cv2.absdiff(prev, gray))[0]] is [motion_diff prev gray]. *)
Variable Frame : Type.
Variable read_frame : Z -> option Frame.
Variable is_frame_blackout : Frame -> bool.
Variable resize_frame : Frame -> Frame.
Variable to_gray : Frame -> Frame.
Variable motion_diff : Frame -> Frame -> float.
Variable encode_frame : Frame -> option (string * (nat * nat)).
Variable format_timestamp : float -> string.

(** The [while] loop of [_detect_blackout_segments], on
    [(blackout_segments, in_blackout, blackout_start)]. *)
Fixpoint detect_loop (fuel : nat) (video_fps : float) (total_frames sample_interval frame_count : nat)
    (in_blackout : bool) (blackout_start : option float) (blackout_segments : list TimeSegment)
  : option (list TimeSegment * bool * option float) :=
  match fuel with
  | O => Some (blackout_segments, in_blackout, blackout_start)
  | S fuel' =>
      if (frame_count <? total_frames)%nat then
        match read_frame (Z.of_nat frame_count) with
        | None => Some (blackout_segments, in_blackout, blackout_start)
        | Some frame =>
            let is_blackout := is_frame_blackout frame in
            let* timestamp := py_div_int (Z.of_nat frame_count) video_fps in
            if is_blackout && negb in_blackout then
              detect_loop fuel' video_fps total_frames sample_interval
                (frame_count + sample_interval) true (Some timestamp) blackout_segments
            else if negb is_blackout && in_blackout then
              detect_loop fuel' video_fps total_frames sample_interval
                (frame_count + sample_interval) false blackout_start
                (match blackout_start with
                 | Some start => blackout_segments ++ [mkTimeSegment start timestamp (timestamp - start)]
                 | None => blackout_segments
                 end)
            else
              detect_loop fuel' video_fps total_frames sample_interval
                (frame_count + sample_interval) in_blackout blackout_start blackout_segments
        end
      else Some (blackout_segments, in_blackout, blackout_start)
  end.

Definition detect_blackout_segments (video_fps : float) (total_frames : nat) : option (list TimeSegment) :=
  let* interval := py_int (video_fps * 5) in
  let sample_interval := Z.to_nat (Z.max 1 interval) in
  let* state := detect_loop total_frames video_fps total_frames sample_interval 0 false None [] in
  match state with
  | (blackout_segments, true, Some start) =>
      let* end_time := py_div_int (Z.of_nat total_frames) video_fps in
      Some (blackout_segments ++ [mkTimeSegment start end_time (end_time - start)])
  | (blackout_segments, _, _) => Some blackout_segments
  end.

(** [_analyze_video_structure]: [duration = total_frames / video_fps]. *)
Definition analyze_video_structure (video_fps : float) (total_frames : nat) : option VideoInfo :=
  let* duration := py_div_int (Z.of_nat total_frames) video_fps in
  let* blackout_segments := detect_blackout_segments video_fps total_frames in
  Some (mkVideoInfo duration video_fps total_frames blackout_segments).

Definition process_frame (frame : Frame) (frame_number : Z) (timestamp : float) : option SampledFrame :=
  match encode_frame frame with
  | Some (frame_base64, size) =>
      Some (mkSampledFrame frame_number timestamp (format_timestamp timestamp) frame_base64 size)
  | None => None
  end.

(** The first pass of [_extract_frames_from_segment]. *)
Fixpoint candidates_loop (video_fps : float) (frame_nums : list Z) (prev_frame : option Frame)
  : option (list (MotionCandidate Frame)) :=
  match frame_nums with
  | [] => Some []
  | frame_num :: rest =>
      match read_frame frame_num with
      | None => candidates_loop video_fps rest prev_frame
      | Some frame0 =>
          let frame := resize_frame frame0 in
          let gray := to_gray frame in
          let motion_score := match prev_frame with Some prev => motion_diff prev gray | None => 0 end in
          let* timestamp := py_div_int frame_num video_fps in
          let* candidates := candidates_loop video_fps rest (Some gray) in
          Some (mkMotionCandidate Frame frame_num timestamp motion_score frame :: candidates)
      end
  end.

(** [num_frames >= 1] at every call site; [segment_frames // (num_frames * 3)]
    is Python's floor division. *)
Definition extract_frames_from_segment (segment : TimeSegment) (num_frames : nat) (video_fps : float)
  : option (list SampledFrame) :=
  let* start_frame := py_int (seg_start segment * video_fps) in
  let* end_frame := py_int (seg_end segment * video_fps) in
  let segment_frames := (end_frame - start_frame)%Z in
  let* frame_interval :=
    if (segment_frames <? Z.of_nat num_frames)%Z then Some 1%Z
    else if (Z.of_nat num_frames * 3 =? 0)%Z then None
    else Some (Z.max 1 (segment_frames / (Z.of_nat num_frames * 3))) in
  let* motion_candidates := candidates_loop video_fps (py_range start_frame end_frame frame_interval) None in
  let selected_candidates :=
    sort_by_key mc_timestamp (firstn num_frames (sort_by_key_desc mc_motion_score motion_candidates)) in
  Some (flat_map (fun candidate =>
              match process_frame (mc_frame candidate) (mc_frame_number candidate) (mc_timestamp candidate) with
              | Some frame_data => [frame_data]
              | None => []
              end) selected_candidates).

(** The per-segment quota of [_extract_intelligent_adaptive]. *)
Definition segment_quota (segment : TimeSegment) (total_useful_duration : float) (max_frames : nat)
  : option Z :=
  let* segment_proportion := py_div (seg_duration segment) total_useful_duration in
  let* max_frames_f := py_float (Z.of_nat max_frames) in
  let* proportional_frames := py_int (max_frames_f * segment_proportion) in
  Some (if 30 <? seg_duration segment then Z.max proportional_frames 3
        else if 10 <? seg_duration segment then Z.max proportional_frames 2
        else Z.max proportional_frames 1).

Definition extract_intelligent_adaptive (useful_segments : list TimeSegment) (max_frames : nat)
    (video_fps : float) : option (list SampledFrame) :=
  let total_useful_duration := py_sum (List.map seg_duration useful_segments) in
  let* frames_data :=
    concat_option (map_option (fun segment =>
      if seg_duration segment <? 3 then Some []
      else
        let* segment_frames := segment_quota segment total_useful_duration max_frames in
        extract_frames_from_segment segment (Z.to_nat segment_frames) video_fps)
      useful_segments) in
  let frames_data := sort_by_key sf_timestamp frames_data in
  if (max_frames <? List.length frames_data)%nat then Some (select_best_frames frames_data max_frames)
  else Some frames_data.

Definition extract_motion_from_segments (useful_segments : list TimeSegment) (max_frames : nat)
    (video_fps : float) : option (list SampledFrame) :=
  let* frames_data :=
    concat_option (map_option (fun segment =>
      if seg_duration segment <? 2 then Some []
      else
        let total_useful_duration := py_sum (List.map seg_duration useful_segments) in
        let* segment_proportion := py_div (seg_duration segment) total_useful_duration in
        let* max_frames_f := py_float (Z.of_nat max_frames) in
        let* proportional_frames := py_int (max_frames_f * segment_proportion) in
        extract_frames_from_segment segment (Z.to_nat (Z.max 1 proportional_frames)) video_fps)
      useful_segments) in
  Some (firstn max_frames (sort_by_key sf_timestamp frames_data)).
End Video.

Arguments mc_frame_number {Frame} _.
Arguments mc_timestamp {Frame} _.
Arguments mc_motion_score {Frame} _.
Arguments mc_frame {Frame} _.

(** The counterexample video: 16000 frames at the NTSC rate 30000/1001
    (the double [29.97002997002997] that OpenCV reports), frames 0 to
    15346 black, then static content. *)
Definition ntsc_fps : float := 30000 / 1001.
Definition fade_in_read (n : Z) : option Z := if (0 <=? n)%Z && (n <? 16000)%Z then Some n else None.
Definition fade_in_is_black (n : Z) : bool := (n <? 15347)%Z.
End Float64.

(** * Proofs *)

Section StableSortFacts.
Context {A : Type} (before : A -> A -> bool).
Hypothesis before_total : forall x y, before x y = false -> before y x = true.
Let R x y := before x y = true.

Lemma insert_sorted_perm x l : Permutation (insert_sorted before x l) (x :: l).
Proof.
  induction l as [|y ys IH]; simpl; [constructor; constructor|].
  destruct (before x y); [apply Permutation_refl|].
  eapply perm_trans; [apply perm_skip, IH|apply perm_swap].
Qed.

Lemma stable_sort_perm l : Permutation (stable_sort before l) l.
Proof.
  induction l as [|x xs IH]; simpl; [constructor|].
  eapply perm_trans; [apply insert_sorted_perm|]. now apply perm_skip.
Qed.

Lemma insert_sorted_HdRel a x l :
  R a x -> HdRel R a l -> HdRel R a (insert_sorted before x l).
Proof.
  intros Hax Hl. destruct l as [|y ys]; simpl.
  - now constructor.
  - destruct (before x y); constructor; [exact Hax|]. now inversion Hl.
Qed.

Lemma insert_sorted_Sorted x l : Sorted R l -> Sorted R (insert_sorted before x l).
Proof.
  induction l as [|y ys IH]; intros Hs; simpl; [now repeat constructor|].
  destruct (before x y) eqn:Hxy.
  - constructor; [exact Hs|now constructor].
  - inversion Hs as [|? ? Hys Hhd]; subst. constructor; [now apply IH|].
    apply insert_sorted_HdRel; [now apply before_total|exact Hhd].
Qed.

Lemma stable_sort_Sorted l : Sorted R (stable_sort before l).
Proof.
  induction l as [|x xs IH]; simpl; [constructor|]. now apply insert_sorted_Sorted.
Qed.

Lemma stable_sort_id l : Sorted R l -> stable_sort before l = l.
Proof.
  induction l as [|x xs IH]; intros Hs; simpl; [reflexivity|].
  inversion Hs as [|? ? Hxs Hhd]; subst. rewrite (IH Hxs).
  destruct xs as [|y ys]; simpl; [reflexivity|].
  inversion Hhd as [|? ? Hxy]; subst. unfold R in Hxy. now rewrite Hxy.
Qed.

Lemma stable_sort_nil l : stable_sort before l = [] -> l = [].
Proof.
  intros H. apply Permutation_nil. rewrite <- H. apply stable_sort_perm.
Qed.
End StableSortFacts.

Lemma Qle_bool_total x y : Qle_bool x y = false -> Qle_bool y x = true.
Proof.
  intros H. apply Qle_bool_iff. destruct (Qlt_le_dec x y) as [Hlt|Hle]; [|exact Hle].
  apply Qlt_le_weak in Hlt. apply Qle_bool_iff in Hlt. congruence.
Qed.

Lemma sort_by_key_perm {A} (key : A -> Q) l : Permutation (sort_by_key key l) l.
Proof. apply stable_sort_perm. Qed.

Lemma sort_by_key_Sorted {A} (key : A -> Q) l :
  Sorted (fun x y => Qle_bool (key x) (key y) = true) (sort_by_key key l).
Proof. apply stable_sort_Sorted. intros x y. apply Qle_bool_total. Qed.

Lemma sort_by_key_desc_perm {A} (key : A -> Q) l : Permutation (sort_by_key_desc key l) l.
Proof. apply stable_sort_perm. Qed.

Lemma sort_by_key_id {A} (key : A -> Q) l :
  Sorted (fun x y => Qle_bool (key x) (key y) = true) l -> sort_by_key key l = l.
Proof. apply stable_sort_id. Qed.

(** ** Deduplication *)

Lemma Qltb_iff x y : Qltb x y = true <-> x < y.
Proof.
  unfold Qltb. rewrite negb_true_iff. split; intros H.
  - apply Qnot_le_lt. intros Hle. apply Qle_bool_iff in Hle. congruence.
  - destruct (Qle_bool y x) eqn:E; [|reflexivity].
    apply Qle_bool_iff in E. exfalso. now apply (Qlt_not_le x y).
Qed.

Lemma is_duplicate_iff c l :
  is_duplicate c l = true <->
  v_type c = v_type l /\ Qabs (v_timestamp c - v_timestamp l) < 5.
Proof.
  unfold is_duplicate. rewrite andb_true_iff, String.eqb_eq, Qltb_iff. tauto.
Qed.

Lemma is_duplicate_false_iff c l : is_duplicate c l = false <-> not_mergeable l c.
Proof.
  unfold not_mergeable. rewrite <- is_duplicate_iff.
  destruct (is_duplicate c l); split; congruence.
Qed.

Lemma merge_into_fields l c : merge_into l c = set_confidence l (v_confidence (merge_into l c)).
Proof. unfold merge_into. destruct (Qltb _ _); destruct l; reflexivity. Qed.

Lemma fold_merge_fields ms h :
  fold_left merge_into ms h = set_confidence h (v_confidence (fold_left merge_into ms h)).
Proof.
  revert h. induction ms as [|m ms IH]; intros h; simpl.
  - destruct h; reflexivity.
  - rewrite IH. rewrite (merge_into_fields h m) at 1. destruct h; reflexivity.
Qed.

Lemma summarize_fields g : summarize g = set_confidence (fst g) (v_confidence (summarize g)).
Proof. apply fold_merge_fields. Qed.

Lemma summarize_timestamp g : v_timestamp (summarize g) = v_timestamp (fst g).
Proof. now rewrite summarize_fields. Qed.

Lemma summarize_type g : v_type (summarize g) = v_type (fst g).
Proof. now rewrite summarize_fields. Qed.

Lemma is_duplicate_summarize_r x g : is_duplicate x (summarize g) = is_duplicate x (fst g).
Proof. unfold is_duplicate. now rewrite summarize_timestamp, summarize_type. Qed.

Lemma is_duplicate_summarize_l g x : is_duplicate (summarize g) x = is_duplicate (fst g) x.
Proof. unfold is_duplicate. now rewrite summarize_timestamp, summarize_type. Qed.

Lemma fold_merge_confidence ms h :
  Forall (fun x => v_confidence x <= v_confidence (fold_left merge_into ms h)) (h :: ms) /\
  exists x, In x (h :: ms) /\ v_confidence (fold_left merge_into ms h) = v_confidence x.
Proof.
  revert h. induction ms as [|m ms IH]; intros h; simpl.
  - split; [constructor; [apply Qle_refl|constructor]|]. exists h; auto.
  - destruct (IH (merge_into h m)) as [Hle [x [Hin Hx]]].
    inversion Hle as [|? ? Hhm Hms]; subst.
    assert (Hh : v_confidence h <= v_confidence (merge_into h m) /\
                 v_confidence m <= v_confidence (merge_into h m)).
    { unfold merge_into. destruct (Qltb _ _) eqn:E; simpl.
      - apply Qltb_iff in E. split; [now apply Qlt_le_weak|apply Qle_refl].
      - split; [apply Qle_refl|]. apply Qnot_lt_le. intros Hlt.
        apply Qltb_iff in Hlt. congruence. }
    split.
    + constructor; [eapply Qle_trans; [apply Hh|exact Hhm]|].
      constructor; [eapply Qle_trans; [apply Hh|exact Hhm]|exact Hms].
    + destruct Hin as [<-|Hin].
      * destruct (Qltb (v_confidence h) (v_confidence m)) eqn:E.
        -- exists m. split; [right; left; reflexivity|].
           rewrite Hx. unfold merge_into. now rewrite E.
        -- exists h. split; [left; reflexivity|].
           rewrite Hx. unfold merge_into. now rewrite E.
      * exists x. split; [right; right; exact Hin|exact Hx].
Qed.

Lemma dedup_scan_group_scan l h ms kept :
  dedup_scan (summarize (h, rev ms) :: kept) l = rev kept ++ map summarize (group_scan h ms l).
Proof.
  revert h ms kept. induction l as [|x rest IH]; intros h ms kept; simpl.
  - reflexivity.
  - rewrite is_duplicate_summarize_r. simpl fst. destruct (is_duplicate x h).
    + assert (E : merge_into (summarize (h, rev ms)) x = summarize (h, rev (x :: ms))).
      { unfold summarize. simpl. now rewrite fold_left_app. }
      rewrite E. apply IH.
    + change (x :: summarize (h, rev ms) :: kept)
        with (summarize (x, rev []) :: (summarize (h, rev ms) :: kept)).
      rewrite IH. simpl. now rewrite <- app_assoc.
Qed.

Lemma dedup_scan_groups_of l : dedup_scan [] l = map summarize (groups_of l).
Proof.
  destruct l as [|x rest]; [reflexivity|]. simpl.
  change [x] with (summarize (x, rev []) :: []). now rewrite dedup_scan_group_scan.
Qed.

Lemma flatten_group_scan h ms l : flatten_groups (group_scan h ms l) = h :: rev ms ++ l.
Proof.
  revert h ms. induction l as [|x rest IH]; intros h ms; simpl.
  - unfold flatten_groups. simpl. now rewrite !app_nil_r.
  - destruct (is_duplicate x h).
    + rewrite IH. simpl. now rewrite <- app_assoc.
    + unfold flatten_groups in *. simpl. rewrite IH. reflexivity.
Qed.

Lemma flatten_groups_of l : flatten_groups (groups_of l) = l.
Proof. destruct l; [reflexivity|]. apply flatten_group_scan. Qed.

Lemma group_scan_members h ms l :
  Forall (fun m => is_duplicate m h = true) ms ->
  Forall (fun g => Forall (fun m => is_duplicate m (fst g) = true) (snd g)) (group_scan h ms l).
Proof.
  revert h ms. induction l as [|x rest IH]; intros h ms Hms; simpl.
  - constructor; [now apply Forall_rev|constructor].
  - destruct (is_duplicate x h) eqn:E.
    + apply IH. now constructor.
    + constructor; [now apply Forall_rev|]. apply IH. constructor.
Qed.

Lemma group_scan_head h ms l : exists ms' gs, group_scan h ms l = (h, ms') :: gs.
Proof.
  revert h ms. induction l as [|x rest IH]; intros h ms; simpl; [eauto|].
  destruct (is_duplicate x h); eauto.
Qed.

Lemma group_scan_separated h ms l : adjacent not_mergeable (map fst (group_scan h ms l)).
Proof.
  revert h ms. induction l as [|x rest IH]; intros h ms; simpl; [exact I|].
  destruct (is_duplicate x h) eqn:E; [apply IH|].
  destruct (group_scan_head x [] rest) as (ms' & gs & Eg).
  pose proof (IH x []) as IHx. rewrite Eg in *. simpl in *.
  split; [now apply is_duplicate_false_iff|exact IHx].
Qed.

Lemma groups_of_members l :
  Forall (fun g => Forall (fun m => is_duplicate m (fst g) = true) (snd g)) (groups_of l).
Proof. destruct l; [constructor|]. apply group_scan_members. constructor. Qed.

Lemma groups_of_separated l : adjacent not_mergeable (map fst (groups_of l)).
Proof. destruct l; [exact I|]. apply group_scan_separated. Qed.

Lemma ts_le_trans x y z : ts_le x y -> ts_le y z -> ts_le x z.
Proof.
  unfold ts_le. rewrite !Qle_bool_iff. apply Qle_trans.
Qed.

Lemma StronglySorted_app_r {A} (R : A -> A -> Prop) l1 l2 :
  StronglySorted R (l1 ++ l2) -> StronglySorted R l2.
Proof.
  induction l1 as [|x l1 IH]; simpl; intros H; [exact H|].
  apply IH. now inversion H.
Qed.

Lemma groups_members_after gs :
  StronglySorted ts_le (flatten_groups gs) ->
  Forall (fun g => Forall (ts_le (fst g)) (snd g)) gs.
Proof.
  induction gs as [|[h ms] gs IH]; intros H; constructor.
  - unfold flatten_groups in H. simpl in H. inversion H as [|? ? _ Hall]; subst.
    apply Forall_app in Hall. tauto.
  - apply IH. unfold flatten_groups in H. simpl in H.
    apply (StronglySorted_app_r _ (h :: ms)). exact H.
Qed.

Lemma groups_heads_sorted gs :
  StronglySorted ts_le (flatten_groups gs) -> Sorted ts_le (map fst gs).
Proof.
  induction gs as [|[h ms] gs IH]; intros H; simpl; constructor.
  - apply IH. unfold flatten_groups in H. simpl in H.
    apply (StronglySorted_app_r _ (h :: ms)). exact H.
  - destruct gs as [|[h2 ms2] gs]; constructor.
    unfold flatten_groups in H. simpl in H. inversion H as [|? ? _ Hall]; subst.
    apply Forall_app in Hall. destruct Hall as [_ Hall]. now inversion Hall.
Qed.

Lemma Qabs_le_sub x y : x <= y -> Qabs (y - x) == y - x.
Proof.
  intros H. apply Qabs_pos. apply (Qplus_le_l _ _ x).
  setoid_replace (y - x + x) with y by ring. now setoid_replace (0 + x) with x by ring.
Qed.

(** The shape of the pass: the timestamp-sorted input splits into groups,
    each a kept violation followed by the violations merged into it, and the
    output has one violation per group. *)
Lemma combine_and_deduplicate_groups fv av :
  let gs := groups_of (sort_by_key v_timestamp (fv ++ av)) in
  flatten_groups gs = sort_by_key v_timestamp (fv ++ av) /\
  combine_and_deduplicate fv av = map summarize gs /\
  Forall (fun g => Forall (fun m =>
      v_type m = v_type (fst g) /\
      v_timestamp (fst g) <= v_timestamp m /\
      v_timestamp m - v_timestamp (fst g) < 5) (snd g)) gs /\
  Sorted ts_le (map fst gs) /\
  adjacent not_mergeable (map fst gs).
Proof.
  intros gs.
  assert (Hss : StronglySorted ts_le (sort_by_key v_timestamp (fv ++ av))).
  { apply Sorted_StronglySorted; [intros x y z; apply ts_le_trans|].
    apply sort_by_key_Sorted. }
  assert (Hflat : flatten_groups gs = sort_by_key v_timestamp (fv ++ av))
    by apply flatten_groups_of.
  rewrite <- Hflat in Hss.
  split; [exact Hflat|]. split.
  - unfold combine_and_deduplicate, gs. destruct (fv ++ av) eqn:E; [reflexivity|].
    apply dedup_scan_groups_of.
  - split; [|split; [now apply groups_heads_sorted|apply groups_of_separated]].
    pose proof (groups_of_members (sort_by_key v_timestamp (fv ++ av))) as Hm.
    pose proof (groups_members_after gs Hss) as Ha. fold gs in Hm.
    clear - Hm Ha. induction gs as [|g gs IH]; constructor.
    + inversion Hm as [|? ? Hm1 _]; inversion Ha as [|? ? Ha1 _]; subst.
      clear - Hm1 Ha1. induction (snd g) as [|m ms IHm]; constructor.
      * inversion Hm1 as [|? ? Hd _]; inversion Ha1 as [|? ? Hle _]; subst.
        apply is_duplicate_iff in Hd. destruct Hd as [Ht Habs].
        unfold ts_le in Hle. apply Qle_bool_iff in Hle.
        rewrite Qabs_le_sub in Habs by exact Hle. tauto.
      * apply IHm; [now inversion Hm1|now inversion Ha1].
    + apply IH; [now inversion Hm|now inversion Ha].
Qed.

Lemma dedup_scan_separated l x kept :
  adjacent not_mergeable (x :: l) -> dedup_scan (x :: kept) l = rev kept ++ x :: l.
Proof.
  revert x kept. induction l as [|y l IH]; intros x kept H; simpl; [reflexivity|].
  destruct H as [Hxy H]. apply is_duplicate_false_iff in Hxy. rewrite Hxy.
  rewrite IH by exact H. simpl. now rewrite <- app_assoc.
Qed.

Lemma sorted_map_summarize gs : Sorted ts_le (map fst gs) -> Sorted ts_le (map summarize gs).
Proof.
  induction gs as [|g gs IH]; intros H; simpl in *; constructor.
  - apply IH. now inversion H.
  - inversion H as [|? ? _ Hd]; subst. destruct gs as [|g2 gs]; constructor.
    inversion Hd as [|? ? Hle]; subst. unfold ts_le in *.
    now rewrite !summarize_timestamp.
Qed.

Lemma adjacent_map_summarize gs :
  adjacent not_mergeable (map fst gs) -> adjacent not_mergeable (map summarize gs).
Proof.
  induction gs as [|g gs IH]; intros H; simpl in *; [exact I|].
  destruct gs as [|g2 gs]; [exact I|]. simpl in *. destruct H as [H1 H2].
  split; [|now apply IH].
  unfold not_mergeable in *. now rewrite !summarize_timestamp, !summarize_type.
Qed.

(** C2. The deduplication pass sorts all violations by timestamp and scans
    them left to right; a violation is merged into the immediately preceding
    kept violation exactly when both have the same type and their timestamps
    differ by less than 5 seconds.  Formally: the sorted input splits into
    groups, each a kept violation followed by the violations merged into it;
    every merged violation has the type of its kept violation and lies less
    than 5 s after it (so two same-type violations 5 s or more apart are
    never in one group); each kept violation is not mergeable with the kept
    violation before it; the output has one violation per group, whose
    confidence is the highest confidence of the group.  The scenario of the
    spec (0.6 at 10 s and 0.8 at 12 s) gives one violation with
    confidence 0.8. *)
Theorem combine_and_deduplicate_merge_rule :
  (forall fv av, exists gs : list group,
     flatten_groups gs = sort_by_key v_timestamp (fv ++ av) /\
     combine_and_deduplicate fv av = map summarize gs /\
     Forall (fun g =>
        Forall (fun m =>
          v_type m = v_type (fst g) /\
          v_timestamp (fst g) <= v_timestamp m /\
          v_timestamp m - v_timestamp (fst g) < 5) (snd g) /\
        Forall (fun x => v_confidence x <= v_confidence (summarize g)) (fst g :: snd g) /\
        (exists x, In x (fst g :: snd g) /\ v_confidence (summarize g) = v_confidence x)) gs /\
     adjacent not_mergeable (map fst gs)) /\
  combine_and_deduplicate [force_at_10; force_at_12] [] = [set_confidence force_at_10 (8 # 10)].
Proof.
  split; [|reflexivity].
  intros fv av. destruct (combine_and_deduplicate_groups fv av) as (Hf & Hout & Hm & _ & Hsep).
  eexists. split; [exact Hf|]. split; [exact Hout|]. split; [|exact Hsep].
  clear - Hm. induction Hm as [|g gs Hg _ IH]; constructor; [|exact IH].
  split; [exact Hg|]. apply fold_merge_confidence.
Qed.

(** C7. Deduplication is idempotent: running the pass on its own output
    returns that output unchanged. *)
Theorem combine_and_deduplicate_idempotent fv av :
  combine_and_deduplicate (combine_and_deduplicate fv av) [] = combine_and_deduplicate fv av.
Proof.
  destruct (combine_and_deduplicate_groups fv av) as (_ & Hout & _ & Hsort & Hsep).
  rewrite Hout. apply sorted_map_summarize in Hsort. apply adjacent_map_summarize in Hsep.
  remember (map summarize _) as out eqn:Eout. clear Eout Hout.
  unfold combine_and_deduplicate. rewrite app_nil_r.
  destruct out as [|x l]; [reflexivity|].
  rewrite sort_by_key_id by exact Hsort. simpl.
  now apply (dedup_scan_separated l x []).
Qed.

(** C10. A merge keeps the earlier violation of the pair (the kept one,
    whose timestamp is not later) and changes none of its fields except the
    confidence, which becomes the highest confidence merged into it; a kept
    violation into which nothing was merged is returned as it was. *)
Theorem combine_and_deduplicate_only_confidence_changes :
  forall fv av, exists gs : list group,
    flatten_groups gs = sort_by_key v_timestamp (fv ++ av) /\
    combine_and_deduplicate fv av = map summarize gs /\
    Forall (fun g =>
       Forall (fun m =>
         v_type m = v_type (fst g) /\
         v_timestamp (fst g) <= v_timestamp m /\
         v_timestamp m - v_timestamp (fst g) < 5) (snd g) /\
       summarize g = set_confidence (fst g) (v_confidence (summarize g)) /\
       Forall (fun x => v_confidence x <= v_confidence (summarize g)) (fst g :: snd g) /\
       (exists x, In x (fst g :: snd g) /\ v_confidence (summarize g) = v_confidence x) /\
       (snd g = [] -> summarize g = fst g)) gs.
Proof.
  intros fv av. destruct (combine_and_deduplicate_groups fv av) as (Hf & Hout & Hm & _ & _).
  eexists. split; [exact Hf|]. split; [exact Hout|].
  clear - Hm. induction Hm as [|g gs Hg _ IH]; constructor; [|exact IH].
  destruct (fold_merge_confidence (snd g) (fst g)) as [Hle Hex].
  split; [exact Hg|]. split; [apply summarize_fields|]. split; [exact Hle|].
  split; [exact Hex|]. intros E. destruct g as [h ms]. simpl in E. subst ms.
  reflexivity.
Qed.

(** ** Violation priority *)

Lemma audio_context_bonus_mono ctx x y : x <= y -> audio_context_bonus ctx x <= audio_context_bonus ctx y.
Proof.
  intros H. destruct ctx as [cl|]; [|exact H]. unfold audio_context_bonus.
  destruct (Qltb (7 # 10) (cs_confidence cl) && Qltb (Qabs (cs_time_offset cl)) 10);
    destruct (@existsb string _ priority_keywords).
  - apply Qmult_le_compat_r; [apply Qmult_le_compat_r; [exact H|]|]; unfold Qle; simpl; lia.
  - apply Qmult_le_compat_r; [exact H|unfold Qle; simpl; lia].
  - apply Qmult_le_compat_r; [exact H|unfold Qle; simpl; lia].
  - exact H.
Qed.

Lemma py_min_1_mono x y : x <= y -> py_min x 1 <= py_min y 1.
Proof.
  intros H. unfold py_min.
  destruct (Qltb 1 x) eqn:Ex, (Qltb 1 y) eqn:Ey; try apply Qle_refl.
  - apply Qltb_iff in Ex. apply Qlt_le_weak. eapply Qlt_le_trans; [exact Ex|exact H].
  - apply Qnot_lt_le. intros Hx. apply Qltb_iff in Hx. congruence.
  - exact H.
Qed.

Lemma py_min_1_le x : py_min x 1 <= 1.
Proof.
  unfold py_min. destruct (Qltb 1 x) eqn:E; [apply Qle_refl|].
  apply Qnot_lt_le. intros H. apply Qltb_iff in H. congruence.
Qed.

Lemma severity_multiplier_nonneg s : 0 <= severity_multiplier s.
Proof.
  unfold severity_multiplier.
  repeat match goal with |- context [if ?b then _ else _] => destruct b end; discriminate.
Qed.

Lemma severity_multiplier_rank i j :
  (i <= j < 4)%nat ->
  severity_multiplier (nth i severity_levels "") <= severity_multiplier (nth j severity_levels "").
Proof.
  intros H. destruct i as [|[|[|[|i]]]]; destruct j as [|[|[|[|j]]]];
    try lia; vm_compute; discriminate.
Qed.

(** C8. The priority score is non-decreasing in the confidence and, for a
    non-negative confidence, in the severity rank
    (low < medium < high < critical), every other input fixed, and it never
    exceeds 1. *)
Theorem calculate_violation_priority_monotone :
  (forall c1 c2 severity ctx, c1 <= c2 ->
     calculate_violation_priority (Some c1) severity ctx
     <= calculate_violation_priority (Some c2) severity ctx) /\
  (forall c i j ctx, 0 <= c -> (i <= j < 4)%nat ->
     calculate_violation_priority (Some c) (Some (nth i severity_levels "")) ctx
     <= calculate_violation_priority (Some c) (Some (nth j severity_levels "")) ctx) /\
  (forall confidence severity ctx,
     calculate_violation_priority confidence severity ctx <= 1).
Proof.
  split; [|split].
  - intros c1 c2 sev ctx H. unfold calculate_violation_priority.
    apply py_min_1_mono, audio_context_bonus_mono.
    apply Qmult_le_compat_r; [exact H|apply severity_multiplier_nonneg].
  - intros c i j ctx Hc Hij. unfold calculate_violation_priority.
    apply py_min_1_mono, audio_context_bonus_mono.
    rewrite (Qmult_comm c), (Qmult_comm c).
    apply Qmult_le_compat_r; [now apply severity_multiplier_rank|exact Hc].
  - intros. apply py_min_1_le.
Qed.

Lemma calculate_violation_priority_monotone_witness :
  (6 # 10 <= 9 # 10 /\
   calculate_violation_priority (Some (6 # 10)) (Some "high") None
   <= calculate_violation_priority (Some (9 # 10)) (Some "high") None) /\
  (0 <= 1 # 2 /\ (0 <= 3 < 4)%nat /\
   calculate_violation_priority (Some (1 # 2)) (Some "low") None
   <= calculate_violation_priority (Some (1 # 2)) (Some "critical") None).
Proof.
  split.
  - split; [discriminate|].
    apply (proj1 calculate_violation_priority_monotone); discriminate.
  - split; [discriminate|]. split; [lia|].
    apply (proj1 (proj2 calculate_violation_priority_monotone) (1 # 2) 0%nat 3%nat None);
      [discriminate|lia].
Defined.

(** ** Hallucination detection *)

Lemma get_count_bump w x counts :
  get_count w (bump_count x counts) = (get_count w counts + if String.eqb x w then 1 else 0)%nat.
Proof.
  induction counts as [|[k n] rest IH]; simpl.
  - destruct (String.eqb x w); reflexivity.
  - destruct (String.eqb k x) eqn:Ekx; simpl.
    + apply String.eqb_eq in Ekx. subst k. destruct (String.eqb x w); lia.
    + destruct (String.eqb k w) eqn:Ekw.
      * apply String.eqb_eq in Ekw. subst k. destruct (String.eqb x w) eqn:Exw.
        -- apply String.eqb_eq in Exw. subst x. now rewrite String.eqb_refl in Ekx.
        -- lia.
      * exact IH.
Qed.

Lemma get_count_fold w words counts :
  get_count w (fold_left (fun acc x => bump_count x acc) words counts)
  = (get_count w counts + count_occ string_dec words w)%nat.
Proof.
  revert counts. induction words as [|x words IH]; intros counts; simpl; [lia|].
  rewrite IH, get_count_bump.
  destruct (string_dec x w) as [->|Hne].
  - rewrite String.eqb_refl. lia.
  - apply String.eqb_neq in Hne. rewrite Hne. lia.
Qed.

Lemma fold_max_ge (l : list nat) a :
  (a <= fold_left Nat.max l a)%nat /\ Forall (fun x => x <= fold_left Nat.max l a)%nat l.
Proof.
  revert a. induction l as [|x l IH]; intros a; simpl; [split; [lia|constructor]|].
  destruct (IH (Nat.max a x)) as [H1 H2]. split; [lia|]. constructor; [lia|exact H2].
Qed.

Lemma get_count_le_max w counts : (get_count w counts <= max_repetition counts)%nat.
Proof.
  unfold max_repetition.
  assert (Hin : get_count w counts = 0%nat \/ In (get_count w counts) (map snd counts)).
  { induction counts as [|[k n] rest IH]; simpl; [now left|].
    destruct (String.eqb k w); [right; now left|]. destruct IH; [now left|right; now right]. }
  destruct (fold_max_ge (map snd counts) 0) as [_ Hall].
  destruct Hin as [->|Hin]; [lia|]. rewrite Forall_forall in Hall. now apply Hall.
Qed.

Lemma word_count_le_max_repetition words w :
  (count_occ string_dec words w <= max_repetition (word_counts words))%nat.
Proof.
  pose proof (get_count_le_max w (word_counts words)) as H.
  unfold word_counts in H. rewrite get_count_fold in H. simpl in H. exact H.
Qed.

Lemma qnat_le a b : (a <= b)%nat -> qnat a <= qnat b.
Proof. intros H. unfold qnat. rewrite <- Zle_Qle. lia. Qed.

Lemma flag_new st r : In r (snd (flag st r)).
Proof. unfold flag. simpl. apply in_or_app. right. now left. Qed.

Lemma flag_keeps st r x : In r (snd st) -> In r (snd (flag st x)).
Proof. intros H. unfold flag. simpl. apply in_or_app. now left. Qed.

(** Once a reason is recorded, the later checks of [detect_hallucinations]
    keep it and keep the flag set. *)
Ltac flag_steps :=
  repeat match goal with
         | |- context [if Qltb ?a ?b then _ else _] => destruct (Qltb a b)
         end;
  (split; [reflexivity|repeat (first [apply flag_new|apply flag_keeps])]).

(** C4. For a text of at least 4 words in which some word occurs more often
    than 30% of the word count, [detect_hallucinations] returns
    [is_hallucination = true] and its reasons contain
    "Excessive word repetition"; this holds for the scenario text
    "stop resisting stop resisting stop resisting stop" at confidence 0.6
    and duration 3 s.  (The regex engine and the float formatting are
    parameters: the statement holds for all of them.) *)
Theorem detect_hallucinations_excessive_repetition re_search format_fixed :
  (forall text confidence segment_duration w,
     (4 <= List.length (py_split text))%nat ->
     qnat (List.length (py_split text)) * (3 # 10) < qnat (count_occ string_dec (py_split text) w) ->
     fst (detect_hallucinations re_search format_fixed text confidence segment_duration) = true /\
     In "Excessive word repetition"
        (snd (detect_hallucinations re_search format_fixed text confidence segment_duration))) /\
  (fst (detect_hallucinations re_search format_fixed stop_resisting_text (6 # 10) 3) = true /\
   In "Excessive word repetition"
      (snd (detect_hallucinations re_search format_fixed stop_resisting_text (6 # 10) 3))).
Proof.
  assert (Hgen : forall text confidence segment_duration w,
     (4 <= List.length (py_split text))%nat ->
     qnat (List.length (py_split text)) * (3 # 10) < qnat (count_occ string_dec (py_split text) w) ->
     fst (detect_hallucinations re_search format_fixed text confidence segment_duration) = true /\
     In "Excessive word repetition"
        (snd (detect_hallucinations re_search format_fixed text confidence segment_duration))).
  { intros text confidence segment_duration w Hlen Hrep.
    unfold detect_hallucinations. cbv zeta.
    match goal with |- context [fold_left ?f hallucination_patterns ?a] =>
      generalize (fold_left f hallucination_patterns a); intros st0 end.
    assert (E1 : (3 <? List.length (py_split text))%nat = true) by (apply Nat.ltb_lt; lia).
    assert (E2 : Qltb (qnat (List.length (py_split text)) * (3 # 10))
                      (qnat (max_repetition (word_counts (py_split text)))) = true).
    { apply Qltb_iff. eapply Qlt_le_trans; [exact Hrep|].
      apply qnat_le, word_count_le_max_repetition. }
    rewrite E1, E2. flag_steps. }
  split; [exact Hgen|].
  apply (Hgen _ _ _ "stop"); vm_compute; [lia|reflexivity].
Qed.

Lemma detect_hallucinations_excessive_repetition_witness :
  (4 <= List.length (py_split stop_resisting_text))%nat /\
  qnat (List.length (py_split stop_resisting_text)) * (3 # 10)
    < qnat (count_occ string_dec (py_split stop_resisting_text) "stop") /\
  (fst (detect_hallucinations (fun _ _ => false) (fun _ _ => "") stop_resisting_text (6 # 10) 3) = true /\
   In "Excessive word repetition"
      (snd (detect_hallucinations (fun _ _ => false) (fun _ _ => "") stop_resisting_text (6 # 10) 3))).
Proof.
  split; [vm_compute; lia|]. split; [vm_compute; reflexivity|].
  apply (proj1 (detect_hallucinations_excessive_repetition (fun _ _ => false) (fun _ _ => ""))
           stop_resisting_text (6 # 10) 3 "stop"); vm_compute; [lia|reflexivity].
Defined.

(** ** Transcription *)

Lemma flag_consistent_flag st r : flag_consistent (flag st r).
Proof.
  unfold flag_consistent, flag. simpl. split; [intros _|reflexivity].
  intros H. apply app_eq_nil in H. destruct H as [_ H]. discriminate.
Qed.

Lemma flag_consistent_if (b : bool) st r :
  flag_consistent st -> flag_consistent (if b then flag st r else st).
Proof. intros H. destruct b; [apply flag_consistent_flag|exact H]. Qed.

Lemma detect_hallucinations_consistent re_search format_fixed text confidence duration :
  flag_consistent (detect_hallucinations re_search format_fixed text confidence duration).
Proof.
  unfold detect_hallucinations. cbv zeta.
  assert (H0 : forall pats st, flag_consistent st ->
            flag_consistent (fold_left (fun st pattern =>
               if re_search pattern (lower text)
               then flag st ("Suspicious pattern: " ++ pattern)%string else st) pats st)).
  { induction pats as [|p pats IH]; intros st Hst; simpl; [exact Hst|].
    apply IH. now apply flag_consistent_if. }
  repeat match goal with
         | |- flag_consistent (if _ then flag _ _ else _) => apply flag_consistent_if
         | |- flag_consistent (if ?b then _ else _) => destruct b
         end;
    apply H0; unfold flag_consistent; simpl; (split; [discriminate|congruence]).
Qed.

Section TranscriptionFacts.
Variable re_search : string -> string -> bool.
Variable format_fixed : nat -> Q -> string.
Variable np_exp : Q -> Q.
Variable whisper_transcribe : AudioSegment -> option WhisperResult.

Let transcribe_one := transcribe_segment re_search format_fixed np_exp whisper_transcribe.

Lemma transcribe_segment_none s :
  transcribe_one s = None <->
  whisper_transcribe s = None \/
  exists r, whisper_transcribe s = Some r /\ (whisper_text r = "" \/ as_duration s == 0).
Proof.
  unfold transcribe_one, transcribe_segment, whisper_text.
  destruct (whisper_transcribe s) as [r|]; [|split; [now left|reflexivity]].
  cbv zeta.
  destruct (String.eqb (py_strip _) "") eqn:Et.
  - apply String.eqb_eq in Et. split; [intros _; right; exists r; auto|reflexivity].
  - apply String.eqb_neq in Et.
    destruct (Qeq_bool (as_duration s) 0) eqn:Ed.
    + apply Qeq_bool_iff in Ed. split; [intros _; right; exists r; auto|reflexivity].
    + split; [discriminate|]. intros [H|(r' & Hr & H)]; [discriminate|].
      injection Hr as <-. destruct H as [H|H]; [contradiction|].
      apply Qeq_bool_iff in H. congruence.
Qed.

Lemma transcribe_segment_some s t :
  transcribe_one s = Some t ->
  exists r, whisper_transcribe s = Some r /\
    ts_start_time t = as_start_time s /\ ts_end_time t = as_end_time s /\
    ts_text t = whisper_text r /\
    (ts_is_hallucination t = true <-> ts_hallucination_indicators t <> []).
Proof.
  unfold transcribe_one, transcribe_segment, whisper_text.
  destruct (whisper_transcribe s) as [r|]; [|discriminate]. cbv zeta.
  destruct (String.eqb _ "") eqn:Et; [discriminate|].
  destruct (Qeq_bool (as_duration s) 0); [discriminate|].
  intros H. injection H as <-. exists r. simpl. split; [reflexivity|].
  split; [reflexivity|]. split; [reflexivity|]. split; [reflexivity|].
  apply flag_consistent_if, flag_consistent_if, detect_hallucinations_consistent.
Qed.
End TranscriptionFacts.

(** C9 (as stated, refuted).  The claim "exactly one finding per input
    segment" fails: a segment whose transcription is blank yields no
    finding. *)
Lemma transcribe_audio_segments_not_one_to_one :
  ~ (forall re_search format_fixed np_exp whisper_transcribe segs,
       List.length (transcribe_audio_segments re_search format_fixed np_exp
                      whisper_transcribe segs) = List.length segs).
Proof.
  intros H.
  specialize (H (fun _ _ => false) (fun _ _ => "") (fun x => x)
                (fun _ => Some (mkWhisperResult (Some "   ") (Some "en") None))
                [two_second_segment]).
  vm_compute in H. discriminate.
Qed.

(** C9 (amended).  The transcription loop yields at most one finding per
    segment, in input order: a segment is dropped exactly when its
    transcription raises, its stripped text is empty, or its duration is 0;
    every other segment yields a finding with its start and end time and
    its text, kept whether or not it is flagged, and a finding is flagged
    as a hallucination exactly when it carries at least one reason. *)
Theorem transcribe_audio_segments_keeps_flagged re_search format_fixed np_exp whisper_transcribe :
  let transcribe_one := transcribe_segment re_search format_fixed np_exp whisper_transcribe in
  forall segs,
    transcribe_audio_segments re_search format_fixed np_exp whisper_transcribe segs
    = flat_map (fun s => match transcribe_one s with Some t => [t] | None => [] end) segs /\
    (List.length (transcribe_audio_segments re_search format_fixed np_exp whisper_transcribe segs)
       <= List.length segs)%nat /\
    (forall s, transcribe_one s = None <->
       whisper_transcribe s = None \/
       exists r, whisper_transcribe s = Some r /\ (whisper_text r = "" \/ as_duration s == 0)) /\
    (forall s t, transcribe_one s = Some t ->
       exists r, whisper_transcribe s = Some r /\
         ts_start_time t = as_start_time s /\ ts_end_time t = as_end_time s /\
         ts_text t = whisper_text r /\
         (ts_is_hallucination t = true <-> ts_hallucination_indicators t <> [])).
Proof.
  intros transcribe_one segs. split; [reflexivity|]. split.
  - unfold transcribe_audio_segments. induction segs as [|s segs IH]; simpl; [lia|].
    destruct (transcribe_segment _ _ _ _ s); simpl; lia.
  - split; [apply transcribe_segment_none|apply transcribe_segment_some].
Qed.

Lemma transcribe_audio_segments_keeps_flagged_witness :
  (List.length (transcribe_audio_segments (fun _ _ => false) (fun _ _ => "") (fun x => x)
     (fun _ => Some (mkWhisperResult (Some " stop stop stop stop ") (Some "en") None))
     [two_second_segment]) <= 1)%nat.
Proof.
  exact (proj1 (proj2 (transcribe_audio_segments_keeps_flagged (fun _ _ => false) (fun _ _ => "")
     (fun x => x) (fun _ => Some (mkWhisperResult (Some " stop stop stop stop ") (Some "en") None))
     [two_second_segment]))).
Defined.

(** ** Frame analysis *)

Lemma try_providers_all_fail analyze_frame_with_provider configs frame_base64 prompt :
  (forall f p c, analyze_frame_with_provider f p c = None) ->
  try_providers analyze_frame_with_provider configs frame_base64 prompt = None.
Proof. intros H. induction configs as [|c cs IH]; simpl; [reflexivity|]. now rewrite H. Qed.

(** C6 (code diverges from the spec).  When every provider fails for every
    frame, the loop still yields one analysis per frame (nothing raises and
    the batch goes on) with confidence 0.0, but the analysis carries
    severity ["low"], not ["unknown"], and no ["error"] key: the error
    marker of [analyze_frame]'s result is dropped by the loop body. *)
Theorem analyze_frames_all_providers_fail
  provider_configs analyze_frame_with_provider create_enhanced_bodycam_prompt
  extract_enhanced_violations extract_key_objects extract_officer_actions
  extract_civilian_actions extract_scene_description assess_professionalism frames_data :
  (forall f p c, analyze_frame_with_provider f p c = None) ->
  let out := analyze_frames provider_configs analyze_frame_with_provider
               create_enhanced_bodycam_prompt extract_enhanced_violations extract_key_objects
               extract_officer_actions extract_civilian_actions extract_scene_description
               assess_professionalism frames_data in
  List.length out = List.length frames_data /\
  (forall analysis, In analysis out ->
     py_get analysis "confidence" (VStr "") = VNum 0 /\
     py_get analysis "severity_level" (VStr "") = VStr "low" /\
     py_get analysis "concerns_detected" (VStr "") = VBool false /\
     py_has_key analysis "error" = false).
Proof.
  intros Hfail out. subst out. unfold analyze_frames. split; [apply length_map|].
  intros analysis Hin. apply in_map_iff in Hin. destruct Hin as (fd & <- & _).
  unfold analyze_frame. rewrite try_providers_all_fail by exact Hfail.
  unfold frame_analysis, py_has_key. simpl.
  vm_compute. repeat split.
Qed.

Lemma analyze_frames_all_providers_fail_witness :
  List.length (analyze_frames ["hyperbolic"; "nebius"] (fun _ _ _ => @None PyDict) (fun _ => "prompt")
                 (fun _ => []) (fun _ => VStrs []) (fun _ => VStrs []) (fun _ => VStrs [])
                 (fun _ => VStr "") (fun _ => VStr "")
                 [frame_at_5]) = List.length [frame_at_5].
Proof.
  exact (proj1 (analyze_frames_all_providers_fail ["hyperbolic"; "nebius"] (fun _ _ _ => @None PyDict)
     (fun _ => "prompt") (fun _ => []) (fun _ => VStrs []) (fun _ => VStrs []) (fun _ => VStrs [])
     (fun _ => VStr "") (fun _ => VStr "") [frame_at_5] (fun f p c => eq_refl))).
Defined.

(** ** Audio violations *)

Lemma length_flat_map_sum {A B} (f : A -> list B) (l : list A) :
  List.length (flat_map f l) = list_sum (map (fun x => List.length (f x)) l).
Proof.
  induction l as [|x l IH]; simpl; [reflexivity|]. now rewrite length_app, IH.
Qed.

(** C5.  Every match of a trigger pattern in a segment's (lowercased) text
    yields an audio violation whose timestamp is the segment start plus the
    number of words before the match divided by 3 words per second, with the
    trigger's description, severity and confidence; and the output has
    exactly one violation per match. *)
Theorem extract_violations_from_audio_word_timestamps finditer format_timestamp get_audio_context
  (segments : list SegmentValue) :
  let out := extract_violations_from_audio finditer format_timestamp get_audio_context
               (Some segments) in
  List.length out = list_sum (map (match_count finditer) segments) /\
  (forall segment text segment_start_time category pattern details m,
     In segment segments ->
     segment_fields segment = Some (text, segment_start_time) ->
     In category audio_event_triggers ->
     In (pattern, details) (snd category) ->
     In m (finditer pattern text) ->
     exists v, In v out /\
       av_source v = "audio" /\
       av_timestamp v = segment_start_time
                        + qnat (List.length (py_split (substring 0 (fst m) text))) / 3 /\
       av_description v = td_description details /\
       av_severity v = td_severity details /\
       av_confidence v = td_confidence details).
Proof.
  intros out. subst out. simpl. split.
  - rewrite length_flat_map_sum. f_equal. apply map_ext. intros segment.
    unfold segment_violations, match_count.
    destruct (segment_fields segment) as [[text st]|]; [|reflexivity].
    rewrite length_flat_map_sum. f_equal. apply map_ext. intros category.
    rewrite length_flat_map_sum. f_equal. apply map_ext. intros trigger.
    apply length_map.
  - intros segment text st category pattern details m Hseg Hf Hcat Htr Hm.
    exists (audio_violation format_timestamp get_audio_context text st details m).
    split; [|repeat split].
    apply in_flat_map. exists segment. split; [exact Hseg|].
    unfold segment_violations. rewrite Hf.
    apply in_flat_map. exists category. split; [exact Hcat|].
    apply in_flat_map. exists (pattern, details). split; [exact Htr|].
    apply in_map. exact Hm.
Qed.

Lemma extract_violations_from_audio_word_timestamps_witness :
  exists v, In v (extract_violations_from_audio taser_finditer (fun _ => "00:12") (fun _ _ => [])
                    (Some [SegObject "Get the TASER now" 12])) /\
    av_source v = "audio" /\
    av_timestamp v = 12 + qnat (List.length (py_split (substring 0 8 "get the taser now"))) / 3 /\
    av_description v = "Taser deployment threatened or initiated" /\
    av_severity v = "high" /\ av_confidence v = 9 # 10.
Proof.
  exact (proj2 (extract_violations_from_audio_word_timestamps taser_finditer (fun _ => "00:12")
     (fun _ _ => []) [SegObject "Get the TASER now" 12])
     (SegObject "Get the TASER now" 12) "get the taser now" 12
     ("Use of Force",
       [("\btaser\b|\btaze\b",
          mkTriggerDetails "high" (9 # 10) "Taser deployment threatened or initiated");
        ("\b(dog|k-9).*(bite|fight|rip)\b",
          mkTriggerDetails "high" (85 # 100) "K-9 unit deployment threatened or initiated");
        ("\bstop moving\b|\b(help me.?){2,}\b",
          mkTriggerDetails "high" (75 # 100) "Physical struggle and restraint of suspect")])
     "\btaser\b|\btaze\b"
     (mkTriggerDetails "high" (9 # 10) "Taser deployment threatened or initiated")
     (8%nat, "taser")
     (or_introl eq_refl) eq_refl (or_introl eq_refl) (or_introl eq_refl) (or_introl eq_refl)).
Defined.

Lemma Qltb_false_iff x y : Qltb x y = false <-> y <= x.
Proof.
  unfold Qltb. rewrite negb_false_iff. apply Qle_bool_iff.
Qed.

(** ** Usable segments *)

Lemma fold_left_Qplus l a : fold_left Qplus l a == a + fold_left Qplus l 0.
Proof.
  revert a. induction l as [|x l IH]; intros a; simpl; [lra|].
  rewrite (IH (a + x)), (IH (0 + x)). lra.
Qed.

Lemma segment_sum_nil : segment_sum [] == 0.
Proof. reflexivity. Qed.

Lemma segment_sum_cons u l : segment_sum (u :: l) == seg_duration u + segment_sum l.
Proof. unfold segment_sum, py_sum. simpl. rewrite fold_left_Qplus. lra. Qed.

Lemma segment_sum_app l1 l2 : segment_sum (l1 ++ l2) == segment_sum l1 + segment_sum l2.
Proof.
  induction l1 as [|u l1 IH]; simpl.
  - rewrite segment_sum_nil. lra.
  - rewrite !segment_sum_cons, IH. lra.
Qed.

Lemma blackout_chain_le lo bs hi : blackout_chain lo bs hi -> lo <= hi.
Proof.
  revert lo. induction bs as [|b bs IH]; intros lo H; simpl in H; [exact H|].
  destruct H as (H1 & H2 & _ & H4). apply IH in H4. lra.
Qed.

Lemma blackout_chain_mono lo bs hi hi' :
  blackout_chain lo bs hi -> hi <= hi' -> blackout_chain lo bs hi'.
Proof.
  revert lo. induction bs as [|b bs IH]; intros lo H Hh; simpl in *; [lra|].
  destruct H as (H1 & H2 & H3 & H4). repeat split; auto.
Qed.

Lemma blackout_chain_app_one lo bs h s e :
  blackout_chain lo bs h -> h <= s -> s < e ->
  blackout_chain lo (bs ++ [mkTimeSegment s e (e - s)]) e.
Proof.
  revert lo. induction bs as [|b bs IH]; intros lo H Hh Hs; simpl in *.
  - repeat split; simpl; lra.
  - destruct H as (H1 & H2 & H3 & H4). repeat split; auto.
Qed.

Lemma blackout_chain_sorted lo bs hi :
  blackout_chain lo bs hi -> Sorted (fun x y => Qle_bool (seg_start x) (seg_start y) = true) bs.
Proof.
  revert lo. induction bs as [|b bs IH]; intros lo H; [constructor|].
  destruct H as (H1 & H2 & H3 & H4). constructor; [eapply IH; exact H4|].
  destruct bs as [|b' bs]; constructor. destruct H4 as (H5 & _).
  apply Qle_bool_iff. lra.
Qed.

Lemma useful_loop_bounds cur bs duration :
  blackout_chain cur bs duration ->
  Forall (fun u => cur <= seg_start u /\ seg_start u < seg_end u /\ seg_end u <= duration /\
                   seg_duration u == seg_end u - seg_start u)
         (useful_loop cur bs duration).
Proof.
  revert cur. induction bs as [|b bs IH]; intros cur H; simpl in *.
  - destruct (Qltb cur duration) eqn:E; constructor; auto.
    apply Qltb_iff in E. simpl. repeat split; lra.
  - destruct H as (H1 & H2 & H3 & H4). apply Forall_app. split.
    + destruct (Qltb cur (seg_start b)) eqn:E; constructor; auto.
      apply Qltb_iff in E. pose proof (blackout_chain_le _ _ _ H4). simpl. repeat split; lra.
    + eapply Forall_impl; [|exact (IH _ H4)]. simpl. intros u (U1 & U2 & U3 & U4).
      repeat split; lra.
Qed.

Lemma useful_loop_sorted cur bs duration :
  blackout_chain cur bs duration ->
  StronglySorted (fun a b => seg_end a <= seg_start b) (useful_loop cur bs duration).
Proof.
  revert cur. induction bs as [|b bs IH]; intros cur H; simpl in *.
  - destruct (Qltb cur duration); repeat constructor.
  - destruct H as (H1 & H2 & H3 & H4).
    destruct (Qltb cur (seg_start b)) eqn:E; simpl; [|exact (IH _ H4)].
    constructor; [exact (IH _ H4)|].
    eapply Forall_impl; [|exact (useful_loop_bounds _ _ _ H4)]. simpl.
    intros u (U1 & _). lra.
Qed.

Lemma useful_loop_sum cur bs duration :
  blackout_chain cur bs duration ->
  segment_sum (useful_loop cur bs duration) + segment_sum bs == duration - cur.
Proof.
  revert cur. induction bs as [|b bs IH]; intros cur H; simpl in *.
  - destruct (Qltb cur duration) eqn:E.
    + rewrite segment_sum_cons, segment_sum_nil. simpl. lra.
    + rewrite segment_sum_nil. apply Qltb_false_iff in E. lra.
  - destruct H as (H1 & H2 & H3 & H4). specialize (IH _ H4).
    rewrite segment_sum_app, segment_sum_cons.
    destruct (Qltb cur (seg_start b)) eqn:E.
    + rewrite segment_sum_cons, segment_sum_nil. simpl. lra.
    + rewrite segment_sum_nil. apply Qltb_false_iff in E. lra.
Qed.

(** ** Blackout detection *)

Lemma qnat_lt a b : (a < b)%nat -> qnat a < qnat b.
Proof. intros H. unfold qnat. rewrite <- Zlt_Qlt. lia. Qed.

Lemma qdiv_le fps a b : 0 < fps -> (a <= b)%nat -> qnat a / fps <= qnat b / fps.
Proof.
  intros Hf H. unfold Qdiv. apply Qmult_le_compat_r; [apply qnat_le; exact H|].
  apply Qlt_le_weak, Qinv_lt_0_compat, Hf.
Qed.

Lemma qdiv_lt fps a b : 0 < fps -> (a < b)%nat -> qnat a / fps < qnat b / fps.
Proof.
  intros Hf H. unfold Qdiv. apply Qmult_lt_compat_r; [apply Qinv_lt_0_compat, Hf|].
  apply qnat_lt, H.
Qed.

Lemma qdiv_nonneg fps a : 0 < fps -> 0 <= qnat a / fps.
Proof.
  intros Hf. unfold Qdiv. apply Qmult_le_0_compat; [change 0 with (qnat 0); apply qnat_le; lia|].
  apply Qlt_le_weak, Qinv_lt_0_compat, Hf.
Qed.

Section DetectFacts.
Context {Frame : Type} (read_frame : nat -> option Frame) (is_frame_blackout : Frame -> bool).
Variable video_fps : Q.
Hypothesis fps_pos : 0 < video_fps.
Variable total_frames : nat.

Lemma detect_loop_inv fuel sample_interval frame_count in_blackout blackout_start segs :
  (1 <= sample_interval)%nat ->
  detect_inv read_frame is_frame_blackout video_fps total_frames frame_count segs in_blackout blackout_start ->
  exists frame_count',
    match detect_loop Frame read_frame is_frame_blackout fuel video_fps total_frames sample_interval
            frame_count in_blackout blackout_start segs with
    | (segs', in', start') =>
        detect_inv read_frame is_frame_blackout video_fps total_frames frame_count' segs' in' start'
    end.
Proof.
  intros Hsi. revert frame_count in_blackout blackout_start segs.
  induction fuel as [|fuel IH]; intros fc inb bst segs Hinv; simpl; [exists fc; exact Hinv|].
  destruct (fc <? total_frames)%nat eqn:Hlt; [|exists fc; exact Hinv].
  apply Nat.ltb_lt in Hlt.
  destruct (read_frame fc) as [frame|] eqn:Hread; [|exists fc; exact Hinv].
  destruct Hinv as [Hok Hinv].
  destruct (is_frame_blackout frame) eqn:Hb, inb; simpl; apply IH; split; try exact Hok.
  - destruct Hinv as (s & k & fr & h & Hs & Hk & Hr & Hbk & Hkf & Hkt & Hc & Hh).
    exists s, k, fr, h. repeat split; auto. lia.
  - destruct Hinv as (h & Hc & Hh1 & Hh2).
    exists (qnat fc / video_fps), fc, frame, h. repeat split; auto. lia.
  - destruct Hinv as (s & k & fr & h & Hs & Hk & Hr & Hbk & Hkf & Hkt & Hc & Hh). subst bst.
    apply Forall_app. split; [exact Hok|]. constructor; [|constructor].
    split; [exists k, fr; subst s; auto|]. exists fc. reflexivity.
  - destruct Hinv as (s & k & fr & h & Hs & Hk & Hr & Hbk & Hkf & Hkt & Hc & Hh). subst bst.
    exists (qnat fc / video_fps). split.
    + apply (blackout_chain_app_one _ _ h); [exact Hc|exact Hh|].
      subst s. apply qdiv_lt; assumption.
    + split; apply qdiv_le; (assumption || lia).
  - destruct Hinv as (h & Hc & Hh1 & Hh2). exists h. split; [exact Hc|]. split; [|exact Hh2].
    eapply Qle_trans; [exact Hh1|]. apply qdiv_le; (assumption || lia).
Qed.

Lemma detect_blackout_segments_chain :
  let bs := detect_blackout_segments Frame read_frame is_frame_blackout video_fps total_frames in
  blackout_chain 0 bs (qnat total_frames / video_fps) /\
  Forall (blackout_ok read_frame is_frame_blackout video_fps) bs.
Proof.
  intros bs. subst bs. unfold detect_blackout_segments.
  destruct (detect_loop_inv total_frames (Nat.max 1 (py_int (video_fps * 5))) 0 false None [])
    as (fc & Hinv); [lia| |].
  { split; [constructor|]. exists 0. split; [apply Qle_refl|].
    split; [apply qdiv_nonneg|apply qdiv_nonneg]; exact fps_pos. }
  destruct (detect_loop _ _ _ _ _ _ _ _ _ _ _) as [[segs inb] bst].
  destruct Hinv as [Hok Hinv]. destruct inb.
  - destruct Hinv as (s & k & fr & h & Hs & Hk & Hr & Hbk & Hkf & Hkt & Hc & Hh). subst bst. split.
    + apply (blackout_chain_app_one _ _ h); [exact Hc|exact Hh|].
      subst s. apply qdiv_lt; assumption.
    + apply Forall_app. split; [exact Hok|]. constructor; [|constructor].
      split; [exists k, fr; subst s; auto|]. exists total_frames. reflexivity.
  - destruct Hinv as (h & Hc & Hh1 & Hh2).
    split; [|destruct bst; exact Hok].
    destruct bst; eapply blackout_chain_mono; eassumption.
Qed.
End DetectFacts.

Lemma StronglySorted_weaken {A} (R R' : A -> A -> Prop) (P : A -> Prop) l :
  StronglySorted R l -> Forall P l -> (forall a b, P a -> P b -> R a b -> R' a b) ->
  StronglySorted R' l.
Proof.
  intros Hs HP Himp. induction Hs as [|a l Hs IH Hall]; constructor.
  - apply IH. inversion HP; assumption.
  - inversion HP as [|? ? Pa Pl]; subst. rewrite Forall_forall in *.
    intros b Hb. apply Himp; auto.
Qed.

Lemma create_useful_segments_chain duration bs :
  blackout_chain 0 bs duration ->
  StronglySorted (fun a b => seg_end a <= seg_start b) (create_useful_segments duration bs) /\
  Forall (fun u => 0 <= seg_start u /\ seg_start u <= seg_end u /\ seg_end u <= duration /\
                   seg_duration u == seg_end u - seg_start u)
         (create_useful_segments duration bs) /\
  segment_sum (create_useful_segments duration bs) + segment_sum bs == duration.
Proof.
  intros Hc. destruct bs as [|b bs'].
  - simpl in Hc. simpl. split; [repeat constructor|]. split.
    + constructor; [|constructor]. simpl. repeat split; lra.
    + rewrite segment_sum_cons, !segment_sum_nil. simpl. lra.
  - unfold create_useful_segments.
    rewrite (sort_by_key_id seg_start (b :: bs') (blackout_chain_sorted _ _ _ Hc)).
    split; [exact (useful_loop_sorted _ _ _ Hc)|]. split.
    + eapply Forall_impl; [|exact (useful_loop_bounds _ _ _ Hc)]. simpl.
      intros u (U1 & U2 & U3 & U4). repeat split; lra.
    + rewrite (useful_loop_sum _ _ _ Hc). lra.
Qed.

(** C3.  For the video structure computed from a video with a positive
    frame rate, the usable segments are sorted ascending by start time and
    pairwise non-overlapping (each ends no later than the next starts), each
    lies within [0, duration] with [duration = end - start], and the usable
    durations plus the blackout durations add up exactly to the video
    duration. *)
Theorem create_useful_segments_partition Frame read_frame is_frame_blackout video_fps total_frames :
  0 < video_fps ->
  let video_info := analyze_video_structure Frame read_frame is_frame_blackout video_fps total_frames in
  let useful_segments :=
    create_useful_segments (vi_duration video_info) (vi_blackout_segments video_info) in
  StronglySorted (fun a b => seg_end a <= seg_start b) useful_segments /\
  StronglySorted (fun a b => seg_start a <= seg_start b) useful_segments /\
  Forall (fun u => 0 <= seg_start u /\ seg_start u <= seg_end u /\
                   seg_end u <= vi_duration video_info /\
                   seg_duration u == seg_end u - seg_start u) useful_segments /\
  segment_sum useful_segments + segment_sum (vi_blackout_segments video_info)
    == vi_duration video_info.
Proof.
  intros Hfps video_info useful_segments. subst video_info useful_segments. simpl.
  destruct (detect_blackout_segments_chain read_frame is_frame_blackout video_fps Hfps total_frames)
    as [Hc _].
  destruct (create_useful_segments_chain _ _ Hc) as (Hs & Hb & Hsum).
  split; [exact Hs|]. split; [|split; assumption].
  eapply StronglySorted_weaken; [exact Hs|exact Hb|]. simpl.
  intros a b (A1 & A2 & _) (B1 & B2 & _) H. lra.
Qed.

Lemma create_useful_segments_partition_witness :
  0 < 1 /\
  StronglySorted (fun a b => seg_end a <= seg_start b)
    (create_useful_segments
       (vi_duration (analyze_video_structure nat blackout_20_30_read blackout_20_30_is_black 1 60))
       (vi_blackout_segments (analyze_video_structure nat blackout_20_30_read blackout_20_30_is_black 1 60))).
Proof.
  split; [reflexivity|].
  exact (proj1 (create_useful_segments_partition nat blackout_20_30_read blackout_20_30_is_black 1 60
                  eq_refl)).
Defined.

(** ** Frame sampling *)

Lemma In_sort_by_key {A} (key : A -> Q) l x : In x (sort_by_key key l) -> In x l.
Proof. intros H. eapply Permutation_in; [apply sort_by_key_perm|exact H]. Qed.

Lemma In_sort_by_key_desc {A} (key : A -> Q) l x : In x (sort_by_key_desc key l) -> In x l.
Proof. intros H. eapply Permutation_in; [apply sort_by_key_desc_perm|exact H]. Qed.

Lemma Sorted_weaken {A} (R R' : A -> A -> Prop) l :
  (forall a b, R a b -> R' a b) -> Sorted R l -> Sorted R' l.
Proof.
  intros Himp Hs. induction Hs as [|a l Hs IH Hhd]; constructor; [exact IH|].
  destruct Hhd; constructor. auto.
Qed.

Lemma blackout_sum_nonneg lo bs hi : blackout_chain lo bs hi -> 0 <= segment_sum bs.
Proof.
  revert lo. induction bs as [|b bs IH]; intros lo H; [apply Qle_refl|].
  destruct H as (H1 & H2 & H3 & H4). rewrite segment_sum_cons. specialize (IH _ H4). lra.
Qed.

(* proofs *)
Lemma uint_of_string_zeros k n :
  exists d, NilEmpty.uint_of_string (zeros k ++ str_N n) = Some d /\ N.of_uint d = n.
Proof.
  induction k as [|k IH]; simpl.
  - exists (N.to_uint n). split; [apply NilEmpty.usu|apply DecimalN.Unsigned.of_to].
  - destruct IH as (d & E & V). rewrite E. exists (Decimal.D0 d). split; [reflexivity|exact V].
Qed.

Lemma N_of_digits_zeros k n : N_of_digits (zeros k ++ str_N n) = n.
Proof.
  unfold N_of_digits. destruct (uint_of_string_zeros k n) as (d & E & V). now rewrite E.
Qed.

Lemma str_N_head n c r : str_N n = String c r -> c <> "-"%char.
Proof.
  unfold str_N. destruct (N.to_uint n); simpl; intros H; inversion H; subst; discriminate.
Qed.

Lemma decode_zeros k n : decode_02d (zeros k ++ str_N n) = Z.of_N n.
Proof.
  destruct k as [|k].
  - simpl. unfold decode_02d. destruct (str_N n) eqn:E.
    + pose proof (N_of_digits_zeros 0 n) as H. rewrite E in H. simpl in H. rewrite <- H. reflexivity.
    + assert (a <> "-"%char) by (eapply str_N_head; eauto).
      destruct (Ascii.eqb_spec a "-") as [|_]; [contradiction|].
      rewrite <- E. exact (f_equal Z.of_N (N_of_digits_zeros 0 n)).
  - simpl. exact (f_equal Z.of_N (N_of_digits_zeros (S k) n)).
Qed.

Lemma decode_format_02d z : decode_02d (format_02d z) = z.
Proof.
  unfold format_02d. destruct (Z.ltb_spec z 0) as [Hz|Hz]; simpl.
  - rewrite N_of_digits_zeros. lia.
  - rewrite decode_zeros. lia.
Qed.

Lemma Qfloor_unique x z : inject_Z z <= x -> x < inject_Z (z + 1) -> Qfloor x = z.
Proof.
  intros H1 H2. pose proof (Qfloor_resp_le _ _ H1) as A. rewrite Qfloor_Z in A.
  pose proof (Qfloor_le x) as B.
  assert (C : inject_Z (Qfloor x) < inject_Z (z + 1)) by (eapply Qle_lt_trans; eauto).
  rewrite <- Zlt_Qlt in C. lia.
Qed.

Lemma Qfloor_div_pos x m : (0 < m)%Z -> Qfloor (x / inject_Z m) = (Qfloor x / m)%Z.
Proof.
  intros Hm. set (f := Qfloor x). pose proof (Z.div_mod f m ltac:(lia)) as D.
  pose proof (Z.mod_pos_bound f m Hm) as R.
  pose proof (Qfloor_le x) as L. pose proof (Qlt_floor x) as U. fold f in L, U.
  assert (Hmq : 0 < inject_Z m) by (change 0 with (inject_Z 0); rewrite <- Zlt_Qlt; lia).
  apply Qfloor_unique.
  - apply Qle_shift_div_l; [exact Hmq|].
    eapply Qle_trans; [|exact L]. rewrite <- inject_Z_mult. rewrite <- Zle_Qle. nia.
  - apply Qlt_shift_div_r; [exact Hmq|].
    eapply Qlt_le_trans; [exact U|]. rewrite <- inject_Z_mult. rewrite <- Zle_Qle. nia.
Qed.

Lemma py_trunc_Z z : py_trunc (inject_Z z) = z.
Proof.
  unfold py_trunc. destruct (Qle_bool 0 (inject_Z z)) eqn:E.
  - apply Qfloor_Z.
  - assert (- inject_Z z == inject_Z (- z)) as H by (unfold Qeq; simpl; lia).
    rewrite H, Qfloor_Z. lia.
Qed.

Lemma inject_Z_sub a b : inject_Z (a - b) == inject_Z a - inject_Z b.
Proof. unfold Qeq; simpl; lia. Qed.

Lemma py_mod_bounds x m : (0 < m)%Z ->
  0 <= py_mod x (inject_Z m) /\ Qfloor (py_mod x (inject_Z m)) = (Qfloor x mod m)%Z.
Proof.
  intros Hm. unfold py_mod, py_floordiv. rewrite Qfloor_div_pos by exact Hm.
  set (f := Qfloor x). pose proof (Z.div_mod f m ltac:(lia)) as D.
  pose proof (Z.mod_pos_bound f m Hm) as R.
  pose proof (Qfloor_le x) as L. pose proof (Qlt_floor x) as U. fold f in L, U.
  rewrite <- inject_Z_mult.
  pose proof (inject_Z_sub f (m * (f / m))) as S1.
  pose proof (inject_Z_sub (f + 1) (m * (f / m))) as S2.
  assert (A1 : inject_Z 0 <= inject_Z (f - m * (f / m))) by (rewrite <- Zle_Qle; lia).
  assert (A2 : inject_Z (f mod m) <= inject_Z (f - m * (f / m))) by (rewrite <- Zle_Qle; lia).
  assert (A3 : inject_Z (f + 1 - m * (f / m)) <= inject_Z (f mod m + 1)) by (rewrite <- Zle_Qle; lia).
  change (inject_Z 0) with 0 in A1.
  split; [lra|]. apply Qfloor_unique; lra.
Qed.

Lemma py_trunc_mod x m : (0 < m)%Z -> py_trunc (py_mod x (inject_Z m)) = (Qfloor x mod m)%Z.
Proof.
  intros Hm. destruct (py_mod_bounds x m Hm) as [P F]. unfold py_trunc.
  apply Qle_bool_iff in P. now rewrite P.
Qed.

Lemma py_trunc_floordiv x m : (0 < m)%Z -> py_trunc (py_floordiv x (inject_Z m)) = (Qfloor x / m)%Z.
Proof. intros Hm. unfold py_floordiv. rewrite py_trunc_Z. now apply Qfloor_div_pos. Qed.

Lemma violation_format_timestamp_floor x :
  ViolationAnalysis.format_timestamp x =
  (format_02d (Qfloor x / 60) ++ ":" ++ format_02d (Qfloor x mod 60))%string.
Proof.
  unfold ViolationAnalysis.format_timestamp.
  change 60 with (inject_Z 60). rewrite py_trunc_floordiv, py_trunc_mod by lia. reflexivity.
Qed.

Lemma enhanced_format_timestamp_floor x :
  EnhancedVideo.format_timestamp x =
  let f := Qfloor x in
  if (0 <? f / 3600)%Z
  then (py_str_Z (f / 3600) ++ ":" ++ format_02d ((f mod 3600) / 60) ++ ":" ++ format_02d (f mod 60))%string
  else (format_02d ((f mod 3600) / 60) ++ ":" ++ format_02d (f mod 60))%string.
Proof.
  unfold EnhancedVideo.format_timestamp.
  change 3600 with (inject_Z 3600). change 60 with (inject_Z 60).
  rewrite py_trunc_floordiv, py_trunc_mod by lia.
  rewrite !py_trunc_floordiv by lia.
  rewrite (proj2 (py_mod_bounds x 3600 ltac:(lia))). reflexivity.
Qed.

Lemma count_colons_app a b : count_colons (a ++ b) = (count_colons a + count_colons b)%nat.
Proof. induction a as [|c a IH]; simpl; [reflexivity|]. destruct (Ascii.eqb c ":"); simpl; lia. Qed.

Lemma count_colons_zeros k : count_colons (zeros k) = O.
Proof. induction k; simpl; auto. Qed.

Lemma count_colons_str_N n : count_colons (str_N n) = O.
Proof. unfold str_N. induction (N.to_uint n); simpl; auto. Qed.

Lemma count_colons_format_02d z : count_colons (format_02d z) = O.
Proof.
  unfold format_02d. rewrite !count_colons_app, count_colons_zeros, count_colons_str_N.
  destruct (z <? 0)%Z; reflexivity.
Qed.

Lemma count_colons_py_str_Z z : count_colons (py_str_Z z) = O.
Proof.
  unfold py_str_Z. rewrite !count_colons_app, count_colons_str_N. destruct (z <? 0)%Z; reflexivity.
Qed.

Lemma split_colon a b c d : count_colons a = O -> count_colons b = O ->
  (a ++ String ":" c)%string = (b ++ String ":" d)%string -> a = b /\ c = d.
Proof.
  revert b. induction a as [|x a IH]; intros b Ha Hb E; destruct b as [|y b]; simpl in *.
  - inversion E; auto.
  - inversion E; subst. simpl in Hb. discriminate.
  - inversion E; subst. simpl in Ha. discriminate.
  - inversion E; subst. destruct (Ascii.eqb y ":"); [discriminate|].
    destruct (IH b Ha Hb H1) as [-> ->]. auto.
Qed.

Lemma decode_py_str_Z z : (0 <= z)%Z -> decode_02d (py_str_Z z) = z.
Proof.
  intros Hz. unfold py_str_Z. destruct (Z.ltb_spec z 0); [lia|]. simpl.
  change (str_N (Z.abs_N z)) with (zeros 0 ++ str_N (Z.abs_N z))%string.
  rewrite decode_zeros. lia.
Qed.

Lemma floor_recon f :
  f = (3600 * (f / 3600) + 60 * ((f mod 3600) / 60) + f mod 60)%Z.
Proof.
  pose proof (Z.div_mod f 3600 ltac:(lia)). pose proof (Z.mod_pos_bound f 3600 ltac:(lia)).
  pose proof (Z.div_mod (f mod 3600) 60 ltac:(lia)). pose proof (Z.mod_pos_bound (f mod 3600) 60 ltac:(lia)).
  pose proof (Z.div_mod f 60 ltac:(lia)). pose proof (Z.mod_pos_bound f 60 ltac:(lia)).
  lia.
Qed.

Lemma Qfloor_nonneg x : 0 <= x -> (0 <= Qfloor x)%Z.
Proof. intros H. pose proof (Qfloor_resp_le _ _ H) as A. exact A. Qed.

Lemma count_colons_hms h m s' :
  count_colons (py_str_Z h ++ ":" ++ format_02d m ++ ":" ++ format_02d s') = 2%nat.
Proof.
  rewrite count_colons_app, count_colons_py_str_Z. simpl.
  rewrite count_colons_app, count_colons_format_02d. simpl. now rewrite count_colons_format_02d.
Qed.

Lemma count_colons_ms m s' : count_colons (format_02d m ++ ":" ++ format_02d s') = 1%nat.
Proof.
  rewrite count_colons_app, count_colons_format_02d. simpl. now rewrite count_colons_format_02d.
Qed.

(** X1. The [_format_timestamp] of the violation analysis service gives
    two times the same [MM:SS] text exactly when they fall in the same
    whole second. *)
Theorem violation_format_timestamp_same_second x y :
  ViolationAnalysis.format_timestamp x = ViolationAnalysis.format_timestamp y <-> Qfloor x = Qfloor y.
Proof.
  rewrite !violation_format_timestamp_floor. split; [|intros ->; reflexivity].
  intros E. destruct (split_colon _ _ _ _ (count_colons_format_02d _) (count_colons_format_02d _) E) as [E1 E2].
  apply (f_equal decode_02d) in E1, E2. rewrite !decode_format_02d in E1, E2.
  rewrite (Z.div_mod (Qfloor x) 60), (Z.div_mod (Qfloor y) 60) by lia. lia.
Qed.

(** X2. For non-negative times, the [_format_timestamp] of the enhanced
    analysis gives two times the same text exactly when they fall in the
    same whole second. *)
Theorem enhanced_format_timestamp_same_second x y : 0 <= x -> 0 <= y ->
  EnhancedVideo.format_timestamp x = EnhancedVideo.format_timestamp y <-> Qfloor x = Qfloor y.
Proof.
  intros Hx Hy. rewrite !enhanced_format_timestamp_floor. cbv zeta.
  split; [|intros ->; reflexivity].
  pose proof (Qfloor_nonneg x Hx) as Fx. pose proof (Qfloor_nonneg y Hy) as Fy.
  set (fx := Qfloor x) in *. set (fy := Qfloor y) in *.
  pose proof (floor_recon fx). pose proof (floor_recon fy).
  pose proof (Z.div_pos fx 3600 Fx ltac:(lia)). pose proof (Z.div_pos fy 3600 Fy ltac:(lia)).
  destruct (Z.ltb_spec 0 (fx / 3600)), (Z.ltb_spec 0 (fy / 3600)); intros E.
  - destruct (split_colon _ _ _ _ (count_colons_py_str_Z _) (count_colons_py_str_Z _) E) as [E1 E'].
    destruct (split_colon _ _ _ _ (count_colons_format_02d _) (count_colons_format_02d _) E') as [E2 E3].
    apply (f_equal decode_02d) in E1, E2, E3.
    rewrite !decode_py_str_Z in E1 by lia. rewrite !decode_format_02d in E2, E3. lia.
  - apply (f_equal count_colons) in E. rewrite count_colons_hms, count_colons_ms in E. discriminate.
  - apply (f_equal count_colons) in E. rewrite count_colons_hms, count_colons_ms in E. discriminate.
  - destruct (split_colon _ _ _ _ (count_colons_format_02d _) (count_colons_format_02d _) E) as [E2 E3].
    apply (f_equal decode_02d) in E2, E3. rewrite !decode_format_02d in E2, E3. lia.
Qed.

(** X3. For a non-negative time, the two [_format_timestamp] functions give
    the same text exactly below one hour; from one hour on the enhanced
    one writes [H:MM:SS]. *)
Theorem format_timestamps_agree_below_one_hour x : 0 <= x ->
  EnhancedVideo.format_timestamp x = ViolationAnalysis.format_timestamp x <-> x < 3600.
Proof.
  intros Hx. rewrite enhanced_format_timestamp_floor, violation_format_timestamp_floor. cbv zeta.
  pose proof (Qfloor_nonneg x Hx) as F. split.
  - intros E. destruct (Qlt_le_dec x 3600) as [|H]; [assumption|exfalso].
    pose proof (Qfloor_resp_le _ _ H) as G. change 3600 with (inject_Z 3600) in G. rewrite Qfloor_Z in G.
    destruct (Z.ltb_spec 0 (Qfloor x / 3600)) as [_|C].
    + apply (f_equal count_colons) in E. rewrite count_colons_hms, count_colons_ms in E. discriminate.
    + pose proof (Z.div_le_lower_bound (Qfloor x) 3600 1 ltac:(lia) ltac:(lia)). lia.
  - intros H. 
    assert (G : (Qfloor x < 3600)%Z).
    { pose proof (Qfloor_le x). assert (inject_Z (Qfloor x) < inject_Z 3600) by (eapply Qle_lt_trans; eauto).
      rewrite <- Zlt_Qlt in *. assumption. }
    rewrite (Z.div_small (Qfloor x) 3600), (Z.mod_small (Qfloor x) 3600) by lia. reflexivity.
Qed.

(* proofs *)
Lemma py_trunc_nonneg x : 0 <= x -> py_trunc x = Qfloor x.
Proof. intros H. unfold py_trunc. apply Qle_bool_iff in H. now rewrite H. Qed.

Lemma py_trunc_neg x : x < 0 -> py_trunc x = (- Qfloor (- x))%Z.
Proof.
  intros H. unfold py_trunc. destruct (Qle_bool 0 x) eqn:E; [|reflexivity].
  apply Qle_bool_iff in E. lra.
Qed.

Lemma py_trunc_mono x y : x <= y -> (py_trunc x <= py_trunc y)%Z.
Proof.
  intros H. destruct (Qlt_le_dec x 0) as [Hx|Hx], (Qlt_le_dec y 0) as [Hy|Hy].
  - rewrite !py_trunc_neg by assumption. assert (- y <= - x) as A by lra.
    pose proof (Qfloor_resp_le _ _ A). lia.
  - rewrite py_trunc_neg, py_trunc_nonneg by assumption.
    assert (0 <= - x) as A by lra. pose proof (Qfloor_nonneg _ A). pose proof (Qfloor_nonneg _ Hy). lia.
  - lra.
  - rewrite !py_trunc_nonneg by assumption. now apply Qfloor_resp_le.
Qed.

Lemma Qltb_true_iff x y : Qltb x y = true <-> x < y.
Proof. apply Qltb_iff. Qed.

Lemma frame_multiplier_facts u u' : u <= u' ->
  let m := fun u => if Qltb 3600 u then 3 # 2 else if Qltb 1800 u then 13 # 10
                    else if Qltb 600 u then 11 # 10 else 1 in
  1 <= m u /\ m u <= m u'.
Proof.
  intros H m. unfold m.
  destruct (Qltb 3600 u) eqn:A1, (Qltb 1800 u) eqn:A2, (Qltb 600 u) eqn:A3,
           (Qltb 3600 u') eqn:B1, (Qltb 1800 u') eqn:B2, (Qltb 600 u') eqn:B3;
  rewrite ?Qltb_iff, ?Qltb_false_iff in *; split; try (unfold Qle; simpl; lia); lra.
Qed.

Lemma optimal_frames_ge_10 u :
  (10 <= py_trunc (inject_Z (Z.max 10 (py_trunc (u / 30))) *
         (if Qltb 3600 u then 3 # 2 else if Qltb 1800 u then 13 # 10
          else if Qltb 600 u then 11 # 10 else 1)))%Z.
Proof.
  destruct (frame_multiplier_facts u u (Qle_refl u)) as [M _]. cbv beta in M.
  set (m := if Qltb 3600 u then _ else _) in *.
  assert (B : 10 <= inject_Z (Z.max 10 (py_trunc (u / 30)))).
  { change 10 with (inject_Z 10). rewrite <- Zle_Qle. lia. }
  assert (P : 10 <= inject_Z (Z.max 10 (py_trunc (u / 30))) * m).
  { apply (Qle_trans _ (10 * 1)); [unfold Qle; simpl; lia|].
    apply Qmult_le_compat_nonneg; split; try assumption; unfold Qle; simpl; lia. }
  pose proof (py_trunc_mono _ _ P) as T. change 10 with (inject_Z 10) in T at 1.
  rewrite py_trunc_Z in T. exact T.
Qed.

(** X4. [_calculate_optimal_frame_count] never exceeds the requested count,
    gives at least [min(10, requested)], keeps a requested count of at
    most 10 unchanged, and grows with the useful duration and the
    requested count. *)
Theorem calculate_optimal_frame_count_bounds u u' r r' :
  (calculate_optimal_frame_count u r <= r)%Z /\
  (Z.min 10 r <= calculate_optimal_frame_count u r)%Z /\
  ((r <= 10)%Z -> calculate_optimal_frame_count u r = r) /\
  (u <= u' -> (r <= r')%Z -> (calculate_optimal_frame_count u r <= calculate_optimal_frame_count u' r')%Z).
Proof.
  unfold calculate_optimal_frame_count. cbv zeta.
  pose proof (optimal_frames_ge_10 u) as G.
  split; [lia|]. split; [lia|]. split; [intros; lia|].
  intros Hu Hr. apply Z.min_le_compat; [|exact Hr].
  apply py_trunc_mono.
  destruct (frame_multiplier_facts u u' Hu) as [M1 M2]. cbv beta in M1, M2.
  apply Qmult_le_compat_nonneg; split.
  - change 0 with (inject_Z 0). rewrite <- Zle_Qle. lia.
  - rewrite <- Zle_Qle. apply Z.max_le_compat_l. apply py_trunc_mono.
    apply Qmult_le_compat_r; [exact Hu|unfold Qle; simpl; lia].
  - lra.
  - exact M2.
Qed.

Lemma blackout_sum_le lo bs hi : blackout_chain lo bs hi -> segment_sum bs <= hi - lo.
Proof.
  revert lo. induction bs as [|b bs IH]; intros lo H; simpl in H.
  - rewrite segment_sum_nil. lra.
  - destruct H as (H1 & H2 & H3 & H4). rewrite segment_sum_cons.
    pose proof (IH _ H4). lra.
Qed.

(** X5. With a positive frame rate, [_analyze_video_structure] reports a
    blackout duration between 0 and the video duration, a non-negative
    useful duration and a useful percentage between 0 and 100. *)
Theorem analyze_video_structure_dict_bounds Frame read_frame is_frame_blackout video_fps total_frames :
  0 < video_fps ->
  let vs := analyze_video_structure_dict Frame read_frame is_frame_blackout video_fps total_frames in
  0 <= vs_blackout_duration vs <= vi_duration (vs_info vs) /\
  0 <= vs_useful_duration vs /\
  0 <= vs_useful_percentage vs <= 100.
Proof.
  intros Hfps vs. subst vs. unfold analyze_video_structure_dict. cbv zeta. simpl.
  destruct (detect_blackout_segments_chain read_frame is_frame_blackout video_fps Hfps total_frames)
    as [Hc _].
  set (bs := detect_blackout_segments Frame read_frame is_frame_blackout video_fps total_frames) in *.
  set (D := qnat total_frames / video_fps) in *.
  pose proof (blackout_sum_le _ _ _ Hc) as Le. pose proof (blackout_sum_nonneg _ _ _ Hc) as Ge.
  unfold segment_sum in Le, Ge.
  set (B := py_sum (map seg_duration bs)) in *.
  split; [lra|]. split; [lra|].
  destruct (Qltb 0 D) eqn:HD; [|split; unfold Qle; simpl; lia].
  apply Qltb_iff in HD.
  assert (T1 : 0 <= (D - B) / D) by (apply Qle_shift_div_l; [exact HD|lra]).
  assert (T2 : (D - B) / D <= 1) by (apply Qle_shift_div_r; [exact HD|lra]).
  set (t := (D - B) / D) in *. split; lra.
Qed.

Lemma contains_cons p c s : contains p s = true -> contains p (String c s) = true.
Proof. intros H. simpl. rewrite H. apply orb_true_r. Qed.

Lemma prefix_contains q s : prefix q s = true -> contains q s = true.
Proof. intros H. destruct s; cbn [contains]; rewrite H; reflexivity. Qed.

Lemma prefix_app_contains a q s : prefix (a ++ q) s = true -> contains q s = true.
Proof.
  revert s. induction a as [|c a IH]; intros s H.
  - now apply prefix_contains.
  - destruct s as [|d s]; [simpl in H; congruence|].
    simpl in H. destruct (ascii_dec c d); [|discriminate H].
    apply contains_cons. apply IH. exact H.
Qed.

Lemma contains_suffix a q s : contains (a ++ q) s = true -> contains q s = true.
Proof.
  induction s as [|c s IH]; intros H; simpl in H.
  - destruct (a ++ q)%string eqn:E; [|discriminate].
    destruct a; [|discriminate]. simpl in E. subst. reflexivity.
  - apply orb_true_iff in H. destruct H as [H|H].
    + eapply prefix_app_contains. exact H.
    + apply contains_cons. apply IH. exact H.
Qed.

(** X6. [_assess_professionalism] answers "concerning" only when the text
    contains "aggressive" or "excessive": "unprofessional" and
    "inappropriate" also count as the professional indicators they
    contain, so a text with one of those two words but neither
    "aggressive" nor "excessive" is assessed "professional". *)
Theorem assess_professionalism_concerning_needs_aggressive_or_excessive analysis_text :
  let text_lower := lower analysis_text in
  (assess_professionalism analysis_text = "concerning" ->
   contains "aggressive" text_lower = true \/ contains "excessive" text_lower = true) /\
  (contains "unprofessional" text_lower = true \/ contains "inappropriate" text_lower = true ->
   contains "aggressive" text_lower = false -> contains "excessive" text_lower = false ->
   assess_professionalism analysis_text = "professional").
Proof.
  intros text_lower. unfold assess_professionalism. fold text_lower.
  assert (U : contains "unprofessional" text_lower = true -> contains "professional" text_lower = true)
    by apply (contains_suffix "un").
  assert (I : contains "inappropriate" text_lower = true -> contains "appropriate" text_lower = true)
    by apply (contains_suffix "in").
  simpl.
  destruct (contains "unprofessional" text_lower), (contains "inappropriate" text_lower),
           (contains "aggressive" text_lower), (contains "excessive" text_lower),
           (contains "professional" text_lower), (contains "appropriate" text_lower),
           (contains "proper procedure" text_lower), (contains "calm" text_lower),
           (contains "controlled" text_lower);
    simpl; split; intros; try (left; reflexivity); try (right; reflexivity);
    try discriminate; try reflexivity;
    try (destruct H; discriminate);
    try (specialize (U eq_refl); discriminate);
    try (specialize (I eq_refl); discriminate).
Qed.

Lemma map_option_Forall2 {A B} (f : A -> option B) l l' :
  map_option f l = Some l' -> Forall2 (fun x y => f x = Some y) l l'.
Proof.
  revert l'. induction l as [|x xs IH]; intros l' H; simpl in H.
  - injection H as <-. constructor.
  - destruct (f x) eqn:Ex; [|discriminate].
    destruct (map_option f xs) eqn:Exs; [|discriminate].
    injection H as <-. constructor; [exact Ex|]. now apply IH.
Qed.

Lemma map_option_length {A B} (f : A -> option B) l l' :
  map_option f l = Some l' -> List.length l' = List.length l.
Proof. intros H. symmetry. eapply Forall2_length, map_option_Forall2, H. Qed.

Lemma map_option_In {A B} (f : A -> option B) l l' x :
  map_option f l = Some l' -> In x l -> exists y, f x = Some y /\ In y l'.
Proof.
  intros H Hx. apply map_option_Forall2 in H. induction H as [|a b l l' Hab _ IH].
  - destruct Hx.
  - destruct Hx as [<-|Hx]; [exists b; split; [exact Hab|now left]|].
    destruct (IH Hx) as (y & Hy & Hin). exists y. split; [exact Hy|now right].
Qed.

Lemma map_option_In_r {A B} (f : A -> option B) l l' y :
  map_option f l = Some l' -> In y l' -> exists x, f x = Some y /\ In x l.
Proof.
  intros H Hy. apply map_option_Forall2 in H. induction H as [|a b l l' Hab _ IH].
  - destruct Hy.
  - destruct Hy as [<-|Hy]; [exists a; split; [exact Hab|now left]|].
    destruct (IH Hy) as (x & Hx & Hin). exists x. split; [exact Hx|now right].
Qed.

Lemma severity_keys_map frames keys :
  map_option severity_key frames = Some keys ->
  keys = map (fun f => py_get f "severity_level" (VStr "low")) frames.
Proof.
  intros H. apply map_option_Forall2 in H. induction H as [|f k fs ks Hk _ IH]; [reflexivity|].
  simpl. rewrite IH. f_equal. unfold severity_key in Hk.
  destruct (py_get f "severity_level" (VStr "low")); congruence.
Qed.

Lemma filter_partition3 {A} (p1 p2 p3 : A -> bool) l :
  (forall x, (if p1 x then 1 else 0) + (if p2 x then 1 else 0) + (if p3 x then 1 else 0) = 1)%nat ->
  (List.length (filter p1 l) + List.length (filter p2 l) + List.length (filter p3 l))%nat = List.length l.
Proof.
  intros Hx. induction l as [|x xs IH]; [reflexivity|]. simpl.
  specialize (Hx x). destruct (p1 x), (p2 x), (p3 x); simpl in *; lia.
Qed.

Lemma Qle_bool_false_iff x y : Qle_bool x y = false <-> y < x.
Proof.
  split; intros H.
  - apply Qnot_le_lt. intros Hle. apply Qle_bool_iff in Hle. congruence.
  - destruct (Qle_bool x y) eqn:E; [|reflexivity]. apply Qle_bool_iff in E.
    exfalso. apply (Qlt_not_le _ _ H E).
Qed.

Lemma confidence_bins_partition c :
  ((if Qltb (7 # 10) c then 1 else 0) +
   (if Qle_bool (4 # 10) c && Qle_bool c (7 # 10) then 1 else 0) +
   (if Qltb c (4 # 10) then 1 else 0))%nat = 1%nat.
Proof.
  destruct (Qltb (7 # 10) c) eqn:E1, (Qle_bool (4 # 10) c) eqn:E2, (Qle_bool c (7 # 10)) eqn:E3,
           (Qltb c (4 # 10)) eqn:E4; simpl; try reflexivity;
  repeat match goal with
  | H : Qltb _ _ = true |- _ => apply Qltb_iff in H
  | H : Qltb _ _ = false |- _ => apply Qltb_false_iff in H
  | H : Qle_bool _ _ = true |- _ => apply Qle_bool_iff in H
  | H : Qle_bool _ _ = false |- _ => apply Qle_bool_false_iff in H
  end; exfalso; lra.
Qed.

Lemma Qltb_frac p a n : (0 < n)%nat -> Qltb p (qnat a / qnat n) = Qltb (p * qnat n) (qnat a).
Proof.
  intros Hn. assert (Hq : 0 < qnat n).
  { unfold qnat. change 0 with (inject_Z 0). rewrite <- Zlt_Qlt. lia. }
  destruct (Qltb (p * qnat n) (qnat a)) eqn:E.
  - apply Qltb_iff. apply Qltb_iff in E. apply Qlt_shift_div_l; assumption.
  - apply Qltb_false_iff. apply Qltb_false_iff in E. apply Qle_shift_div_r; assumption.
Qed.

Lemma Qltb_nat_scaled (k d a n : Z) : (0 < d)%Z ->
  Qltb ((k # Z.to_pos d) * inject_Z n) (inject_Z a) = (k * n <? a * d)%Z.
Proof.
  intros Hd. destruct (Z.ltb_spec (k * n) (a * d)) as [H|H].
  - apply Qltb_iff. unfold Qlt, Qmult, inject_Z; simpl. rewrite Pos.mul_1_r, Z2Pos.id by lia. lia.
  - apply Qltb_false_iff. unfold Qle, Qmult, inject_Z; simpl. rewrite Pos.mul_1_r, Z2Pos.id by lia. lia.
Qed.

Lemma Qltb_zero_scaled (n a : Z) : Qltb (0 * inject_Z n) (inject_Z a) = (0 <? a)%Z.
Proof.
  destruct (Z.ltb_spec 0 a) as [H|H].
  - apply Qltb_iff. unfold Qlt, Qmult, inject_Z; simpl. lia.
  - apply Qltb_false_iff. unfold Qle, Qmult, inject_Z; simpl. lia.
Qed.

Lemma existsb_critical_iff (all : list string) :
  existsb (fun violation => existsb (String.eqb violation) (nodup string_dec all)) critical_violations = true
  <-> exists v, In v critical_violations /\ In v all.
Proof.
  rewrite existsb_exists. split.
  - intros (v & Hv & He). apply existsb_exists in He. destruct He as (w & Hw & Ew).
    apply String.eqb_eq in Ew. subst w. apply nodup_In in Hw. now exists v.
  - intros (v & Hv & Hin). exists v. split; [exact Hv|]. apply existsb_exists.
    exists v. split; [now apply nodup_In|]. apply String.eqb_refl.
Qed.

(** X7. [_generate_comprehensive_summary_with_audio] counts every frame
    once in its confidence bins, and assesses "high" when more than 10%
    of the frames are high, "low" when no frame is high, at most 10% are
    medium and no critical violation is listed, and "medium" otherwise. *)
Theorem generate_comprehensive_summary_severity format_1f frame_analyses video_info has_timestamps s :
  generate_comprehensive_summary format_1f frame_analyses video_info has_timestamps = Some (SummaryDict s) ->
  let keys := map (fun f => py_get f "severity_level" (VStr "low")) frame_analyses in
  let n := List.length frame_analyses in
  let high := count_severity "high" keys in
  let medium := count_severity "medium" keys in
  let critical := exists f l v, In f frame_analyses /\
                    iter_of (py_get f "potential_violations" (VStrs [])) = Some l /\
                    In v l /\ In v critical_violations in
  sm_total_frames_analyzed s = n /\
  (let '(h, m, l) := sm_confidence_distribution s in (h + m + l)%nat = n) /\
  (sm_severity_assessment s = "high" <-> (n < 10 * high)%nat) /\
  (sm_severity_assessment s = "low" <-> high = 0%nat /\ (10 * medium <= n)%nat /\ ~ critical) /\
  (sm_severity_assessment s = "medium" <->
     (10 * high <= n)%nat /\ (0 < high \/ n < 10 * medium \/ critical)%nat).
Proof.
  intros H keys n high medium critical.
  assert (Hne : frame_analyses <> []) by (intros E; subst; discriminate H).
  unfold generate_comprehensive_summary in H.
  destruct frame_analyses as [|f0 fs]; [contradiction|].
  set (fa := f0 :: fs) in *.
  destruct (map_option (fun f => num_of (py_get f "confidence" (VNum 0))) fa)
    as [cs|] eqn:Ecs; [|discriminate].
  destruct (concat_option (map_option (fun f => iter_of (py_get f "potential_violations" (VStrs [])))
              fa)) as [all|] eqn:Eall; [|discriminate].
  destruct (map_option severity_key fa) as [sev|] eqn:Esev; [|discriminate].
  apply severity_keys_map in Esev. subst sev. fold keys in H.
  fold high in H. fold medium in H.
  assert (Hn : (0 < n)%nat) by (subst n fa; simpl; lia).
  assert (Hnb : (0 <? List.length fa)%nat = true) by (apply Nat.ltb_lt; exact Hn).
  rewrite Hnb in H.
  destruct (Qeq_bool (vi_duration (vs_info video_info)) 0); [discriminate|].
  apply (f_equal (fun o => match o with Some (SummaryDict x) => x | _ => s end)) in H.
  cbv beta iota in H. subst s. cbn [sm_total_frames_analyzed sm_confidence_distribution sm_severity_assessment].
  fold n.
  assert (Hcrit : critical <-> exists v, In v critical_violations /\ In v all).
  { unfold concat_option in Eall.
    destruct (map_option (fun f => iter_of (py_get f "potential_violations" (VStrs []))) fa)
      as [ls|] eqn:Els; [|discriminate].
    simpl in Eall. injection Eall as <-. subst critical. split.
    - intros (f & l & v & Hf & Hl & Hv & Hc). exists v. split; [exact Hc|].
      destruct (map_option_In _ _ _ _ Els Hf) as (l' & Hl' & Hin). rewrite Hl in Hl'.
      injection Hl' as <-. apply in_concat. now exists l.
    - intros (v & Hc & Hv). apply in_concat in Hv. destruct Hv as (l & Hl & Hv).
      destruct (map_option_In_r _ _ _ _ Els Hl) as (f & Hf & Hin).
      now exists f, l, v. }
  split; [reflexivity|]. split.
  { unfold n. rewrite <- (map_option_length _ _ _ Ecs). apply filter_partition3.
    apply confidence_bins_partition. }
  unfold n. rewrite !Qltb_frac by exact Hn. unfold qnat.
  change (1 # 10) with (1 # Z.to_pos 10). change (3 # 10) with (3 # Z.to_pos 10).
  rewrite !Qltb_nat_scaled by lia.
  rewrite Qltb_zero_scaled.
  fold n. rewrite <- (existsb_critical_iff all) in Hcrit.
  destruct (existsb _ critical_violations) eqn:Ec.
  - assert (HC : critical) by (apply Hcrit; reflexivity).
    destruct (Z.ltb_spec (1 * Z.of_nat n) (Z.of_nat high * 10)),
             (Z.ltb_spec 0 (Z.of_nat high)),
             (Z.ltb_spec (3 * Z.of_nat n) (Z.of_nat medium * 10)),
             (Z.ltb_spec (1 * Z.of_nat n) (Z.of_nat medium * 10)); simpl;
    repeat split; intros; try discriminate; try lia; try tauto.
  - assert (HC : ~ critical) by (rewrite Hcrit; discriminate).
    destruct (Z.ltb_spec (1 * Z.of_nat n) (Z.of_nat high * 10)),
             (Z.ltb_spec 0 (Z.of_nat high)),
             (Z.ltb_spec (3 * Z.of_nat n) (Z.of_nat medium * 10)),
             (Z.ltb_spec (1 * Z.of_nat n) (Z.of_nat medium * 10)); simpl;
    repeat split; intros; try discriminate; try lia; try tauto; intuition lia.
Qed.

Lemma concat_option_Some {A} (ls : option (list (list A))) l :
  concat_option ls = Some l -> exists ls', ls = Some ls' /\ l = List.concat ls'.
Proof. destruct ls as [ls'|]; simpl; intros H; [|discriminate]. injection H as <-. now exists ls'. Qed.

Lemma nearby_segments_In segments t c :
  In c (nearby_segments segments t) ->
  exists seg, In seg segments /\ ts_is_hallucination seg = false /\
    Qabs (ts_start_time seg - t) <= 30 /\
    c = mkNearbySegment (ts_start_time seg) (ts_end_time seg) (ts_text seg)
          (ts_confidence seg) (ts_start_time seg - t).
Proof.
  unfold nearby_segments. intros Hc. apply In_sort_by_key in Hc.
  apply in_map_iff in Hc. destruct Hc as (seg & <- & Hseg). apply filter_In in Hseg.
  destruct Hseg as [Hin Hb]. apply andb_true_iff in Hb. destruct Hb as [Hh Hle].
  exists seg. apply negb_true_iff in Hh. apply Qle_bool_iff in Hle. auto.
Qed.

Lemma nearby_segments_head segments t c rest :
  nearby_segments segments t = c :: rest ->
  forall seg, In seg segments -> ts_is_hallucination seg = false ->
    Qabs (ts_start_time seg - t) <= 30 -> Qabs (ns_time_offset c) <= Qabs (ts_start_time seg - t).
Proof.
  intros E seg Hin Hh Hle.
  assert (HS : Sorted (fun x y => Qle_bool (Qabs (ns_time_offset x)) (Qabs (ns_time_offset y)) = true)
                 (c :: rest)) by (rewrite <- E; apply sort_by_key_Sorted).
  apply Sorted_StronglySorted in HS.
  2:{ intros x y z Hxy Hyz. apply Qle_bool_iff in Hxy, Hyz. apply Qle_bool_iff. eapply Qle_trans; eassumption. }
  set (n := mkNearbySegment (ts_start_time seg) (ts_end_time seg) (ts_text seg)
              (ts_confidence seg) (ts_start_time seg - t)).
  assert (Hn : In n (c :: rest)).
  { rewrite <- E. unfold nearby_segments. eapply Permutation_in; [symmetry; apply sort_by_key_perm|].
    unfold n. apply in_map_iff. exists seg. split; [reflexivity|]. apply filter_In. split; [exact Hin|]. rewrite Hh. simpl. now apply Qle_bool_iff. }
  destruct Hn as [Hn|Hn].
  - rewrite Hn. apply Qle_refl.
  - inversion HS as [|? ? _ Hall]. rewrite Forall_forall in Hall.
    apply Qle_bool_iff. exact (Hall n Hn).
Qed.

Lemma frame_violations_facts audio_result f l :
  frame_violations audio_result f = Some l ->
  List.length l = (if py_truthy (py_get f "concerns_detected" (VBool false))
                   then match iter_of (py_get f "potential_violations" (VStrs [])) with
                        | Some vs => List.length vs | None => 0 end
                   else 0)%nat /\
  forall v, In v l ->
    py_truthy (py_get f "concerns_detected" (VBool false)) = true /\
    (exists vs, iter_of (py_get f "potential_violations" (VStrs [])) = Some vs /\ In (ev_type v) vs) /\
    ev_priority_score v <= 1 /\
    py_index f "timestamp" = Some (ev_timestamp v) /\
    (forall ac, ev_audio_context v = Some ac ->
       exists segments t, audio_result = Some segments /\ num_of (ev_timestamp v) = Some t /\
         exists rest, nearby_segments segments t = ac_closest_segment ac :: rest /\
           ac_all_nearby_segments ac = firstn 3 (ac_closest_segment ac :: rest)).
Proof.
  unfold frame_violations. intros H.
  destruct (py_truthy (py_get f "concerns_detected" (VBool false))) eqn:Ec; simpl in H.
  2:{ injection H as <-. split; [reflexivity|]. intros v []. }
  destruct (py_index f "timestamp") as [ts|] eqn:Ets; [|discriminate].
  destruct (iter_of (py_get f "potential_violations" (VStrs []))) as [vs|] eqn:Evs; [|discriminate].
  split; [exact (map_option_length _ _ _ H)|].
  intros v Hv. destruct (map_option_In_r _ _ _ _ H Hv) as (w & Hw & Hin).
  unfold enhanced_violation in Hw.
  destruct (audio_context_at audio_result ts) as [actx|] eqn:Ea; [|discriminate].
  destruct (py_index f "timestamp_formatted"), (py_index f "frame_number"),
           (py_slice_200 (py_get f "analysis_text" (VStr ""))); try discriminate.
  destruct (priority_confidence f), (priority_severity f); try discriminate.
  injection Hw as <-. cbn [ev_type ev_priority_score ev_timestamp ev_audio_context].
  split; [reflexivity|]. split; [now exists vs|]. split; [apply py_min_1_le|].
  split; [reflexivity|].
  intros ac Hac. subst actx. unfold audio_context_at in Ea.
  destruct audio_result as [[|s0 ss]|]; try discriminate.
  destruct (existsb _ _); [|discriminate].
  destruct (num_of ts) as [t|] eqn:Et; [|discriminate].
  destruct (nearby_segments (s0 :: ss) t) as [|c rest] eqn:En; [discriminate|].
  injection Ea as <-. exists (s0 :: ss), t. cbn [ac_closest_segment ac_all_nearby_segments].
  split; [reflexivity|]. split; [reflexivity|]. now exists rest.
Qed.

Lemma list_sum_concat_length {A} (ls : list (list A)) :
  List.length (List.concat ls) = list_sum (map (@List.length A) ls).
Proof. induction ls as [|l ls IH]; simpl; [reflexivity|]. rewrite length_app. now rewrite IH. Qed.

(** X8. The violations found with audio context: one per potential violation
    of each frame with concerns, highest priority first, each priority at
    most 1; the closest audio segment attached to a violation is a
    non-hallucinated segment within 30 seconds of its frame, and no such
    segment is closer. *)
Theorem detect_violations_with_audio_context_facts frame_analyses audio_result vs :
  detect_violations_with_audio_context frame_analyses audio_result = Some vs ->
  List.length vs =
    list_sum (map (fun f => if py_truthy (py_get f "concerns_detected" (VBool false))
                            then match iter_of (py_get f "potential_violations" (VStrs [])) with
                                 | Some l => List.length l | None => 0 end
                            else 0)%nat frame_analyses) /\
  Sorted (fun x y => ev_priority_score y <= ev_priority_score x) vs /\
  forall v, In v vs ->
    ev_priority_score v <= 1 /\
    (exists f l, In f frame_analyses /\
       py_truthy (py_get f "concerns_detected" (VBool false)) = true /\
       iter_of (py_get f "potential_violations" (VStrs [])) = Some l /\ In (ev_type v) l /\
       py_index f "timestamp" = Some (ev_timestamp v)) /\
    (forall ac, ev_audio_context v = Some ac ->
       exists segments t, audio_result = Some segments /\ num_of (ev_timestamp v) = Some t /\
         In (ac_closest_segment ac) (ac_all_nearby_segments ac) /\
         (List.length (ac_all_nearby_segments ac) <= 3)%nat /\
         (exists seg, In seg segments /\ ts_is_hallucination seg = false /\
            Qabs (ts_start_time seg - t) <= 30 /\
            ns_start_time (ac_closest_segment ac) = ts_start_time seg /\
            ns_text (ac_closest_segment ac) = ts_text seg /\
            ns_time_offset (ac_closest_segment ac) = ts_start_time seg - t) /\
         forall seg, In seg segments -> ts_is_hallucination seg = false ->
           Qabs (ts_start_time seg - t) <= 30 ->
           Qabs (ns_time_offset (ac_closest_segment ac)) <= Qabs (ts_start_time seg - t)).
Proof.
  unfold detect_violations_with_audio_context. intros H.
  destruct (concat_option (map_option (frame_violations audio_result) frame_analyses))
    as [all|] eqn:Eall; [|discriminate].
  injection H as <-.
  apply concat_option_Some in Eall. destruct Eall as (ls & Els & ->).
  split; [|split].
  - rewrite (Permutation_length (sort_by_key_desc_perm _ _)), list_sum_concat_length.
    f_equal. clear -Els. revert ls Els. induction frame_analyses as [|f fs IH]; intros ls Els.
    + simpl in Els. injection Els as <-. reflexivity.
    + simpl in Els. destruct (frame_violations audio_result f) as [l|] eqn:Ef; [|discriminate].
      destruct (map_option (frame_violations audio_result) fs) as [ls'|] eqn:Efs; [|discriminate].
      injection Els as <-. simpl. rewrite (IH ls' eq_refl). f_equal.
      exact (proj1 (frame_violations_facts _ _ _ Ef)).
  - eapply Sorted_weaken; [|apply stable_sort_Sorted; intros x y; apply Qle_bool_total].
    intros x y Hxy. simpl in Hxy. now apply Qle_bool_iff.
  - intros v Hv. apply In_sort_by_key_desc in Hv. apply in_concat in Hv.
    destruct Hv as (l & Hl & Hv).
    destruct (map_option_In_r _ _ _ _ Els Hl) as (f & Ef & Hf).
    destruct (proj2 (frame_violations_facts _ _ _ Ef) v Hv)
      as (Hc & (l' & Hl' & Hin) & Hp & Hts & Hac).
    split; [exact Hp|]. split; [now exists f, l'|].
    intros ac Hac'. destruct (Hac ac Hac') as (segments & t & Har & Ht & rest & En & Eall).
    exists segments, t. split; [exact Har|]. split; [exact Ht|].
    split; [rewrite Eall; now left|].
    split; [rewrite Eall, length_firstn; lia|].
    split.
    + destruct (nearby_segments_In segments t (ac_closest_segment ac)) as (seg & Hs & Hh & Hd & Eq).
      { rewrite En. now left. }
      exists seg. rewrite Eq. simpl. repeat split; assumption.
    + exact (nearby_segments_head segments t _ rest En).
Qed.

Lemma map_option_const {A B} (f : A -> option B) (b : B) l :
  (forall x, In x l -> f x = Some b) -> map_option f l = Some (map (fun _ => b) l).
Proof.
  induction l as [|x xs IH]; intros H; simpl; [reflexivity|].
  rewrite (H x (or_introl eq_refl)), IH by (intros; apply H; now right). reflexivity.
Qed.

Lemma filter_const {A B} (p : B -> bool) (b : B) (l : list A) :
  filter p (map (fun _ => b) l) = if p b then map (fun _ => b) l else [].
Proof. induction l as [|x xs IH]; simpl; [now destruct (p b)|]. rewrite IH. now destruct (p b). Qed.

Lemma filter_none {A} (p : A -> bool) l : (forall x, In x l -> p x = false) -> filter p l = [].
Proof.
  induction l as [|x xs IH]; intros H; simpl; [reflexivity|].
  rewrite (H x (or_introl eq_refl)). apply IH. intros; apply H; now right.
Qed.

Lemma concat_nil_map {A B} (l : list A) : List.concat (map (fun _ => @nil B) l) = [].
Proof. induction l; simpl; auto. Qed.

Lemma py_sum_zeros {A} (l : list A) : py_sum (map (fun _ => 0) l) == 0.
Proof.
  unfold py_sum. induction l as [|x xs IH]; simpl; [reflexivity|].
  rewrite fold_left_Qplus. rewrite IH. reflexivity.
Qed.

(** The frame analysis of [analyze_video_comprehensive_with_audio] when
    every provider fails. *)
Lemma failed_frame_analysis_fields extract_key_objects extract_officer_actions
  extract_civilian_actions extract_scene_description assess_prof fd :
  let f := frame_analysis extract_enhanced_violations extract_key_objects extract_officer_actions
             extract_civilian_actions extract_scene_description assess_prof fd all_providers_failed_result in
  py_get f "confidence" (VNum 0) = VNum 0 /\
  py_get f "potential_violations" (VStrs []) = VStrs [] /\
  py_get f "severity_level" (VStr "low") = VStr "low" /\
  py_get f "concerns_detected" (VBool false) = VBool false.
Proof. vm_compute. repeat split. Qed.

(** X9. When every provider fails for every frame, the frame analyses
    yield no violation, and the summary of a non-empty video of non-zero
    duration reports severity "low", no concerns, no violations, every
    frame in the low-confidence bin and an average confidence of 0. *)
Theorem all_providers_fail_pipeline provider_configs analyze_frame_with_provider
  create_enhanced_bodycam_prompt extract_key_objects extract_officer_actions
  extract_civilian_actions extract_scene_description frames_data audio_result
  format_1f video_info has_timestamps :
  (forall f p c, analyze_frame_with_provider f p c = None) ->
  let frame_analyses :=
    analyze_frames provider_configs analyze_frame_with_provider create_enhanced_bodycam_prompt
      extract_enhanced_violations extract_key_objects extract_officer_actions
      extract_civilian_actions extract_scene_description (fun t => VStr (assess_professionalism t))
      frames_data in
  detect_violations_with_audio_context frame_analyses audio_result = Some [] /\
  (frames_data <> [] -> ~ vi_duration (vs_info video_info) == 0 ->
   exists s, generate_comprehensive_summary format_1f frame_analyses video_info has_timestamps
               = Some (SummaryDict s) /\
     sm_severity_assessment s = "low" /\ sm_concerns_found s = false /\
     sm_violations_detected s = [] /\
     sm_confidence_distribution s = (0, 0, List.length frames_data)%nat /\
     sm_average_confidence s == 0).
Proof.
  intros Hfail frame_analyses.
  assert (Efa : frame_analyses =
            map (fun fd => frame_analysis extract_enhanced_violations extract_key_objects
                   extract_officer_actions extract_civilian_actions extract_scene_description
                   (fun t => VStr (assess_professionalism t)) fd all_providers_failed_result) frames_data).
  { subst frame_analyses. unfold analyze_frames. apply map_ext. intros fd.
    unfold analyze_frame. now rewrite try_providers_all_fail. }
  assert (Hf : forall f, In f frame_analyses ->
            py_get f "confidence" (VNum 0) = VNum 0 /\
            py_get f "potential_violations" (VStrs []) = VStrs [] /\
            py_get f "severity_level" (VStr "low") = VStr "low" /\
            py_get f "concerns_detected" (VBool false) = VBool false).
  { intros f Hin. rewrite Efa in Hin. apply in_map_iff in Hin. destruct Hin as (fd & <- & _).
    apply failed_frame_analysis_fields. }
  clearbody frame_analyses. split.
  - unfold detect_violations_with_audio_context.
    rewrite (map_option_const _ []).
    2:{ intros f Hin. unfold frame_violations. now rewrite (proj2 (proj2 (proj2 (Hf f Hin)))). }
    simpl. now rewrite concat_nil_map.
  - intros Hne Hd.
    assert (Hlen : List.length frame_analyses = List.length frames_data) by (rewrite Efa; apply length_map).
    rewrite <- Hlen. clear Efa.
    unfold generate_comprehensive_summary.
    destruct frame_analyses as [|f0 fs] eqn:E; [destruct frames_data; [contradiction|discriminate Hlen]|].
    rewrite <- E in *. clear Hlen.
    rewrite (map_option_const _ 0) by (intros f Hin; now rewrite (proj1 (Hf f Hin))).
    rewrite (map_option_const _ []) by (intros f Hin; now rewrite (proj1 (proj2 (Hf f Hin)))).
    rewrite (map_option_const severity_key (VStr "low"))
      by (intros f Hin; unfold severity_key; now rewrite (proj1 (proj2 (proj2 (Hf f Hin))))).
    rewrite (filter_none _ frame_analyses)
      by (intros f Hin; now rewrite (proj2 (proj2 (proj2 (Hf f Hin))))).
    unfold concat_option. simpl option_map. rewrite concat_nil_map.
    rewrite !filter_const.
    destruct (Qeq_bool (vi_duration (vs_info video_info)) 0) eqn:Eq.
    { apply Qeq_bool_iff in Eq. contradiction. }
    eexists. split; [reflexivity|]. cbn.
    unfold count_severity. rewrite !filter_const. rewrite !length_map. cbn.
    split; [|repeat split].
    + destruct (Datatypes.length frame_analyses); vm_compute; reflexivity.
    + rewrite py_sum_zeros. unfold Qdiv. apply Qmult_0_l.
Qed.

Lemma combine_and_deduplicate_nil fv av : combine_and_deduplicate fv av = [] <-> fv ++ av = [].
Proof.
  split; intros H.
  - destruct (combine_and_deduplicate_groups fv av) as (Hf & Hout & _).
    rewrite H in Hout. destruct (groups_of (sort_by_key v_timestamp (fv ++ av))) eqn:E;
      [|discriminate]. unfold flatten_groups in Hf. simpl in Hf.
    symmetry in Hf. apply stable_sort_nil in Hf. exact Hf.
  - unfold combine_and_deduplicate. now rewrite H.
Qed.

(** The types of the deduplicated violations are the types of all
    violations: a merge only drops a violation of the kept one's type. *)
Lemma combine_and_deduplicate_types fv av t :
  In t (map v_type (combine_and_deduplicate fv av)) <-> exists v, In v (fv ++ av) /\ v_type v = t.
Proof.
  destruct (combine_and_deduplicate_groups fv av) as (Hf & Hout & Hm & _).
  set (gs := groups_of _) in *. rewrite Hout, map_map. split.
  - intros Hin. apply in_map_iff in Hin. destruct Hin as (g & Ht & Hg).
    exists (fst g). split.
    + eapply Permutation_in; [apply sort_by_key_perm|]. rewrite <- Hf.
      unfold flatten_groups. apply in_flat_map. exists g. split; [exact Hg|now left].
    + rewrite <- Ht. symmetry. apply summarize_type.
  - intros (v & Hv & <-).
    eapply Permutation_in in Hv; [|symmetry; apply sort_by_key_perm]. rewrite <- Hf in Hv.
    unfold flatten_groups in Hv. apply in_flat_map in Hv. destruct Hv as (g & Hg & Hv).
    apply in_map_iff. exists g. split; [|exact Hg]. rewrite summarize_type.
    destruct Hv as [<-|Hv]; [reflexivity|].
    rewrite Forall_forall in Hm. specialize (Hm g Hg). rewrite Forall_forall in Hm.
    symmetry. exact (proj1 (Hm v Hv)).
Qed.

(** X10. [analyze] of the violation analysis service keeps the combined,
    de-duplicated violations in their order (already by timestamp), lists
    in the summary exactly the types of the input violations, finds
    concerns exactly when some violation was given, and assesses "high"
    exactly when a high-severity violation is in the timeline. *)
Theorem analyze_violations_summary fv av old_average frame_confidences timeline summary :
  analyze_violations fv av old_average frame_confidences = Some (timeline, summary) ->
  timeline = combine_and_deduplicate fv av /\
  (forall t, In t (ss_violations_detected summary) <-> exists v, In v (fv ++ av) /\ v_type v = t) /\
  (ss_concerns_found summary = true <-> fv ++ av <> []) /\
  (ss_severity_assessment summary = "high" <-> exists v, In v timeline /\ v_severity v = "high").
Proof.
  unfold analyze_violations. intros H.
  assert (Et : sort_by_key v_timestamp (combine_and_deduplicate fv av) = combine_and_deduplicate fv av).
  { destruct (combine_and_deduplicate_groups fv av) as (_ & Hout & _ & Hsort & _).
    rewrite Hout. apply sort_by_key_id. now apply sorted_map_summarize. }
  rewrite Et in H.
  destruct (update_summary old_average (combine_and_deduplicate fv av) frame_confidences)
    as [s|] eqn:Es; [|discriminate].
  injection H as <- <-.
  assert (Hs : ss_severity_assessment s =
                 (if existsb (fun v => String.eqb (v_severity v) "high") (combine_and_deduplicate fv av)
                  then "high"
                  else if existsb (fun v => String.eqb (v_severity v) "medium") (combine_and_deduplicate fv av)
                  then "medium" else "low") /\
               ss_violations_detected s = nodup string_dec (map v_type (combine_and_deduplicate fv av)) /\
               ss_concerns_found s = (0 <? List.length (combine_and_deduplicate fv av))%nat).
  { unfold update_summary in Es. destruct frame_confidences as [|c cs].
    - injection Es as <-. auto.
    - destruct (map_option num_of (c :: cs)); [|discriminate]. injection Es as <-. auto. }
  destruct Hs as (Hsev & Htypes & Hconc).
  split; [reflexivity|]. split; [|split].
  - intros t. rewrite Htypes, nodup_In. apply combine_and_deduplicate_types.
  - rewrite Hconc, Nat.ltb_lt. rewrite <- combine_and_deduplicate_nil.
    destruct (combine_and_deduplicate fv av); simpl; split; intros; try lia; congruence.
  - rewrite Hsev. destruct (existsb _ (combine_and_deduplicate fv av)) eqn:Eh.
    + apply existsb_exists in Eh. destruct Eh as (v & Hv & Ev). apply String.eqb_eq in Ev.
      split; [intros _; now exists v|reflexivity].
    + split.
      * intros E. destruct (existsb (fun v => String.eqb (v_severity v) "medium") (combine_and_deduplicate fv av)); apply (f_equal (fun s => String.eqb s "high")) in E; vm_compute in E; discriminate E.
      * intros (v & Hv & Ev). rewrite <- Ev in Eh.
        assert (Hc : existsb (fun v0 => String.eqb (v_severity v0) (v_severity v))
                       (combine_and_deduplicate fv av) = true).
        { apply existsb_exists. exists v. split; [exact Hv|apply String.eqb_refl]. }
        rewrite Ev in Hc. rewrite Ev in Eh. congruence.
Qed.

Lemma flag_if_false (b : bool) st r :
  fst (if b then flag st r else st) = false -> b = false /\ fst st = false.
Proof. destruct b; simpl; [discriminate|auto]. Qed.

Lemma fold_patterns_false (re_search : string -> string -> bool) (text : string)
  (patterns : list string) (st : bool * list string) :
  fst (fold_left (fun (st : bool * list string) (pattern : string) =>
         if re_search pattern text then flag st ("Suspicious pattern: " ++ pattern)%string else st)
       patterns st) = false ->
  fst st = false /\ forall p, In p patterns -> re_search p text = false.
Proof.
  revert st. induction patterns as [|p ps IH]; intros st H; simpl in H.
  - split; [exact H|intros p []].
  - destruct (IH _ H) as [H1 H2]. apply flag_if_false in H1. destruct H1 as [Hp Hst].
    split; [exact Hst|]. intros q [<-|Hq]; [exact Hp|now apply H2].
Qed.

(** X12. A segment the transcription keeps unflagged passed every check of
    [detect_hallucinations] and of the loop. *)
Theorem transcribe_unflagged_segment_checks re_search format_fixed np_exp whisper_transcribe segs t :
  In t (transcribe_audio_segments re_search format_fixed np_exp whisper_transcribe segs) ->
  ts_is_hallucination t = false ->
  (ts_language t = "en" \/ ts_language t = "english") /\
  4 # 10 <= ts_confidence t /\
  ts_text t <> "" /\
  (forall p, In p hallucination_patterns -> re_search p (lower (ts_text t)) = false) /\
  exists seg, In seg segs /\ ts_start_time t = as_start_time seg /\
    ~ as_duration seg == 0 /\
    qnat (List.length (py_split (ts_text t))) / as_duration seg <= 4 /\
    qnat (List.length (py_split (ts_text t))) <= 5 * as_duration seg.
Proof.
  unfold transcribe_audio_segments. intros Hin Hh. apply in_flat_map in Hin.
  destruct Hin as (seg & Hseg & Ht).
  destruct (transcribe_segment re_search format_fixed np_exp whisper_transcribe seg) as [t'|] eqn:E;
    [|destruct Ht].
  destruct Ht as [<-|[]].
  unfold transcribe_segment in E.
  destruct (whisper_transcribe seg) as [r|]; [|discriminate]. cbv zeta in E.
  destruct (String.eqb _ "") eqn:Et; [discriminate|].
  destruct (Qeq_bool (as_duration seg) 0) eqn:Ed; [discriminate|].
  injection E as <-. cbn [ts_is_hallucination ts_language ts_confidence ts_text ts_start_time] in *.
  set (text := py_strip _) in *.
  set (language := match wr_language r with Some l => l | None => "en" end) in *.
  set (confidence := match wr_segments r with Some ((_ :: _) as segs) => _ | _ => _ end) in *.
  apply flag_if_false in Hh. destruct Hh as [Hrate Hh].
  apply flag_if_false in Hh. destruct Hh as [Hlang Hh].
  unfold detect_hallucinations in Hh. cbv zeta in Hh.
  apply flag_if_false in Hh. destruct Hh as [Hfill Hh].
  apply flag_if_false in Hh. destruct Hh as [Hunreal Hh].
  destruct (3 <? _)%nat; [apply flag_if_false in Hh; destruct Hh as [_ Hh]|].
  all: apply flag_if_false in Hh; destruct Hh as [Hconf Hh];
       apply fold_patterns_false in Hh; destruct Hh as [_ Hpat].
  all: split; [apply andb_false_iff in Hlang; destruct Hlang as [H|H];
               apply negb_false_iff, String.eqb_eq in H; auto|].
  all: split; [now apply Qltb_false_iff in Hconf|].
  all: split; [now apply String.eqb_neq in Et|].
  all: split; [exact Hpat|].
  all: exists seg; split; [exact Hseg|]; split; [reflexivity|].
  all: split; [intros H; apply Qeq_bool_iff in H; congruence|].
  all: split; [now apply Qltb_false_iff in Hrate|].
  all: apply Qltb_false_iff in Hunreal; lra.
Qed.

Lemma speech_before_trans a b c : speech_before a b -> speech_before b c -> speech_before a c.
Proof. unfold speech_before. intros (H1 & H2 & H3) (H4 & H5 & H6). repeat split; try assumption; lra. Qed.

Lemma sorted_speech_before l :
  Sorted (fun x y => Qle_bool (as_start_time x) (as_start_time y) = true) l -> NoDup l ->
  (forall a b, In a l -> In b l -> a <> b ->
     as_end_time a <= as_start_time b \/ as_end_time b <= as_start_time a) ->
  (forall a, In a l -> as_start_time a < as_end_time a) ->
  Sorted speech_before l.
Proof.
  induction 1 as [|a l Hs IH Hhd]; intros Hnd Hdisj Hpos; constructor.
  - apply IH; [now inversion Hnd| |].
    + intros x y Hx Hy. apply Hdisj; now right.
    + intros x Hx. apply Hpos. now right.
  - destruct Hhd as [|b l' Hab]; constructor.
    apply Qle_bool_iff in Hab.
    assert (Hne : a <> b) by (intros ->; inversion Hnd; subst; apply H1; now left).
    assert (Ha := Hpos a (or_introl eq_refl)). assert (Hb := Hpos b (or_intror (or_introl eq_refl))).
    destruct (Hdisj a b (or_introl eq_refl) (or_intror (or_introl eq_refl)) Hne) as [H|H].
    + repeat split; assumption.
    + exfalso. lra.
Qed.

Lemma StronglySorted_split {A} (R : A -> A -> Prop) l1 x l2 :
  StronglySorted R (l1 ++ x :: l2) ->
  (forall y, In y l1 -> R y x) /\ (forall y, In y l2 -> R x y).
Proof.
  induction l1 as [|z l1 IH]; simpl; intros H.
  - inversion H as [|? ? _ Hall]. split; [intros y []|]. now apply Forall_forall.
  - inversion H as [|? ? Hs Hall]; subst. destruct (IH Hs) as [H1 H2]. split; [|exact H2].
    intros y [<-|Hy]; [|now apply H1]. rewrite Forall_forall in Hall. apply Hall.
    apply in_or_app. right. now left.
Qed.

Lemma noise_gaps_In l n :
  In n (noise_gaps l) ->
  exists pre a b post, l = pre ++ a :: b :: post /\
    n = mkTimeSegment (as_end_time a) (as_start_time b) (as_start_time b - as_end_time a) /\
    1 # 2 < as_start_time b - as_end_time a.
Proof.
  induction l as [|a l IH]; simpl; [intros []|].
  destruct l as [|b l]; [intros []|]. intros Hn. apply in_app_or in Hn. destruct Hn as [Hn|Hn].
  - destruct (Qltb (1 # 2) (as_start_time b - as_end_time a)) eqn:E; [|destruct Hn].
    destruct Hn as [<-|[]]. exists [], a, b, l. split; [reflexivity|]. split; [reflexivity|].
    now apply Qltb_iff.
  - destruct (IH Hn) as (pre & x & y & post & El & En & Hd).
    exists (a :: pre), x, y, post. rewrite El. auto.
Qed.

Lemma last_split {A} (l : list A) d : l <> [] -> exists pre, l = pre ++ [last l d].
Proof.
  induction l as [|x l IH]; intros H; [contradiction|].
  destruct l as [|y l]; [now exists []|].
  destruct IH as (pre & E); [discriminate|]. exists (x :: pre). simpl in *. now rewrite E at 1.
Qed.

(** X11. When there is at least one speech segment, and the speech
    segments have positive length, lie within the audio and do not overlap
    one another, every noise segment reported has the duration
    [end - start] of more than half a second, lies within the audio, and
    overlaps no speech segment.  (With no speech segment the code returns
    the single segment [0, total_duration], of any length.) *)
Theorem identify_noise_segments_disjoint total_duration speech_segments :
  speech_segments <> [] -> NoDup speech_segments ->
  (forall a b, In a speech_segments -> In b speech_segments -> a <> b ->
     as_end_time a <= as_start_time b \/ as_end_time b <= as_start_time a) ->
  (forall s, In s speech_segments ->
     0 <= as_start_time s /\ as_start_time s < as_end_time s /\ as_end_time s <= total_duration) ->
  forall n, In n (identify_noise_segments (Some total_duration) speech_segments) ->
    0 <= seg_start n /\ seg_end n <= total_duration /\
    seg_duration n == seg_end n - seg_start n /\ 1 # 2 < seg_duration n /\
    forall s, In s speech_segments -> seg_end n <= as_start_time s \/ as_end_time s <= seg_start n.
Proof.
  intros Hne Hnd Hdisj Hb n Hn.
  destruct speech_segments as [|s0 ss] eqn:Es; [contradiction|]. rewrite <- Es in *.
  unfold identify_noise_segments in Hn. rewrite Es in Hn. rewrite <- Es in Hn.
  set (L := sort_by_key as_start_time speech_segments) in *.
  assert (HP : Permutation L speech_segments) by apply sort_by_key_perm.
  assert (HinL : forall s, In s L <-> In s speech_segments)
    by (intros s; split; apply Permutation_in; [exact HP|symmetry; exact HP]).
  assert (HS : StronglySorted speech_before L).
  { apply Sorted_StronglySorted; [intros a b c; apply speech_before_trans|].
    apply sorted_speech_before.
    - apply sort_by_key_Sorted.
    - eapply Permutation_NoDup; [symmetry; exact HP|exact Hnd].
    - intros a b Ha Hb' Hab. apply HinL in Ha, Hb'. now apply Hdisj.
    - intros a Ha. apply HinL in Ha. apply Hb, Ha. }
  assert (HLne : L <> []).
  { intros E. rewrite E in HP. apply Permutation_nil in HP. rewrite Es in HP. discriminate. }
  apply in_app_or in Hn. destruct Hn as [Hn|Hn]; [|apply in_app_or in Hn; destruct Hn as [Hn|Hn]].
  - (* noise before the first speech segment *)
    set (f := hd s0 L) in *.
    destruct (Qltb (1 # 2) (as_start_time f)) eqn:E; [|destruct Hn].
    destruct Hn as [<-|[]]. apply Qltb_iff in E. simpl.
    assert (HfL : L = f :: tl L) by (destruct L; [contradiction|reflexivity]).
    assert (Hf : In f speech_segments) by (apply HinL; rewrite HfL; now left).
    destruct (Hb f Hf) as (Hf1 & Hf2 & Hf3).
    split; [apply Qle_refl|]. split; [lra|]. split; [ring|]. split; [exact E|].
    intros s Hs. left. apply HinL in Hs. rewrite HfL in Hs, HS. destruct Hs as [<-|Hs]; [apply Qle_refl|].
    inversion HS as [|? ? _ Hall]. rewrite Forall_forall in Hall.
    destruct (Hall s Hs) as (H1 & H2 & H3). lra.
  - (* a gap between consecutive speech segments *)
    destruct (noise_gaps_In L n Hn) as (pre & a & b & post & EL & -> & Hd). simpl.
    assert (Ha : In a speech_segments) by (apply HinL; rewrite EL; apply in_or_app; right; now left).
    assert (Hb2 : In b speech_segments)
      by (apply HinL; rewrite EL; apply in_or_app; right; right; now left).
    destruct (Hb a Ha) as (Ha1 & Ha2 & Ha3). destruct (Hb b Hb2) as (Hb1' & Hb2' & Hb3').
    split; [lra|]. split; [lra|]. split; [apply Qeq_refl|]. split; [exact Hd|].
    intros s Hs. apply HinL in Hs. rewrite EL in Hs, HS.
    destruct (StronglySorted_split _ _ _ _ HS) as [Hpre Hpost].
    assert (HS' : StronglySorted speech_before ((pre ++ [a]) ++ b :: post)) by (now rewrite <- app_assoc).
    destruct (StronglySorted_split _ _ _ _ HS') as [Hpre' Hpost'].
    apply in_app_or in Hs. destruct Hs as [Hs|[<-|[<-|Hs]]].
    + right. destruct (Hpre s Hs) as (H1 & H2 & H3). lra.
    + right. apply Qle_refl.
    + left. apply Qle_refl.
    + left. destruct (Hpost' s Hs) as (H1 & H2 & H3). lra.
  - (* noise after the last speech segment *)
    set (z := last L s0) in *.
    destruct (Qltb (1 # 2) (total_duration - as_end_time z)) eqn:E; [|destruct Hn].
    destruct Hn as [<-|[]]. apply Qltb_iff in E. simpl.
    destruct (last_split L s0 HLne) as (pre & EL). fold z in EL.
    assert (Hz : In z speech_segments) by (apply HinL; rewrite EL; apply in_or_app; right; now left).
    destruct (Hb z Hz) as (Hz1 & Hz2 & Hz3).
    split; [lra|]. split; [apply Qle_refl|]. split; [apply Qeq_refl|]. split; [exact E|].
    intros s Hs. right. apply HinL in Hs. rewrite EL in Hs, HS.
    destruct (StronglySorted_split _ _ _ _ HS) as [Hpre _].
    apply in_app_or in Hs. destruct Hs as [Hs|[<-|[]]]; [|apply Qle_refl].
    destruct (Hpre s Hs) as (H1 & H2 & H3). lra.
Qed.

Lemma py_min_le_1 a : py_min a 1 <= 1.
Proof.
  unfold py_min. destruct (Qltb 1 a) eqn:E; [apply Qle_refl|apply Qltb_false_iff in E; exact E].
Qed.

Lemma clamp_bounds x : 1 # 10 <= py_min (py_max x (1 # 10)) 1 <= 1.
Proof.
  unfold py_min, py_max.
  destruct (Qltb x (1 # 10)) eqn:E1; [apply Qltb_iff in E1|apply Qltb_false_iff in E1];
  [destruct (Qltb 1 (1 # 10)) eqn:E2|destruct (Qltb 1 x) eqn:E2];
  try (apply Qltb_iff in E2); try (apply Qltb_false_iff in E2); split; lra.
Qed.

Ltac case_qltb :=
  match goal with
  | |- context [Qltb ?a ?b] =>
      let E := fresh "E" in
      destruct (Qltb a b) eqn:E; [apply Qltb_iff in E|apply Qltb_false_iff in E]
  end.

Lemma Qabs_le_bound x : 1 # 10 <= x -> x <= 5 # 10 -> Qabs (x - (2 # 10)) <= 3 # 10.
Proof. intros H1 H2. apply Qabs_Qle_condition. split; lra. Qed.

Lemma prefix_app_l q a s : prefix (q ++ a) s = true -> prefix q s = true.
Proof.
  revert s. induction q as [|c q IH]; intros s H; [destruct s; reflexivity|].
  destruct s as [|d s]; [discriminate H|]. simpl in *.
  destruct (ascii_dec c d); [apply IH; exact H|discriminate H].
Qed.

Lemma contains_prefix q a s : contains (q ++ a) s = true -> contains q s = true.
Proof.
  induction s as [|c s IH]; intros H.
  - destruct q; [reflexivity|]. simpl in H. destruct ((q ++ a)%string); discriminate H.
  - cbn [contains] in H |- *. apply orb_true_iff in H. apply orb_true_iff.
    destruct H as [H|H]; [left; eapply prefix_app_l; exact H|right; apply IH; exact H].
Qed.

Lemma In_map_filter {A B} (f : A -> B) (p : A -> bool) x l :
  In x (map f (filter p l)) -> In x (map f l).
Proof.
  induction l as [|a l IH]; simpl; [auto|]. destruct (p a); simpl; intuition.
Qed.

Lemma In_map_filter_head {A B} (f : A -> B) (p : A -> bool) x l y :
  f x = y -> ~ In y (map f l) -> (In y (map f (filter p (x :: l))) <-> p x = true).
Proof.
  intros Hx Hn. simpl. destruct (p x); simpl; split; auto.
  - intros Hin. exfalso. apply Hn. eapply In_map_filter. exact Hin.
  - discriminate.
Qed.

Lemma NoDup_map_filter {A B} (f : A -> B) (p : A -> bool) l :
  NoDup (map f l) -> NoDup (map f (filter p l)).
Proof.
  induction l as [|a l IH]; simpl; intros H; [constructor|].
  inversion H as [|? ? Hn Hnd]; subst. destruct (p a); [simpl; constructor|]; auto.
  intros Hin. apply Hn. eapply In_map_filter. exact Hin.
Qed.

Lemma count_char_app c a b : count_char c (a ++ b) = (count_char c a + count_char c b)%nat.
Proof. induction a as [|d a IH]; simpl; [reflexivity|]. rewrite IH. lia. Qed.

Lemma count_char_concat c sep x l :
  count_char c (String.concat sep (x :: l)) =
  (List.length l * count_char c sep + list_sum (map (count_char c) (x :: l)))%nat.
Proof.
  revert x. induction l as [|y l IH]; intros x; simpl.
  - destruct x; simpl; lia.
  - change (count_char c (x ++ sep ++ String.concat sep (y :: l)) =
            (count_char c sep + List.length l * count_char c sep +
             (count_char c x + list_sum (map (count_char c) (y :: l))))%nat).
    rewrite !count_char_app, IH. simpl. lia.
Qed.

Lemma count_newline_uint u : count_char (ascii_of_nat 10) (NilEmpty.string_of_uint u) = O.
Proof. induction u; simpl; auto. Qed.

Lemma count_newline_zeros k : count_char (ascii_of_nat 10) (zeros k) = O.
Proof. induction k; simpl; auto. Qed.

Lemma count_newline_format_02d n : count_char (ascii_of_nat 10) (format_02d n) = O.
Proof.
  unfold format_02d, str_N. rewrite !count_char_app, count_newline_zeros, count_newline_uint.
  destruct (n <? 0)%Z; reflexivity.
Qed.

(** X13. [_calculate_quality_score] always returns a score between 0.1
    and 1: the 0.05 floor of its last line never applies. *)
Theorem calculate_quality_score_range np_std rms_energy snr spectral_centroids :
  1 # 10 <= calculate_quality_score np_std rms_energy snr spectral_centroids <= 1.
Proof.
  unfold calculate_quality_score.
  set (e := py_min (py_max (rms_energy / (2 # 10)) (1 # 10)) 1).
  assert (He : 1 # 10 <= e <= 1) by apply clamp_bounds.
  set (s := match snr with SnrInf => 1 | SnrFinite snr => _ end).
  assert (Hs : 1 # 10 <= s <= 1).
  { subst s. destruct snr as [q|]; [|split; lra].
    repeat case_qltb; try (split; lra). apply clamp_bounds. }
  set (c := if Nat.ltb 1 _ then _ else _).
  assert (Hc : 1 # 10 <= c <= 1).
  { subst c. destruct (Nat.ltb 1 _); [|split; lra].
    repeat case_qltb; try (split; lra).
    assert (Ha := Qabs_le_bound _ E0 E1). assert (Hp := Qabs_nonneg (np_std spectral_centroids /
      np_mean spectral_centroids - (2 # 10))). split; lra. }
  set (f := if Nat.ltb 0 _ then _ else _).
  assert (Hf : 1 # 10 <= f <= 1).
  { subst f. destruct (Nat.ltb 0 _); [|split; lra].
    destruct (_ && _); [split; lra|]. destruct (_ && _); split; lra. }
  unfold py_max, py_min.
  set (final_score := e * (25 # 100) + s * (35 # 100) + c * (20 # 100) + f * (20 # 100)).
  assert (Hfin : 1 # 10 <= final_score <= 1) by (subst final_score; split; lra).
  destruct (Qltb final_score 1) eqn:E; [apply Qltb_iff in E|apply Qltb_false_iff in E];
    case_qltb; split; lra.
Qed.

(** X14. [_extract_enhanced_violations] lists each violation type at most
    once, and reports "excessive force" exactly when the lower-cased text
    contains "excessive", "brutal" or "unnecessary force": the keyword
    "excessive force" adds nothing, since it contains "excessive". *)
Theorem extract_enhanced_violations_excessive_force analysis_text :
  NoDup (extract_enhanced_violations analysis_text) /\
  (In "excessive force" (extract_enhanced_violations analysis_text) <->
   contains "excessive" (lower analysis_text) = true \/
   contains "brutal" (lower analysis_text) = true \/
   contains "unnecessary force" (lower analysis_text) = true).
Proof.
  unfold extract_enhanced_violations. set (t := lower analysis_text). split.
  - apply NoDup_map_filter. vm_compute.
    repeat constructor; simpl; intuition discriminate.
  - assert (Hx : contains "excessive force" t = true -> contains "excessive" t = true)
      by apply (contains_prefix "excessive" " force").
    change violation_patterns with
      (("excessive_force", ["excessive force"; "unnecessary force"; "brutal"; "excessive"])
         :: List.tl violation_patterns).
    rewrite In_map_filter_head; [|reflexivity|vm_compute; intuition discriminate].
    cbn [snd existsb]. rewrite ?orb_false_r, !orb_true_iff. intuition.
Qed.

(** X15. When some segment is not flagged as a hallucination and the
    confidence formatter writes no newline, [format_transcript_for_report]
    gives each unflagged segment its own line: the report has one newline
    fewer than those segments, plus the newlines inside their texts. *)
Theorem format_transcript_for_report_lines format_2f transcription_segments include_timestamps
    include_confidence :
  (forall q, count_char (ascii_of_nat 10) (format_2f q) = O) ->
  let valid_segments := filter (fun seg => negb (ts_is_hallucination seg)) transcription_segments in
  valid_segments <> [] ->
  count_char (ascii_of_nat 10)
    (format_transcript_for_report format_2f transcription_segments include_timestamps include_confidence) =
  (List.length valid_segments - 1 +
   list_sum (map (fun seg => count_char (ascii_of_nat 10) (ts_text seg)) valid_segments))%nat.
Proof.
  intros Hfmt. cbv zeta. intros Hne. unfold format_transcript_for_report.
  assert (Hline : forall seg, count_char (ascii_of_nat 10)
            (transcript_line format_2f include_timestamps include_confidence seg) =
            count_char (ascii_of_nat 10) (ts_text seg)).
  { intros seg. unfold transcript_line.
    destruct include_timestamps, include_confidence; cbn [app]; rewrite count_char_concat;
      cbn [List.length map list_sum];
      rewrite ?count_char_app, ?count_newline_format_02d, ?Hfmt; simpl; lia. }
  destruct transcription_segments as [|t0 ts]; [contradiction Hne; reflexivity|].
  cbv iota beta.
  destruct (filter (fun seg => negb (ts_is_hallucination seg)) (t0 :: ts)) as [|v vs];
    [contradiction Hne; reflexivity|].
  cbn [map]. rewrite count_char_concat, length_map. cbn [map list_sum List.length].
  rewrite map_map, Hline, (map_ext _ _ Hline).
  replace (count_char (ascii_of_nat 10) newline) with 1%nat by reflexivity. lia.
Qed.

Lemma enhanced_format_timestamp_same_second_witness :
  EnhancedVideo.format_timestamp 3725 = EnhancedVideo.format_timestamp (7451 # 2) <->
  Qfloor 3725 = Qfloor (7451 # 2).
Proof.
  apply enhanced_format_timestamp_same_second; vm_compute; discriminate.
Defined.

Lemma format_timestamps_agree_below_one_hour_witness :
  EnhancedVideo.format_timestamp 90 = ViolationAnalysis.format_timestamp 90 <-> 90 < 3600.
Proof.
  apply format_timestamps_agree_below_one_hour; vm_compute; discriminate.
Defined.

Lemma analyze_video_structure_dict_bounds_witness :
  let vs := analyze_video_structure_dict nat blackout_20_30_read blackout_20_30_is_black 1 60 in
  0 <= vs_useful_percentage vs <= 100.
Proof.
  exact (proj2 (proj2 (analyze_video_structure_dict_bounds nat blackout_20_30_read
     blackout_20_30_is_black 1 60 ltac:(vm_compute; reflexivity)))).
Defined.

Lemma generate_comprehensive_summary_severity_witness :
  exists s, generate_comprehensive_summary (fun _ => "") [sample_concerning_frame]
              sample_video_structure true = Some (SummaryDict s) /\
    sm_total_frames_analyzed s = 1%nat.
Proof.
  destruct (generate_comprehensive_summary (fun _ => "") [sample_concerning_frame]
              sample_video_structure true) as [[|s]|] eqn:E;
    try (vm_compute in E; discriminate E).
  exists s. split; [reflexivity|].
  exact (proj1 (generate_comprehensive_summary_severity (fun _ => "") [sample_concerning_frame]
     sample_video_structure true s E)).
Defined.

Lemma detect_violations_with_audio_context_facts_witness :
  exists vs, detect_violations_with_audio_context [sample_concerning_frame] (Some [sample_transcript])
               = Some vs /\ List.length vs = 1%nat.
Proof.
  destruct (detect_violations_with_audio_context [sample_concerning_frame] (Some [sample_transcript]))
    as [vs|] eqn:E; [|vm_compute in E; discriminate E].
  exists vs. split; [reflexivity|].
  exact (proj1 (detect_violations_with_audio_context_facts [sample_concerning_frame]
     (Some [sample_transcript]) vs E)).
Defined.

Lemma all_providers_fail_pipeline_witness :
  detect_violations_with_audio_context
    (analyze_frames ["hyperbolic"; "nebius"] (fun _ _ _ => @None PyDict) (fun _ => "prompt")
       extract_enhanced_violations (fun _ => VStrs []) (fun _ => VStrs []) (fun _ => VStrs [])
       (fun _ => VStr "") (fun t => VStr (assess_professionalism t)) [frame_at_5])
    (Some [sample_transcript]) = Some [].
Proof.
  exact (proj1 (all_providers_fail_pipeline ["hyperbolic"; "nebius"] (fun _ _ _ => @None PyDict)
     (fun _ => "prompt") (fun _ => VStrs []) (fun _ => VStrs []) (fun _ => VStrs [])
     (fun _ => VStr "") [frame_at_5] (Some [sample_transcript]) (fun _ => "")
     sample_video_structure true (fun f p c => eq_refl))).
Defined.

Lemma analyze_violations_summary_witness :
  exists timeline summary,
    analyze_violations [sample_violation] [] None [VNum (8 # 10)] = Some (timeline, summary) /\
    timeline = combine_and_deduplicate [sample_violation] [].
Proof.
  destruct (analyze_violations [sample_violation] [] None [VNum (8 # 10)]) as [[timeline summary]|]
    eqn:E; [|vm_compute in E; discriminate E].
  exists timeline, summary. split; [reflexivity|].
  exact (proj1 (analyze_violations_summary [sample_violation] [] None [VNum (8 # 10)]
     timeline summary E)).
Defined.

Lemma identify_noise_segments_disjoint_witness :
  1 # 2 < seg_duration (mkTimeSegment 3 5 2).
Proof.
  refine (proj1 (proj2 (proj2 (proj2 (identify_noise_segments_disjoint 10 sample_speech
     ltac:(discriminate) _ _ _ (mkTimeSegment 3 5 2) _))))).
  - unfold sample_speech. repeat constructor; simpl; intuition discriminate.
  - unfold sample_speech. simpl. intros a b Ha Hb Hab.
    destruct Ha as [<-|[<-|[]]], Hb as [<-|[<-|[]]];
      try (contradiction Hab; reflexivity);
      first [left; vm_compute; discriminate | right; vm_compute; discriminate].
  - unfold sample_speech. simpl. intros s Hs.
    destruct Hs as [<-|[<-|[]]]; repeat split; vm_compute; first [reflexivity | discriminate].
  - vm_compute. right. left. reflexivity.
Defined.

Lemma transcribe_unflagged_segment_checks_witness :
  ts_text (mkTranscriptionSegment 0 2 "please step out of the car" (8 # 10) "en" false []) <> "".
Proof.
  exact (proj1 (proj2 (proj2 (transcribe_unflagged_segment_checks (fun _ _ => false) (fun _ _ => "")
     (fun x => x) (fun _ => Some (mkWhisperResult (Some "please step out of the car") (Some "en") None))
     [two_second_segment] (mkTranscriptionSegment 0 2 "please step out of the car" (8 # 10) "en" false [])
     ltac:(vm_compute; left; reflexivity) eq_refl)))).
Defined.

Lemma format_transcript_for_report_lines_witness :
  count_char (ascii_of_nat 10) (format_transcript_for_report (fun _ => "0.90") [sample_transcript] true true)
  = O.
Proof.
  exact (format_transcript_for_report_lines (fun _ => "0.90") [sample_transcript] true true
     (fun _ => eq_refl) ltac:(vm_compute; discriminate)).
Defined.

(** C1 (code bug). With the NTSC rate 30000/1001, the blackout scan of a
    16000-frame video whose frames 0 to 15346 are black ends the blackout
    at the sample 15347, at [15347 / fps] = 512.0782 s; the usable segment
    starts there.  [_extract_frames_from_segment] computes
    [int(512.0782... * fps)] = [int(15346.999999999998)] = 15346, so the
    intelligent strategy ([_extract_intelligent_frames] with
    ['intelligent'], content static, budget 6) returns frame 15346, a black
    frame at 512.0449 s: inside the detected blackout and before the only
    usable segment. *)
Theorem extract_intelligent_adaptive_returns_blackout_frame :
  exists video_info frames frame blackout,
    Float64.analyze_video_structure Z Float64.fade_in_read Float64.fade_in_is_black
      Float64.ntsc_fps 16000 = Some video_info /\
    Float64.extract_intelligent_adaptive Z Float64.fade_in_read (fun f => f) (fun f => f)
      (fun _ _ => PrimFloat.zero) (fun _ => Some ("frame", (64%nat, 48%nat))) (fun _ => "t")
      (Float64.create_useful_segments (Float64.vi_duration video_info)
         (Float64.vi_blackout_segments video_info))
      6 (Float64.vi_fps video_info) = Some frames /\
    In frame frames /\
    Float64.fade_in_is_black (Float64.sf_frame_number frame) = true /\
    In blackout (Float64.vi_blackout_segments video_info) /\
    PrimFloat.leb (Float64.seg_start blackout) (Float64.sf_timestamp frame) = true /\
    PrimFloat.ltb (Float64.sf_timestamp frame) (Float64.seg_end blackout) = true /\
    Forall (fun u => PrimFloat.ltb (Float64.sf_timestamp frame) (Float64.seg_start u) = true)
      (Float64.create_useful_segments (Float64.vi_duration video_info)
         (Float64.vi_blackout_segments video_info)).
Proof.
  pose (video_info :=
    match Float64.analyze_video_structure Z Float64.fade_in_read Float64.fade_in_is_black
            Float64.ntsc_fps 16000 with
    | Some video_info => video_info
    | None => Float64.mkVideoInfo PrimFloat.zero PrimFloat.zero 0 []
    end).
  pose (frames :=
    match Float64.extract_intelligent_adaptive Z Float64.fade_in_read (fun f => f) (fun f => f)
      (fun _ _ => PrimFloat.zero) (fun _ => Some ("frame", (64%nat, 48%nat))) (fun _ => "t")
      (Float64.create_useful_segments (Float64.vi_duration video_info)
         (Float64.vi_blackout_segments video_info))
      6 (Float64.vi_fps video_info) with
    | Some frames => frames
    | None => []
    end).
  exists video_info, frames.
  exists (hd (Float64.mkSampledFrame 0 PrimFloat.zero "" "" (0%nat, 0%nat)) frames).
  exists (hd (Float64.mkTimeSegment PrimFloat.zero PrimFloat.zero PrimFloat.zero)
            (Float64.vi_blackout_segments video_info)).
  split; [vm_compute; reflexivity|].
  split; [vm_compute; reflexivity|].
  split; [vm_compute; left; reflexivity|].
  split; [vm_compute; reflexivity|].
  split; [vm_compute; left; reflexivity|].
  split; [vm_compute; reflexivity|].
  split; [vm_compute; reflexivity|].
  vm_compute. repeat constructor.
Qed.
